(** * sshuttle-selector: the session/selection engine of [main.go]

    A shallow embedding of the process scanner ([getActiveTunnels]), the
    command builder (the loop body of [loadConfigTunnels]), the catalog
    ([loadAllItems], [isSelectableItem]) and the selection controller
    ([model.Update] and the tail of [main]), followed by the properties
    the specification states about them; then of the delegate that draws
    the rows ([Render]) and of the add command ([handleAddCommand] and
    what it calls), with properties of the whole: sessions from the first
    message to the end of [main], what the add command writes, and the way
    from the command that is launched to the session that is found.

    Go strings are byte sequences: they are modelled as [list ascii].
    Go [int] is modelled as [Z]; the only place where its width matters is
    [strconv.Atoi], which rejects values outside the [int] range. *)

From Stdlib Require Import Ascii String DecimalString.
From Stdlib Require DecimalPos.
From Stdlib Require Import List ZArith Lia Bool.
Import ListNotations.

(* ===================================================================== *)
(** * The Go standard library functions the program calls *)
(* ===================================================================== *)

Module GoStrings.

(** A Go [string]: an immutable sequence of bytes. *)
Definition gostring : Type := list ascii.

(** A string literal of the source. *)
Definition str (s : string) : gostring := list_ascii_of_string s.

(** The double quote character (byte 34), escaped inside the format
    strings of the source. *)
Definition dquote : ascii := ascii_of_nat 34.

Definition byte (n : nat) : ascii := ascii_of_nat n.

(** [a == b] on strings. *)
Fixpoint gostring_eqb (a b : gostring) : bool :=
  match a, b with
  | [], [] => true
  | x :: a', y :: b' => Ascii.eqb x y && gostring_eqb a' b'
  | _, _ => false
  end.

(** [strings.HasPrefix(s, prefix)]. *)
Fixpoint HasPrefix (s prefix : gostring) : bool :=
  match prefix, s with
  | [], _ => true
  | p :: prefix', c :: s' => Ascii.eqb c p && HasPrefix s' prefix'
  | _ :: _, [] => false
  end.

(** [strings.HasSuffix(s, suffix)]. *)
Definition HasSuffix (s suffix : gostring) : bool :=
  HasPrefix (rev s) (rev suffix).

(** [strings.Contains(s, substr)]: [substr] occurs at some byte offset. *)
Fixpoint Contains (s substr : gostring) : bool :=
  HasPrefix s substr ||
  match s with
  | [] => false
  | _ :: s' => Contains s' substr
  end.

(** [strings.Split(s, sep)] for a non-empty separator: [s] is cut at the
    non-overlapping occurrences of [sep], scanning from the left.  [skip]
    counts the bytes of a separator still to be passed over and [cur] is
    the piece being collected. *)
Fixpoint SplitFrom (sep : gostring) (skip : nat) (cur s : gostring)
  : list gostring :=
  match s with
  | [] => [cur]
  | c :: s' =>
      match skip with
      | S k => SplitFrom sep k cur s'
      | O =>
          if HasPrefix s sep
          then cur :: SplitFrom sep (length sep - 1) [] s'
          else SplitFrom sep 0 (cur ++ [c]) s'
      end
  end.

Definition Split (s sep : gostring) : list gostring := SplitFrom sep 0 [] s.

(** The UTF-8 encodings of the runes for which [unicode.IsSpace] holds:
    the six ASCII ones, U+0085, U+00A0, U+1680, U+2000..U+200A, U+2028,
    U+2029, U+202F, U+205F and U+3000.  An encoding starts with a byte that
    never occurs inside another rune, so the rune-wise scans of
    [strings.TrimSpace] and [strings.Fields] are scans for these byte
    sequences. *)
Definition spaceEncodings : list gostring :=
  map (fun n => [byte n]) [9; 10; 11; 12; 13; 32]
  ++ [[byte 194; byte 133]; [byte 194; byte 160]; [byte 225; byte 154; byte 128]]
  ++ map (fun n => [byte 226; byte 128; byte n])
         [128; 129; 130; 131; 132; 133; 134; 135; 136; 137; 138; 168; 169; 175]
  ++ [[byte 226; byte 129; byte 159]; [byte 227; byte 128; byte 128]].

(** Width in bytes of the white-space rune [s] starts with, [0] if [s]
    starts with anything else. *)
Definition spaceWidth (s : gostring) : nat :=
  match find (HasPrefix s) spaceEncodings with
  | Some e => length e
  | None => 0
  end.

(** Width of the white-space rune [s] ends with; the argument is [s]
    reversed, as [utf8.DecodeLastRuneInString] reads it. *)
Definition spaceWidthRev (r : gostring) : nat :=
  match find (fun e => HasPrefix r (rev e)) spaceEncodings with
  | Some e => length e
  | None => 0
  end.

Fixpoint dropWhileWidth (width : gostring -> nat) (skip : nat) (s : gostring)
  : gostring :=
  match s with
  | [] => []
  | _ :: s' =>
      match skip with
      | S k => dropWhileWidth width k s'
      | O =>
          match width s with
          | O => s
          | S k => dropWhileWidth width k s'
          end
      end
  end.

(** [strings.TrimSpace(s)]: leading and trailing white space removed. *)
Definition TrimSpace (s : gostring) : gostring :=
  rev (dropWhileWidth spaceWidthRev 0 (rev (dropWhileWidth spaceWidth 0 s))).

Definition flush (cur : gostring) : list gostring :=
  match cur with
  | [] => []
  | _ => [cur]
  end.

(** [strings.Fields(s)]: the maximal runs of non-white-space bytes. *)
Fixpoint FieldsFrom (skip : nat) (cur s : gostring) : list gostring :=
  match s with
  | [] => flush cur
  | c :: s' =>
      match skip with
      | S k => FieldsFrom k cur s'
      | O =>
          match spaceWidth s with
          | O => FieldsFrom 0 (cur ++ [c]) s'
          | S k => flush cur ++ FieldsFrom k [] s'
          end
      end
  end.

Definition Fields (s : gostring) : list gostring := FieldsFrom 0 [] s.

End GoStrings.
Import GoStrings.

Module GoStrconv.
Local Open Scope Z_scope.

(** The bounds of Go [int] on the 64-bit targets the tool is built for. *)
Definition intSize : Z := 64.
Definition minInt : Z := - 2 ^ (intSize - 1).
Definition maxInt : Z := 2 ^ (intSize - 1) - 1.

Definition digitVal (c : ascii) : option Z :=
  let n := nat_of_ascii c in
  if (48 <=? n)%nat && (n <=? 57)%nat then Some (Z.of_nat (n - 48)) else None.

Fixpoint parseDigits (acc : Z) (s : gostring) : option Z :=
  match s with
  | [] => Some acc
  | c :: s' =>
      match digitVal c with
      | Some d => parseDigits (acc * 10 + d) s'
      | None => None
      end
  end.

(** [strconv.Atoi(s)]: an optional sign, then one or more decimal digits,
    and a value that fits [int]; [None] stands for a non-nil error (a
    syntax error or a range error, which the caller does not tell apart). *)
Definition Atoi (s : gostring) : option Z :=
  let '(neg, digits) :=
    match s with
    | c :: r =>
        if Ascii.eqb c "-" then (true, r)
        else if Ascii.eqb c "+" then (false, r)
        else (false, s)
    | [] => (false, [])
    end in
  match digits with
  | [] => None
  | _ =>
      match parseDigits 0 digits with
      | Some n =>
          let v := if neg then - n else n in
          if (minInt <=? v) && (v <=? maxInt) then Some v else None
      | None => None
      end
  end.

(** [strconv.Itoa(n)], also what the verb [%d] of [fmt] prints. *)
Definition Itoa (n : Z) : gostring :=
  str (NilZero.string_of_int (Z.to_int n)).

End GoStrconv.
Import GoStrconv.

Module GoBufio.

(** [bufio.MaxScanTokenSize]: a scanner with the default buffer gives up
    at a line that does not fit in it. *)
Definition MaxScanTokenSize : Z := 64 * 1024.

Definition newline : ascii := ascii_of_nat 10.
Definition carriageReturn : ascii := ascii_of_nat 13.

(** The raw lines of [bufio.ScanLines]: the input is cut after each
    newline, and a last line without a newline counts when it is not
    empty. *)
Fixpoint rawLines (cur s : gostring) : list gostring :=
  match s with
  | [] => flush cur
  | c :: s' =>
      if Ascii.eqb c newline then cur :: rawLines [] s'
      else rawLines (cur ++ [c]) s'
  end.

(** [dropCR]: one trailing carriage return is removed. *)
Definition dropCR (data : gostring) : gostring :=
  match rev data with
  | c :: r => if Ascii.eqb c carriageReturn then rev r else data
  | [] => data
  end.

Fixpoint takeWhile {A} (p : A -> bool) (l : list A) : list A :=
  match l with
  | [] => []
  | x :: l' => if p x then x :: takeWhile p l' else []
  end.

(** The values [scanner.Text()] takes while [scanner.Scan()] is true, for
    a scanner over [output]: scanning ends at the end of the input or at
    the first line of [MaxScanTokenSize] bytes or more. *)
Definition scanLines (output : gostring) : list gostring :=
  map dropCR
      (takeWhile (fun l => (Z.of_nat (length l) <? MaxScanTokenSize)%Z)
                 (rawLines [] output)).

End GoBufio.
Import GoBufio.

Module GoRegexp.

(** The class [\s] of Go regular expressions: tab, newline, form feed,
    carriage return and space. *)
Definition isReSpace (c : ascii) : bool :=
  existsb (Nat.eqb (nat_of_ascii c)) [9; 10; 12; 13; 32]%nat.

Fixpoint span (p : ascii -> bool) (s : gostring) : gostring * gostring :=
  match s with
  | [] => ([], [])
  | c :: s' =>
      if p c then let '(a, b) := span p s' in (c :: a, b) else ([], s)
  end.

(** [-r\s+(\S+)] matched at the start of [s]: the text of the group.
    Both repetitions are greedy and nothing follows the group, so each
    takes its longest run. *)
Definition matchTail (s : gostring) : option gostring :=
  if HasPrefix s (str "-r") then
    let '(ws, rest) := span isReSpace (skipn 2 s) in
    match ws with
    | [] => None
    | _ =>
        match fst (span (fun c => negb (isReSpace c)) rest) with
        | [] => None
        | dest => Some dest
        end
    end
  else None.

(** [.*-r\s+(\S+)] matched at the start of [s]: the dot matches any byte
    but a newline, and the greedy star gives up bytes only when the rest
    fails with them. *)
Fixpoint matchDotStar (s : gostring) : option gostring :=
  match s with
  | [] => matchTail s
  | c :: s' =>
      if Ascii.eqb c newline then matchTail s
      else
        match matchDotStar s' with
        | Some dest => Some dest
        | None => matchTail s
        end
  end.

(** Group 1 of [regexp.MustCompile(`sshuttle.*-r\s+(\S+)`)
    .FindStringSubmatch(s)], [None] when the expression does not match:
    the match at the leftmost start is the one returned. *)
Fixpoint FindDestination (s : gostring) : option gostring :=
  let here :=
    if HasPrefix s (str "sshuttle") then matchDotStar (skipn 8 s) else None in
  match here with
  | Some dest => Some dest
  | None =>
      match s with
      | [] => None
      | _ :: s' => FindDestination s'
      end
  end.

End GoRegexp.
Import GoRegexp.

(* ===================================================================== *)
(** * The data model of [main.go] *)
(* ===================================================================== *)

(** The text of a Go [error], as [%v] prints it. *)
Definition error : Type := gostring.

Inductive itemType : Type :=
| ItemActiveTunnel
| ItemAvailableTunnel
| ItemAction.

Definition itemType_eqb (a b : itemType) : bool :=
  match a, b with
  | ItemActiveTunnel, ItemActiveTunnel
  | ItemAvailableTunnel, ItemAvailableTunnel
  | ItemAction, ItemAction => true
  | _, _ => false
  end.

(** [type item struct]; the field [itemType] is called [kind] here, the
    name being taken by its type. *)
Record item : Type := mkItem {
  name : gostring;
  destination : gostring;
  command : gostring;
  kind : itemType;
  pid : Z  (* for active tunnels *)
}.

Record activeTunnel : Type := mkActiveTunnel {
  PID : Z;
  Command : gostring;
  Destination : gostring
}.

Record TunnelConfig : Type := mkTunnelConfig {
  Name : gostring;
  Host : gostring;
  User : gostring;
  Subnets : gostring;
  ExtraArgs : gostring
}.

Record Config : Type := mkConfig {
  Tunnels : list TunnelConfig
}.

(* ===================================================================== *)
(** * The environment and the effects of the program *)
(* ===================================================================== *)

(** What reading [~/.config/sshuttle-selector/config.yaml] comes to in
    [loadConfigTunnels]: the ways it can fail, the missing file, and the
    parsed document. *)
Inductive configFile : Type :=
| HomeDirError (err : error)
| ConfigMissing
| ReadFileError (err : error)
| UnmarshalError (err : error)
| ConfigLoaded (config : Config).

(** What the program does to the outside, in the order it does it. *)
Inductive event : Type :=
| EvRun (name : gostring) (args : list gostring)
| EvLog (msg : gostring)
| EvPrint (msg : gostring).

(** The operating system as the program meets it: [run past name args]
    is the outcome of [exec.Command(name, args...)], its standard output
    or its error, when the program has done [past] so far.  The outcome of
    a command may so depend on all that came before it: a process that was
    asked to terminate need not be in the next listing. *)
Record OS : Type := mkOS {
  run : list event -> gostring -> list gostring -> gostring + error;
  configYaml : configFile
}.

(** A computation that reads the environment, knowing what was done so
    far, and leaves the trace of what it does. *)
Definition IO (A : Type) : Type := OS -> list event -> A * list event.

Definition ret {A} (a : A) : IO A := fun _ _ => (a, []).

Definition bind {A B} (c : IO A) (k : A -> IO B) : IO B :=
  fun os past =>
    let '(a, t1) := c os past in
    let '(b, t2) := k a os (past ++ t1) in
    (b, t1 ++ t2).

Declare Scope io_scope.
Delimit Scope io_scope with io.
Notation "x <- c ;; k" := (bind c (fun x => k))
  (at level 61, c at next level, right associativity) : io_scope.
Notation "c ;;; k" := (bind c (fun _ => k))
  (at level 61, right associativity) : io_scope.
Local Open Scope io_scope.

Definition result {A} (c : IO A) (os : OS) (past : list event) : A :=
  fst (c os past).
Definition trace {A} (c : IO A) (os : OS) (past : list event) : list event :=
  snd (c os past).

(** [exec.Command(name, args...)] followed by [Output()] or [Run()]. *)
Definition execCommand (name : gostring) (args : list gostring)
  : IO (gostring + error) :=
  fun os past => (run os past name args, [EvRun name args]).

(** [log.Printf]. *)
Definition logPrintf (msg : gostring) : IO unit :=
  fun _ _ => (tt, [EvLog msg]).

(** [fmt.Print], [fmt.Println] and [fmt.Printf]. *)
Definition fmtPrint (msg : gostring) : IO unit :=
  fun _ _ => (tt, [EvPrint msg]).

(** A [for _, x := range l] loop whose body only has effects. *)
Fixpoint forRange {A} (l : list A) (body : A -> IO unit) : IO unit :=
  match l with
  | [] => ret tt
  | x :: l' => body x ;;; forRange l' body
  end.

(* ===================================================================== *)
(** * ProcessScanner: [getActiveTunnels] *)
(* ===================================================================== *)

(** The body of the scanning loop: [tunnels] after the line is seen. *)
Definition scanLine (tunnels : list activeTunnel) (line : gostring)
  : list activeTunnel :=
  if Contains line (str "sshuttle") && Contains line (str "-r") then
    let fields := Fields line in
    if (1 <? length fields)%nat then
      match Atoi (nth 1 fields []) with
      | None => tunnels  (* continue *)
      | Some pid =>
          let destination :=
            match FindDestination line with
            | Some m => m
            | None => str "unknown"
            end in
          tunnels ++ [ {| PID := pid; Command := line;
                          Destination := destination |} ]
      end
    else tunnels
  else tunnels.

Definition getActiveTunnels : IO (list activeTunnel * option error) :=
  r <- execCommand (str "ps") [str "aux"] ;;
  match r with
  | inr err => ret ([], Some err)
  | inl output => ret (fold_left scanLine (scanLines output) [], None)
  end.

Definition killTunnel (pid : Z) : IO (option error) :=
  r <- execCommand (str "kill") [Itoa pid] ;;
  match r with
  | inr err => ret (Some err)
  | inl _ => ret None
  end.

Definition killAllTunnels : IO (option error) :=
  r <- getActiveTunnels ;;
  match snd r with
  | Some err => ret (Some err)
  | None =>
      forRange (fst r) (fun tunnel =>
        e <- killTunnel (PID tunnel) ;;
        match e with
        | Some err =>
            logPrintf (str "Failed to kill tunnel " ++ Itoa (PID tunnel)
                       ++ str ": " ++ err)
        | None => ret tt
        end) ;;;
      ret None
  end.

(* ===================================================================== *)
(** * CommandBuilder: the loop body of [loadConfigTunnels] *)
(* ===================================================================== *)

(** [keyPath]: the second piece of the extra arguments cut at [-i ],
    trimmed.  The index is in range whenever the flag occurs
    ([Split_index_1] below). *)
Definition keyPath (tunnel : TunnelConfig) : gostring :=
  TrimSpace (nth 1 (Split (ExtraArgs tunnel) (str "-i ")) []).

(** [sshCmd], once the key and the debug flags are added. *)
Definition sshCmd (debugMode : bool) (tunnel : TunnelConfig) : gostring :=
  let sshCmd := str "ssh -o StrictHostKeyChecking=no" in
  let sshCmd :=
    if Contains (ExtraArgs tunnel) (str "-i ")
    then sshCmd ++ (str " -i " ++ keyPath tunnel)
    else sshCmd in
  if debugMode then sshCmd ++ str " -vvv" else sshCmd.

(** What is appended after the closing quote of [--ssh-cmd]: the other
    extra arguments. *)
Definition passThrough (tunnel : TunnelConfig) : gostring :=
  if negb (gostring_eqb (ExtraArgs tunnel) [])
     && negb (Contains (ExtraArgs tunnel) (str "-i "))
  then str " " ++ ExtraArgs tunnel
  else [].

(** [command], as stored in the item of the tunnel. *)
Definition buildCommand (debugMode : bool) (tunnel : TunnelConfig)
  : gostring :=
  let command :=
    if debugMode then
      (* In debug mode, don't use --daemon and add -v flag *)
      str "sshuttle -v -r " ++ User tunnel ++ str "@" ++ Host tunnel
      ++ str " " ++ Subnets tunnel ++ str " --ssh-cmd=" ++ [dquote]
      ++ sshCmd debugMode tunnel ++ [dquote]
    else
      (* Normal mode uses --daemon *)
      str "sshuttle -r " ++ User tunnel ++ str "@" ++ Host tunnel
      ++ str " " ++ Subnets tunnel ++ str " --daemon --ssh-cmd=" ++ [dquote]
      ++ sshCmd debugMode tunnel ++ [dquote] in
  command ++ passThrough tunnel.

Definition configItem (debugMode : bool) (tunnel : TunnelConfig) : item :=
  {| name := Name tunnel;
     destination := User tunnel ++ str "@" ++ Host tunnel;
     command := buildCommand debugMode tunnel;
     kind := ItemAvailableTunnel;
     pid := 0 |}.

(** The item shown when there is no configuration file. *)
Definition exampleServer : item :=
  {| name := str "Example Server";
     destination := str "user@example.com";
     command := str "sshuttle -r user@example.com 10.0.0.0/8";
     kind := ItemAvailableTunnel;
     pid := 0 |}.

Definition loadConfigTunnels (debugMode : bool)
  : IO (list item * option error) :=
  fun os _ =>
    (match configYaml os with
     | HomeDirError err => ([], Some err)
     | ConfigMissing => ([exampleServer], None)
     | ReadFileError err => ([], Some err)
     | UnmarshalError err => ([], Some err)
     | ConfigLoaded config =>
         (map (configItem debugMode) (Tunnels config), None)
     end, []).

(** The key extraction of [validateSSHConnection], the other place where
    the program reads a key out of the extra arguments: the arguments it
    passes to [ssh] for the connectivity test. *)
Definition sshTestArgs (user host extraArgs : gostring) : list gostring :=
  let sshArgs := [str "-o"; str "ConnectTimeout=10"; str "-o";
                  str "BatchMode=yes"; str "-o";
                  str "StrictHostKeyChecking=no"] in
  let sshArgs :=
    if Contains extraArgs (str "-i ") then
      let keyPath := TrimSpace (nth 1 (Split extraArgs (str "-i ")) []) in
      let keyPath := nth 0 (Split keyPath (str " ")) [] in
      sshArgs ++ [str "-i"; keyPath]
    else sshArgs in
  sshArgs ++ [user ++ str "@" ++ host; str "exit"].

(* ===================================================================== *)
(** * SessionCatalog: [loadAllItems] and [isSelectableItem] *)
(* ===================================================================== *)

Definition sectionItem (title : gostring) : item :=
  {| name := title; destination := []; command := [];
     kind := ItemAction; pid := 0 |}.

(** The row of the running tunnel; the bullet is U+25CF. *)
Definition activeItem (tunnel : activeTunnel) : item :=
  {| name := [byte 226; byte 151; byte 143] ++ str " " ++ Destination tunnel
             ++ str " (PID: " ++ Itoa (PID tunnel)
             ++ str ") - Click to stop";
     destination := Destination tunnel;
     command := str "kill " ++ Itoa (PID tunnel);
     kind := ItemActiveTunnel;
     pid := PID tunnel |}.

Definition addNewItem : item :=
  {| name := str "+ Add New Tunnel"; destination := [];
     command := str "add_new"; kind := ItemAction; pid := 0 |}.

Definition loadAllItems (debugMode : bool) : IO (list item * option error) :=
  let items := [] in
  (* Get active tunnels (should be only one now) *)
  r <- getActiveTunnels ;;
  let activeTunnels := fst r in
  match snd r with
  | Some err => logPrintf (str "Error getting active tunnels: " ++ err)
  | None => ret tt
  end ;;;
  (* Add current active tunnel (if any) *)
  let items :=
    match activeTunnels with
    | tunnel :: _ =>
        (* Take only the first active tunnel (single tunnel mode) *)
        items ++ [sectionItem (str "CURRENT TUNNEL")]
              ++ [activeItem tunnel]
              ++ [sectionItem []]
    | [] => items
    end in
  (* Add available tunnels section *)
  let items := items ++ [sectionItem (str "AVAILABLE TUNNELS")] in
  c <- loadConfigTunnels debugMode ;;
  match snd c with
  | Some err => ret ([], Some err)
  | None =>
      let items := items ++ fst c in
      (* Add separator and new tunnel option *)
      let items := items ++ [sectionItem []] in
      let items := items ++ [addNewItem] in
      ret (items, None)
  end.

Definition isSelectableItem (i : item) : bool :=
  (* Section headers and empty separators are not selectable *)
  if itemType_eqb (kind i) ItemAction
     && (Contains (name i) (str "TUNNEL") || gostring_eqb (name i) [])
  then false
  else true.

(* ===================================================================== *)
(** * SelectionController: [model.Update] and the tail of [main] *)
(* ===================================================================== *)

(** The part of the state of [list.Model] (the list widget of the
    [bubbles] library) the program reads and writes: its items, the index
    of the cursor and the width. *)
Record listModel : Type := mkListModel {
  listItems : list item;
  cursor : Z;
  width : Z
}.

Definition Items (l : listModel) : list item := listItems l.
Definition Index (l : listModel) : Z := cursor l.

Definition Select (l : listModel) (index : Z) : listModel :=
  {| listItems := listItems l; cursor := index; width := width l |}.

Definition SetWidth (l : listModel) (v : Z) : listModel :=
  {| listItems := listItems l; cursor := cursor l; width := v |}.

(** [SelectedItem()] is [nil] when the index is outside the items. *)
Definition SelectedItem (l : listModel) : option item :=
  if (Index l <? 0)%Z || (Z.of_nat (length (Items l)) <=? Index l)%Z
  then None
  else nth_error (Items l) (Z.to_nat (Index l)).

Record model : Type := mkModel {
  list_ : listModel;  (* the field [list] *)
  choice : gostring;
  quitting : bool
}.

Definition withList (m : model) (l : listModel) : model :=
  {| list_ := l; choice := choice m; quitting := quitting m |}.

Definition withChoice (m : model) (c : gostring) : model :=
  {| list_ := list_ m; choice := c; quitting := quitting m |}.

Definition withQuitting (m : model) (q : bool) : model :=
  {| list_ := list_ m; choice := choice m; quitting := q |}.

(** [tea.Msg] and [tea.Cmd]. *)
Inductive Msg : Type :=
| WindowSizeMsg (Width Height : Z)
| KeyMsg (keypress : gostring)
| OtherMsg (tag : nat).

Inductive Cmd : Type :=
| nilCmd
| Quit
| WidgetCmd (tag : nat).

(** A call that returns or panics (an index out of range). *)
Inductive outcome (A : Type) : Type :=
| Done (a : A)
| Panic.
Arguments Done {A} a.
Arguments Panic {A}.

(** [for i := currentIndex - 1; i >= 0; i--]: [n] is [i + 1]. *)
Fixpoint upLoop (items : list item) (n : nat) (l : listModel)
  : outcome listModel :=
  match n with
  | O => Done l
  | S i =>
      match nth_error items i with
      | None => Panic
      | Some it =>
          if isSelectableItem it then Done (Select l (Z.of_nat i))
          else upLoop items i l
      end
  end.

(** [for i := currentIndex + 1; i < len(items); i++]; the loop tests its
    condition at most [len(items) + 1] times, which is the [fuel]. *)
Fixpoint downLoop (items : list item) (fuel : nat) (i : Z) (l : listModel)
  : outcome listModel :=
  match fuel with
  | O => Done l
  | S fuel' =>
      if (i <? Z.of_nat (length items))%Z then
        match (if (i <? 0)%Z then None else nth_error items (Z.to_nat i)) with
        | None => Panic
        | Some it =>
            if isSelectableItem it then Done (Select l i)
            else downLoop items fuel' (i + 1)%Z l
        end
      else Done l
  end.

Definition moveUp (m : model) : outcome model :=
  let currentIndex := Index (list_ m) in
  match upLoop (Items (list_ m)) (Z.to_nat currentIndex) (list_ m) with
  | Done l => Done (withList m l)
  | Panic => Panic
  end.

Definition moveDown (m : model) : outcome model :=
  let currentIndex := Index (list_ m) in
  let items := Items (list_ m) in
  match downLoop items (S (length items)) (currentIndex + 1)%Z (list_ m) with
  | Done l => Done (withList m l)
  | Panic => Panic
  end.

(** The [enter] case up to its [return m, tea.Quit]. *)
Definition confirm (m : model) : IO model :=
  match SelectedItem (list_ m) with
  | Some i =>
      if isSelectableItem i then
        match kind i with
        | ItemActiveTunnel =>
            (* Kill current tunnel *)
            e <- killTunnel (pid i) ;;
            match e with
            | Some err =>
                ret (withChoice m (str "Failed to stop tunnel: " ++ err))
            | None =>
                ret (withChoice m (str "Tunnel stopped: " ++ destination i))
            end
        | ItemAvailableTunnel =>
            (* Kill any existing tunnel first, then start new one *)
            e <- killAllTunnels ;;
            match e with
            | Some err =>
                logPrintf (str "Warning: Failed to kill existing tunnels: "
                           ++ err)
            | None => ret tt
            end ;;;
            ret (withChoice m (command i))
        | ItemAction =>
            if gostring_eqb (command i) (str "add_new")
            then ret (withChoice m (str "add_new_tunnel"))
            else ret m
        end
      else ret m
  | None => ret m
  end.

Definition keyIn (keypress : gostring) (keys : list string) : bool :=
  existsb (fun k => gostring_eqb keypress (str k)) keys.

Section Controller.

(** [list.Model.Update] of the widget, for the messages the program
    leaves to it. *)
Variable listUpdate : listModel -> Msg -> listModel * Cmd.

Definition widgetUpdate (m : model) (msg : Msg) : IO (outcome (model * Cmd)) :=
  let '(l, cmd) := listUpdate (list_ m) msg in
  ret (Done (withList m l, cmd)).

Definition Update (m : model) (msg : Msg) : IO (outcome (model * Cmd)) :=
  match msg with
  | WindowSizeMsg Width _ =>
      ret (Done (withList m (SetWidth (list_ m) Width), nilCmd))
  | KeyMsg keypress =>
      if keyIn keypress ["ctrl+c"; "q"]%string then
        ret (Done (withQuitting m true, Quit))
      else if keyIn keypress ["up"; "k"]%string then
        match moveUp m with
        | Done m' => ret (Done (m', nilCmd))
        | Panic => ret Panic
        end
      else if keyIn keypress ["down"; "j"]%string then
        match moveDown m with
        | Done m' => ret (Done (m', nilCmd))
        | Panic => ret Panic
        end
      else if keyIn keypress ["enter"]%string then
        m' <- confirm m ;;
        ret (Done (m', Quit))
      else widgetUpdate m msg
  | OtherMsg _ => widgetUpdate m msg
  end.

(** The event loop of the [tea] runtime over the messages that arrive:
    each goes to [Update], and the program ends at the first [tea.Quit]. *)
Fixpoint runSession (m : model) (msgs : list Msg) : IO (outcome model) :=
  match msgs with
  | [] => ret (Done m)
  | msg :: rest =>
      r <- Update m msg ;;
      match r with
      | Panic => ret Panic
      | Done (m', Quit) => ret (Done m')
      | Done (m', _) => runSession m' rest
      end
  end.

End Controller.

(** [list.New(items, ...)] followed by the search of [main] for the first
    selectable item. *)
Fixpoint firstSelectable (items : list item) (i : Z) : option Z :=
  match items with
  | [] => None
  | it :: rest =>
      if isSelectableItem it then Some i else firstSelectable rest (i + 1)%Z
  end.

Definition defaultWidth : Z := 80.

Definition initialModel (items : list item) : model :=
  let l := {| listItems := items; cursor := 0; width := defaultWidth |} in
  let l := match firstSelectable items 0 with
           | Some i => Select l i
           | None => l
           end in
  {| list_ := l; choice := []; quitting := false |}.

(** The end of [main], once the program has returned its final model:
    the selected action is handled.  The value is the argument of
    [os.Exit] when it is called. *)
Definition handleChoice (finalModel : model) : IO (option Z) :=
  let choice := choice finalModel in
  if negb (gostring_eqb choice []) then
    if gostring_eqb choice (str "add_new_tunnel") then
      fmtPrint (str "Coming soon: Interactive tunnel creation" ++ [newline]) ;;;
      ret None
    else if HasPrefix choice (str "Tunnel stopped:")
            || HasPrefix choice (str "Failed to stop")
            || HasPrefix choice (str "All tunnels killed")
            || HasPrefix choice (str "Failed to kill") then
      (* Just print the status message *)
      fmtPrint (choice ++ [newline]) ;;;
      ret None
    else
      (* Execute sshuttle command *)
      fmtPrint (str "Starting tunnel..." ++ [newline]) ;;;
      r <- execCommand (str "sh") [str "-c"; choice] ;;
      match r with
      | inr err =>
          fmtPrint (str "Error executing command: " ++ err ++ [newline]) ;;;
          ret (Some 1%Z)
      | inl _ => ret None
      end
  else ret None.

(** [main] from [p.Run()] on: the session over the messages [msgs] that
    arrive, starting in [m], then the handling of the choice.  A panic
    ends the process with the exit code 2. *)
Definition runAndHandle (listUpdate : listModel -> Msg -> listModel * Cmd)
  (m : model) (msgs : list Msg) : IO (option Z) :=
  r <- runSession listUpdate m msgs ;;
  match r with
  | Done finalModel => handleChoice finalModel
  | Panic => ret (Some 2%Z)
  end.

(** [main] without the [-add] flag: the items are loaded, the cursor is
    put on the first selectable one, and the session runs. *)
Definition main (listUpdate : listModel -> Msg -> listModel * Cmd)
  (debugMode : bool) (msgs : list Msg) : IO (option Z) :=
  r <- loadAllItems debugMode ;;
  match snd r with
  | Some err =>
      logPrintf (str "Error loading items: " ++ err) ;;;
      logPrintf (str "Failed to load configuration") ;;;
      ret (Some 1%Z)
  | None => runAndHandle listUpdate (initialModel (fst r)) msgs
  end.

(* ===================================================================== *)
(** * Rendering: [itemDelegate.Render] *)
(* ===================================================================== *)

(** The styles of [lipgloss] the delegate renders with. *)
Inductive style : Type :=
| sectionStyle
| activeItemStyle
| availableItemStyle
| actionItemStyle
| selectedItemStyle.

(** [Render(w, m, index, listItem)]: the style and the text written to
    [w], [None] when the delegate returns without writing. *)
Definition Render (m : listModel) (index : Z) (i : item)
  : option (style * gostring) :=
  if gostring_eqb (name i) [] then None
  else
    let '(content, style) :=
      match kind i with
      | ItemAction =>
          if Contains (name i) (str "CURRENT TUNNEL")
          then (str "CURRENT TUNNEL", sectionStyle)
          else if Contains (name i) (str "AVAILABLE TUNNELS")
          then (str "AVAILABLE TUNNELS", sectionStyle)
          else if Contains (name i) (str "Add New")
          then (str "+ Add New Tunnel", actionItemStyle)
          else (name i, sectionStyle)
      | ItemActiveTunnel =>
          (* Show current active tunnel with stop hint; the bullet is
             replaced by itself *)
          (name i, activeItemStyle)
      | ItemAvailableTunnel => (str "  " ++ name i, availableItemStyle)
      end in
    (* Apply selection highlighting *)
    if (index =? Index m)%Z && negb (gostring_eqb (name i) []) then
      if negb (isSelectableItem i) then
        (* Don't highlight non-selectable items *)
        Some (style, content)
      else Some (selectedItemStyle, str "> " ++ content)
    else Some (style, content).

(* ===================================================================== *)
(** * The add command: [handleAddCommand] and what it calls *)
(* ===================================================================== *)

(** What [saveConfig] comes to for a configuration: the home directory is
    not found, the document cannot be marshalled, the file cannot be
    written, or it is written. *)
Inductive saveOutcome : Type :=
| SaveHomeDirError (err : error)
| MarshalError (err : error)
| WriteFileError (err : error)
| Saved.

(** The environment of the add command: the operating system, the
    error of [net.ParseCIDR] on a text ([None] when it parses), the error
    of [os.MkdirAll] on the configuration directory, what [fmt.Scanln]
    leaves in [response], and the outcome of saving. *)
Record AddEnv : Type := mkAddEnv {
  addOS : OS;
  ParseCIDR : gostring -> option error;
  MkdirAll : option error;
  Scanln : gostring;
  saving : Config -> saveOutcome
}.

(** What the add command does to the outside. *)
Inductive fileEvent : Type :=
| Ev (e : event)
| EvMkdirAll
| EvReadConfig
| EvScanln
| EvWriteFile (config : Config).

(** [strings.ToLower] on the bytes of ASCII.  The runes outside ASCII
    that Unicode lowers into ASCII are U+0130 and U+212A, which give [i]
    and [k]: the comparisons of the program, with [y] and [yes], come out
    the same. *)
Definition ToLower (s : gostring) : gostring :=
  map (fun c =>
         let n := nat_of_ascii c in
         if (65 <=? n)%nat && (n <=? 90)%nat then ascii_of_nat (n + 32)
         else c) s.

(** The loop of [validateSubnets] over the pieces. *)
Fixpoint validateSubnetsLoop (parse : gostring -> option error)
  (subnetsSlice : list gostring) : option error :=
  match subnetsSlice with
  | [] => None
  | subnet :: rest =>
      let subnet := TrimSpace subnet in
      match parse subnet with
      | Some err =>
          Some (str "invalid CIDR '" ++ subnet ++ str "': " ++ err)
      | None => validateSubnetsLoop parse rest
      end
  end.

Definition validateSubnets (env : AddEnv) (subnets : gostring)
  : option error :=
  (* Split by comma and validate each CIDR *)
  validateSubnetsLoop (ParseCIDR env) (Split subnets (str ",")).

(** [validateSSHConnection]: the test connection, run after [past]. *)
Definition validateSSHConnection (env : AddEnv) (past : list event)
  (user host extraArgs : gostring) : option error * list fileEvent :=
  let sshArgs := sshTestArgs user host extraArgs in
  (match run (addOS env) past (str "ssh") sshArgs with
   | inr err => Some err
   | inl _ => None
   end,
   [Ev (EvRun (str "ssh") sshArgs)]).

Definition loadOrCreateConfig (env : AddEnv)
  : (Config * option error) * list fileEvent :=
  let failed (err : error) (t : list fileEvent) :=
    (({| Tunnels := [] |}, Some err), t) in
  match configYaml (addOS env), MkdirAll env with
  | HomeDirError err, _ => failed err []
  | _, Some err =>
      (* Create directory if it doesn't exist *)
      failed err [EvMkdirAll]
  | ConfigMissing, None =>
      (* Return empty config *)
      (({| Tunnels := [] |}, None), [EvMkdirAll])
  | ReadFileError err, None => failed err [EvMkdirAll; EvReadConfig]
  | UnmarshalError err, None => failed err [EvMkdirAll; EvReadConfig]
  | ConfigLoaded config, None => ((config, None), [EvMkdirAll; EvReadConfig])
  end.

Definition saveConfig (env : AddEnv) (config : Config)
  : option error * list fileEvent :=
  match saving env config with
  | SaveHomeDirError err => (Some err, [])
  | MarshalError err => (Some err, [])
  | WriteFileError err => (Some err, [EvWriteFile config])
  | Saved => (None, [EvWriteFile config])
  end.

(** The tunnel the add command appends. *)
Definition newTunnel (name host user subnets extraArgs : gostring)
  : TunnelConfig :=
  {| Name := name; Host := host; User := user; Subnets := subnets;
     ExtraArgs := extraArgs |}.

(** The part of [handleAddCommand] after the connectivity test: the
    configuration is loaded, the name is looked for, the tunnel is
    appended and the configuration is saved. *)
Definition addToConfig (env : AddEnv)
  (name host user subnets extraArgs : gostring)
  : option error * list fileEvent :=
  (* Load existing config or create new one *)
  let '((config, err), t1) := loadOrCreateConfig env in
  match err with
  | Some err => (Some (str "failed to load config: " ++ err), t1)
  | None =>
      (* Check for duplicate names *)
      if existsb (fun tunnel => gostring_eqb (Name tunnel) name)
                 (Tunnels config)
      then (Some (str "tunnel with name '" ++ name
                  ++ str "' already exists"), t1)
      else
        (* Add new tunnel *)
        let config :=
          {| Tunnels := Tunnels config
                        ++ [newTunnel name host user subnets extraArgs] |} in
        (* Save config *)
        let '(err, t2) := saveConfig env config in
        match err with
        | Some err => (Some (str "failed to save config: " ++ err), t1 ++ t2)
        | None => (None, t1 ++ t2)
        end
  end.

Definition handleAddCommand (env : AddEnv) (past : list event)
  (name host user subnets extraArgs : gostring)
  : option error * list fileEvent :=
  (* Validate required parameters *)
  if gostring_eqb name [] then
    (Some (str "tunnel name is required (use -name)"), [])
  else if gostring_eqb host [] then
    (Some (str "SSH hostname is required (use -host)"), [])
  else if gostring_eqb user [] then
    (Some (str "SSH username is required (use -user)"), [])
  else if gostring_eqb subnets [] then
    (Some (str "subnets are required (use -subnets)"), [])
  else
    (* Validate subnet format *)
    match validateSubnets env subnets with
    | Some err => (Some (str "invalid subnet format: " ++ err), [])
    | None =>
        (* Validate SSH connectivity (optional test) *)
        let '(err, t1) := validateSSHConnection env past user host extraArgs in
        let '(cancelled, t2) :=
          match err with
          | Some err =>
              let response := Scanln env in
              (negb (gostring_eqb (ToLower response) (str "y"))
               && negb (gostring_eqb (ToLower response) (str "yes")),
               [Ev (EvPrint (str "Warning: SSH connectivity test failed: "
                             ++ err ++ [newline]));
                Ev (EvPrint (str "Continue anyway? [y/N]: "));
                EvScanln])
          | None => (false, [])
          end in
        if cancelled then (Some (str "operation cancelled"), t1 ++ t2)
        else
          let '(r, t3) := addToConfig env name host user subnets extraArgs in
          (r, t1 ++ t2 ++ t3)
    end.

(** [main] with the [-add] flag: the exit code and what is done. *)
Definition mainAdd (env : AddEnv) (past : list event)
  (name host user subnets extraArgs : gostring) : Z * list fileEvent :=
  let '(err, t) := handleAddCommand env past name host user subnets extraArgs in
  match err with
  | Some err =>
      (1%Z, t ++ [Ev (EvPrint (str "Error: " ++ err ++ [newline]))])
  | None =>
      (0%Z, t ++ [Ev (EvPrint (str "Tunnel configuration added successfully!"
                               ++ [newline]))])
  end.

(* ===================================================================== *)
(** * Notions used to state the properties *)
(* ===================================================================== *)

(** [k] occurs in [s] as a contiguous piece. *)
Definition infix (k s : gostring) : Prop := exists a b, s = a ++ k ++ b.

Module CommandWords.

Definition space : ascii := " "%char.
Definition at_sign : ascii := "@"%char.

(** The key option of the remote-login command, when there is one. *)
Definition keyOption (tunnel : TunnelConfig) : gostring :=
  if Contains (ExtraArgs tunnel) (str "-i ")
  then space :: str "-i" ++ space :: keyPath tunnel
  else [].



Definition fieldsFree (tunnel : TunnelConfig) (sub : gostring) : Prop :=
  Contains (User tunnel) sub = false
  /\ Contains (Host tunnel) sub = false
  /\ Contains (Subnets tunnel) sub = false
  /\ Contains (ExtraArgs tunnel) sub = false.

End CommandWords.
Import CommandWords.

(** Definitions of tunnels used as examples below. *)
Module Examples.

(** The [AWS VPC] entry of the README, with the key of the test. *)
Definition awsVpc : TunnelConfig :=
  {| Name := str "AWS VPC";
     Host := str "bastion.example.com";
     User := str "ec2-user";
     Subnets := str "172.16.0.0/12";
     ExtraArgs := str "-i ~/.ssh/k.pem --dns" |}.

(** The [Corporate VPN] entry of the README. *)
Definition corporateVpn : TunnelConfig :=
  {| Name := str "Corporate VPN";
     Host := str "vpn.company.com";
     User := str "employee";
     Subnets := str "10.0.0.0/8,172.16.0.0/12";
     ExtraArgs := str "--dns" |}.

(** The [Development Server] entry of the README. *)
Definition devServer : TunnelConfig :=
  {| Name := str "Development Server";
     Host := str "dev.example.com";
     User := str "ubuntu";
     Subnets := str "10.0.0.0/8";
     ExtraArgs := str "-i ~/.ssh/dev-key.pem" |}.



End Examples.

(** Notions on the lines of the process table. *)
Module ScanLines.

(** What the scanning loop adds for one line. *)
Definition tunnelsOfLine (line : gostring) : list activeTunnel :=
  scanLine [] line.

(** The line names the tunnel tool and its remote-spec flag. *)
Definition matchesTool (line : gostring) : bool :=
  Contains line (str "sshuttle") && Contains line (str "-r").

(** The second white-space delimited field, read as [strconv.Atoi]
    reads it. *)
Definition pidOfLine (line : gostring) : option Z :=
  match nth_error (Fields line) 1 with
  | Some field => Atoi field
  | None => None
  end.

Definition destinationOfLine (line : gostring) : gostring :=
  match FindDestination line with
  | Some m => m
  | None => str "unknown"
  end.

Definition tunnelOf (line : gostring) (pid : Z) : activeTunnel :=
  {| PID := pid; Command := line; Destination := destinationOfLine line |}.

(** [d] can be the group of the expression matched in [s]: a piece of
    [s], one or more bytes long, without a blank of the class [\s]. *)
Definition token (d s : gostring) : Prop :=
  d <> [] /\ forallb (fun c => negb (isReSpace c)) d = true
  /\ exists a b, s = a ++ d ++ b.

(** The lines of a process table, each ended by a newline. *)
Definition table (lines : list string) : gostring :=
  flat_map (fun l => str l ++ [newline]) lines.

(** An operating system whose [ps aux] always prints [output], whose
    [kill] fails for the process ids in [unkillable], and whose
    configuration file is [config]. *)
Definition osWith (output : gostring + error) (unkillable : list Z)
  (config : configFile) : OS :=
  {| run := fun _ name args =>
       if gostring_eqb name (str "ps") then output
       else if gostring_eqb name (str "kill") then
         if existsb (fun p => gostring_eqb (nth 0 args []) (Itoa p)) unkillable
         then inr (str "exit status 1")
         else inl []
       else inl [];
     configYaml := config |}.

(** A table with a header, a tunnel, a line whose second field is not a
    number, and a second tunnel. *)
Definition mixedTable : gostring :=
  table ["USER PID %CPU COMMAND";
         "root 4242 0.0 /usr/bin/python3 /usr/bin/sshuttle -r ubuntu@dev.example.com 10.0.0.0/8 --daemon";
         "root n/a 0.0 sshuttle -r broken@example.com 0/0";
         "alice 977 0.1 sshuttle -v -r ec2-user@bastion.example.com 172.16.0.0/12"]%string.

(** A table whose matching line has a negative second field. *)
Definition negativeTable : gostring :=
  table ["USER PID %CPU COMMAND";
         "root -7 0.0 sshuttle -r ubuntu@dev.example.com 10.0.0.0/8"]%string.

(** A table without the tunnel tool. *)
Definition idleTable : gostring :=
  table ["USER PID %CPU COMMAND";
         "root 1 0.0 /sbin/init";
         "alice 977 0.1 ssh -r host"]%string.

End ScanLines.
Import ScanLines.

(** Notions on the catalog. *)
Module Catalog.

(** The entries of the specification's data model; an item of the
    program stands for one of them. *)
Inductive CatalogEntry : Type :=
| SectionHeader (title : gostring)
| Separator
| ActiveSessionRow (session : Z * gostring)
| AvailableTunnelRow (tunnelName resolvedCommand : gostring)
| ActionRowAddNew
| ActionRowOther (label : gostring).

(** The entry an item stands for, told apart the way [isSelectableItem],
    [Render] and [Update] tell items apart: by the type, then by the name
    and the command. *)
Definition entryOf (i : item) : CatalogEntry :=
  match kind i with
  | ItemActiveTunnel => ActiveSessionRow (pid i, destination i)
  | ItemAvailableTunnel => AvailableTunnelRow (name i) (command i)
  | ItemAction =>
      if gostring_eqb (name i) [] then Separator
      else if Contains (name i) (str "TUNNEL") then SectionHeader (name i)
      else if gostring_eqb (command i) (str "add_new") then ActionRowAddNew
      else ActionRowOther (name i)
  end.

Definition isActiveRow (i : item) : bool :=
  itemType_eqb (kind i) ItemActiveTunnel.

(** The section of the running tunnel. *)
Definition activeSection (activeTunnels : list activeTunnel) : list item :=
  match activeTunnels with
  | tunnel :: _ =>
      [sectionItem (str "CURRENT TUNNEL"); activeItem tunnel; sectionItem []]
  | [] => []
  end.

(** The catalog for the sessions found and the items of the
    configuration. *)
Definition catalogOf (activeTunnels : list activeTunnel)
  (configItems : list item) : list item :=
  activeSection activeTunnels
  ++ [sectionItem (str "AVAILABLE TUNNELS")]
  ++ configItems
  ++ [sectionItem []; addNewItem].

(** A configuration with three entries of the README. *)
Definition readmeConfig : configFile :=
  ConfigLoaded {| Tunnels := [Examples.devServer; Examples.corporateVpn;
                              Examples.awsVpc] |}.

(** A table with one running tunnel, and one with two. *)
Definition oneTunnelTable : gostring :=
  table ["USER PID %CPU COMMAND";
         "root 4242 0.0 sshuttle -r ubuntu@dev.example.com 10.0.0.0/8 --daemon"]%string.

Definition twoTunnelsTable : gostring :=
  table ["USER PID %CPU COMMAND";
         "root 4242 0.0 sshuttle -r ubuntu@dev.example.com 10.0.0.0/8 --daemon";
         "root 4250 0.0 sshuttle -r employee@vpn.company.com 10.0.0.0/8 --daemon"]%string.

End Catalog.
Import Catalog.

(** Notions on the selection. *)
Module Selection.
Local Open Scope Z_scope.

(** The entry at index [i] exists and can be selected. *)
Definition selectableAt (items : list item) (i : Z) : bool :=
  if i <? 0 then false
  else
    match nth_error items (Z.to_nat i) with
    | Some it => isSelectableItem it
    | None => false
    end.

(** [j] is the first selectable index after [cur]. *)
Definition firstSelectableAfter (items : list item) (cur j : Z) : Prop :=
  cur < j
  /\ selectableAt items j = true
  /\ forall k, cur < k < j -> selectableAt items k = false.

(** [j] is the last selectable index before [cur]. *)
Definition lastSelectableBefore (items : list item) (cur j : Z) : Prop :=
  0 <= j < cur
  /\ selectableAt items j = true
  /\ forall k, j < k < cur -> selectableAt items k = false.

Definition noSelectableAfter (items : list item) (cur : Z) : Prop :=
  forall k, cur < k -> selectableAt items k = false.

Definition noSelectableBefore (items : list item) (cur : Z) : Prop :=
  forall k, k < cur -> selectableAt items k = false.

(** The cursor is on an entry or just past the last one (the place it
    has in an empty list). *)
Definition cursorInRange (m : model) : Prop :=
  0 <= Index (list_ m) <= Z.of_nat (length (Items (list_ m))).

(** The model with the cursor moved to [j]. *)
Definition cursorAt (m : model) (j : Z) : model :=
  withList m (Select (list_ m) j).

(** The request to terminate the session [tunnel], with its failure
    logged, and the requests for the sessions [tunnels] one after the
    other, as [killAllTunnels] issues them after [past]. *)
Definition killRequest (os : OS) (past : list event) (tunnel : activeTunnel)
  : list event :=
  EvRun (str "kill") [Itoa (PID tunnel)]
  :: match run os past (str "kill") [Itoa (PID tunnel)] with
     | inr err =>
         [EvLog (str "Failed to kill tunnel " ++ Itoa (PID tunnel)
                 ++ str ": " ++ err)]
     | inl _ => []
     end.

Fixpoint killTrace (os : OS) (past : list event)
  (tunnels : list activeTunnel) : list event :=
  match tunnels with
  | [] => []
  | tunnel :: rest =>
      killRequest os past tunnel
      ++ killTrace os (past ++ killRequest os past tunnel) rest
  end.

(** The launch of [cmd] through the shell. *)
Definition launchEvent (cmd : gostring) : event :=
  EvRun (str "sh") [str "-c"; cmd].

Definition isLaunch (e : event) : bool :=
  match e with
  | EvRun name _ => gostring_eqb name (str "sh")
  | _ => false
  end.

(** The key that confirms the selection. *)
Definition enter : Msg := KeyMsg (str "enter").

(** A widget that ignores the messages left to it. *)
Definition idleWidget (l : listModel) (_ : Msg) : listModel * Cmd :=
  (l, nilCmd).

(** The model over the catalog of [os] at the start of the program, with
    the cursor at [i]. *)
Definition modelAt (debugMode : bool) (os : OS) (i : Z) : model :=
  cursorAt (initialModel (fst (result (loadAllItems debugMode) os []))) i.

(** A table with one tunnel, and the system that runs it, whose [kill]
    fails for the process 4242. *)
Definition busyOS : OS :=
  osWith (inl oneTunnelTable) [4242] readmeConfig.

End Selection.
Import Selection.

(** Notions on the add command. *)
Module AddNotions.

(** The answer to the prompt lets the command go on. *)
Definition accepts (response : gostring) : bool :=
  gostring_eqb (ToLower response) (str "y")
  || gostring_eqb (ToLower response) (str "yes").

(** The configurations handed to [os.WriteFile], in order. *)
Definition writes (t : list fileEvent) : list Config :=
  flat_map (fun e => match e with EvWriteFile c => [c] | _ => [] end) t.

(** The arguments pass the checks made before anything is touched. *)
Definition validArguments (env : AddEnv) (name host user subnets : gostring)
  : Prop :=
  name <> [] /\ host <> [] /\ user <> [] /\ subnets <> []
  /\ validateSubnets env subnets = None.

Definition namesOf (config : Config) : list gostring :=
  map Name (Tunnels config).

(** The test connection of the add command. *)
Definition sshTest (user host extraArgs : gostring) : fileEvent :=
  Ev (EvRun (str "ssh") (sshTestArgs user host extraArgs)).

(** The warning, the question and the reading of the answer. *)
Definition promptEvents (err : error) : list fileEvent :=
  [Ev (EvPrint (str "Warning: SSH connectivity test failed: "
                ++ err ++ [newline]));
   Ev (EvPrint (str "Continue anyway? [y/N]: "));
   EvScanln].

(** The outcome of the test connection made after [past]. *)
Definition sshOutcome (env : AddEnv) (past : list event)
  (user host extraArgs : gostring) : option error :=
  fst (validateSSHConnection env past user host extraArgs).

(** A parser that takes the texts with a slash for subnets, for the
    examples. *)
Definition slashParser (s : gostring) : option error :=
  if Contains s (str "/") then None
  else Some (str "invalid CIDR address: " ++ s).

(** An environment with the configuration [config], where the test
    connection fails when [offline] holds, the answer to the prompt is
    [answer], and the file can be written. *)
Definition addEnvWith (config : configFile) (offline : bool)
  (answer : gostring) : AddEnv :=
  {| addOS := {| run := fun _ _ _ =>
                   if offline then inr (str "exit status 255") else inl [];
                 configYaml := config |};
     ParseCIDR := slashParser;
     MkdirAll := None;
     Scanln := answer;
     saving := fun _ => Saved |}.

(** The tunnel of the examples. *)
Definition stagingTunnel : TunnelConfig :=
  newTunnel (str "Staging") (str "staging.example.com") (str "deploy")
    (str "10.2.0.0/16, 10.3.0.0/16") (str "--dns").

(** The add command for [stagingTunnel] in [env]. *)
Definition addStaging (env : AddEnv) : option error * list fileEvent :=
  handleAddCommand env [] (str "Staging") (str "staging.example.com")
    (str "deploy") (str "10.2.0.0/16, 10.3.0.0/16") (str "--dns").

End AddNotions.
Import AddNotions.

(** Notions on whole sessions. *)
Module Sessions.

(** The messages that only move the cursor or resize the list: the four
    navigation keys and the change of the window size. *)
Definition isBrowsing (msg : Msg) : bool :=
  match msg with
  | WindowSizeMsg _ _ => true
  | KeyMsg keypress => keyIn keypress ["up"; "k"; "down"; "j"]%string
  | OtherMsg _ => false
  end.

(** The cursor is on an entry that can be selected. *)
Definition onSelectable (m : model) : Prop :=
  selectableAt (Items (list_ m)) (Index (list_ m)) = true.

(** The number of launches through the shell in a trace. *)
Definition launches (t : list event) : nat :=
  length (filter isLaunch t).


(** The configuration cannot be read, with the error [err]. *)
Definition unreadable (os : OS) (err : error) : Prop :=
  configYaml os = HomeDirError err
  \/ configYaml os = ReadFileError err
  \/ configYaml os = UnmarshalError err.

(** The row is drawn with the mark of the selection. *)
Definition highlighted (m : listModel) (index : Z) (i : item) : Prop :=
  exists text, Render m index i = Some (selectedItemStyle, text).

(** The text of a row that shows the name of its item: the mark of the
    selection when [marked] holds, the indentation of an available tunnel,
    and the name. *)
Definition rowText (marked : bool) (i : item) : gostring :=
  (if marked then str "> " else [])
  ++ match kind i with
     | ItemAvailableTunnel => str "  "
     | _ => []
     end
  ++ name i.

(** The base arguments of the test connection. *)
Definition sshTestOptions : list gostring :=
  [str "-o"; str "ConnectTimeout=10"; str "-o"; str "BatchMode=yes";
   str "-o"; str "StrictHostKeyChecking=no"].

(** A system where no configuration can be read. *)
Definition brokenOS : OS :=
  osWith (inl oneTunnelTable) [] (UnmarshalError (str "yaml: line 2"))%string.

End Sessions.
Import Sessions.

(* ===================================================================== *)
(** * Lemmas on the string functions *)
(* ===================================================================== *)

Section StringLemmas.

Lemma infix_refl s : infix s s.
Proof. exists [], []. now rewrite app_nil_r. Qed.

Lemma infix_nil s : infix [] s.
Proof. exists [], s. reflexivity. Qed.

Lemma infix_cons k c s : infix k s -> infix k (c :: s).
Proof. intros (a & b & ->). now exists (c :: a), b. Qed.

Lemma infix_trans k m s : infix k m -> infix m s -> infix k s.
Proof.
  intros (a & b & ->) (a' & b' & ->).
  exists (a' ++ a), (b ++ b'). now rewrite !app_assoc.
Qed.

Lemma infix_prefix h r : infix h (h ++ r).
Proof. now exists [], r. Qed.

Lemma infix_suffix p d : infix d (p ++ d).
Proof. exists p, []. now rewrite app_nil_r. Qed.

Lemma gostring_eqb_eq a b : gostring_eqb a b = true <-> a = b.
Proof.
  revert b; induction a as [|x a IH]; intros [|y b]; simpl;
    try (split; [discriminate|discriminate]); [tauto|].
  rewrite andb_true_iff, IH, Ascii.eqb_eq.
  split; [intros [-> ->]; reflexivity|intros [= -> ->]; auto].
Qed.

Lemma gostring_eqb_refl a : gostring_eqb a a = true.
Proof. now apply gostring_eqb_eq. Qed.

Lemma HasPrefix_nil s : HasPrefix s [] = true.
Proof. now destruct s. Qed.

Lemma HasPrefix_app_r s sub b :
  HasPrefix s sub = true -> HasPrefix (s ++ b) sub = true.
Proof.
  revert sub; induction s as [|c s IH]; intros [|p sub]; simpl; auto.
  - intros _. apply HasPrefix_nil.
  - discriminate.
  - intros H. apply andb_true_iff in H as [-> H]. simpl. auto.
Qed.

Lemma HasPrefix_split s p : HasPrefix s p = true -> exists r, s = p ++ r.
Proof.
  revert s; induction p as [|c p IH]; intros s H.
  - now exists s.
  - destruct s as [|x s]; [discriminate|]. simpl in H.
    apply andb_true_iff in H as [Hx H]. apply Ascii.eqb_eq in Hx as ->.
    destruct (IH s H) as [r ->]. now exists r.
Qed.

Lemma HasPrefix_self_app p r : HasPrefix (p ++ r) p = true.
Proof.
  induction p as [|c p IH]; simpl.
  - apply HasPrefix_nil.
  - now rewrite Ascii.eqb_refl.
Qed.

(** A byte that is not in [sub] ends every attempt to read [sub]. *)
Lemma HasPrefix_app_sep a c b sub :
  ~ In c sub -> HasPrefix (a ++ c :: b) sub = HasPrefix a sub.
Proof.
  revert sub; induction a as [|x a IH]; intros [|p sub] Hc; simpl; auto.
  - destruct (Ascii.eqb_spec c p) as [->|]; [|reflexivity].
    exfalso. apply Hc. now left.
  - rewrite IH; [reflexivity|]. intros H. apply Hc. now right.
Qed.

Lemma Contains_prefix s sub : HasPrefix s sub = true -> Contains s sub = true.
Proof. intros H. destruct s; simpl in *; now rewrite H. Qed.

Lemma Contains_cons c s sub : Contains s sub = true -> Contains (c :: s) sub = true.
Proof. intros H. simpl. rewrite H. apply orb_true_r. Qed.

Lemma Contains_app_r s sub b :
  Contains s sub = true -> Contains (s ++ b) sub = true.
Proof.
  induction s as [|c s IH]; intros H.
  - simpl in H. rewrite orb_false_r in H. destruct sub; [|discriminate].
    apply Contains_prefix, HasPrefix_nil.
  - change (Contains (c :: s) sub)
      with (HasPrefix (c :: s) sub || Contains s sub) in H.
    apply orb_true_iff in H as [H|H].
    + apply Contains_prefix. now apply HasPrefix_app_r.
    + change ((c :: s) ++ b) with (c :: (s ++ b)). apply Contains_cons. auto.
Qed.

Lemma Contains_app_l a s sub :
  Contains s sub = true -> Contains (a ++ s) sub = true.
Proof.
  intros H. induction a as [|x a IH]; [exact H|].
  change ((x :: a) ++ s) with (x :: (a ++ s)). now apply Contains_cons.
Qed.

Lemma Contains_infix k s sub :
  infix k s -> Contains k sub = true -> Contains s sub = true.
Proof.
  intros (a & b & ->) H. now apply Contains_app_l, Contains_app_r.
Qed.

Lemma Contains_infix_false k s sub :
  infix k s -> Contains s sub = false -> Contains k sub = false.
Proof.
  intros Hi Hs. destruct (Contains k sub) eqn:E; [|reflexivity].
  now rewrite (Contains_infix k s sub Hi E) in Hs.
Qed.



Lemma Contains_nil_l sub : sub <> [] -> Contains [] sub = false.
Proof. now destruct sub. Qed.

(** An occurrence of [sub] cannot span a byte that is not in [sub]. *)
Lemma Contains_app_sep a c b sub :
  sub <> [] -> ~ In c sub ->
  Contains (a ++ c :: b) sub = Contains a sub || Contains b sub.
Proof.
  intros Hne Hc. induction a as [|x a IH].
  - rewrite (Contains_nil_l sub Hne).
    change (Contains ([] ++ c :: b) sub)
      with (HasPrefix ([] ++ c :: b) sub || Contains b sub).
    rewrite HasPrefix_app_sep by assumption.
    destruct sub; [easy|reflexivity].
  - change (Contains ((x :: a) ++ c :: b) sub)
      with (HasPrefix ((x :: a) ++ c :: b) sub || Contains (a ++ c :: b) sub).
    rewrite HasPrefix_app_sep, IH by assumption.
    change (Contains (x :: a) sub)
      with (HasPrefix (x :: a) sub || Contains a sub).
    now rewrite orb_assoc.
Qed.

Lemma Contains_cons_sep c b sub :
  sub <> [] -> ~ In c sub -> Contains (c :: b) sub = Contains b sub.
Proof.
  intros Hne Hc. change (c :: b) with ([] ++ c :: b).
  now rewrite Contains_app_sep, (Contains_nil_l sub Hne) by assumption.
Qed.

(** The trimming functions return a piece of their argument. *)
Lemma dropWhileWidth_suffix w skip s :
  exists p, s = p ++ dropWhileWidth w skip s.
Proof.
  revert skip; induction s as [|c s IH]; intros skip.
  - now exists [].
  - simpl. destruct skip as [|k].
    + destruct (w (c :: s)) as [|k].
      * now exists [].
      * destruct (IH k) as [p Hp]. exists (c :: p). simpl. now f_equal.
    + destruct (IH k) as [p Hp]. exists (c :: p). simpl. now f_equal.
Qed.

Lemma TrimSpace_infix s : infix (TrimSpace s) s.
Proof.
  unfold TrimSpace.
  destruct (dropWhileWidth_suffix spaceWidth 0 s) as [p Hp].
  set (d := dropWhileWidth spaceWidth 0 s) in *.
  destruct (dropWhileWidth_suffix spaceWidthRev 0 (rev d)) as [q Hq].
  set (e := dropWhileWidth spaceWidthRev 0 (rev d)) in *.
  exists p, (rev q).
  rewrite Hp at 1. f_equal.
  rewrite <- (rev_involutive d), Hq, rev_app_distr. reflexivity.
Qed.

(** The pieces of [Split]: the first continues [cur] with a prefix of what
    is left after the bytes to skip, the others are pieces of [s]. *)
Lemma SplitFrom_pieces sep s : forall skip cur,
  exists h tl r,
    SplitFrom sep skip cur s = (cur ++ h) :: tl
    /\ skipn skip s = h ++ r
    /\ Forall (fun p => infix p s) tl.
Proof.
  induction s as [|c s IH]; intros skip cur.
  - exists [], [], []. simpl. rewrite app_nil_r.
    repeat split; auto. now destruct skip.
  - cbn [SplitFrom]. destruct skip as [|k].
    + destruct (HasPrefix (c :: s) sep).
      * destruct (IH (length sep - 1)%nat []) as (h & tl & r & E & Hs & Ht).
        exists [], (SplitFrom sep (length sep - 1) [] s), (c :: s).
        rewrite app_nil_r. repeat split; auto.
        rewrite E. constructor.
        -- apply infix_cons. simpl.
           apply infix_trans with (skipn (length sep - 1) s).
           ++ rewrite Hs. apply infix_prefix.
           ++ rewrite <- (firstn_skipn (length sep - 1) s) at 2.
              apply infix_suffix.
        -- eapply Forall_impl; [|exact Ht]. intros p. apply infix_cons.
      * destruct (IH 0%nat (cur ++ [c])) as (h & tl & r & E & Hs & Ht).
        exists (c :: h), tl, r. rewrite E, <- app_assoc. simpl in *.
        repeat split; auto.
        -- now rewrite Hs.
        -- eapply Forall_impl; [|exact Ht]. intros p. apply infix_cons.
    + destruct (IH k cur) as (h & tl & r & E & Hs & Ht).
      exists h, tl, r. repeat split; auto.
      eapply Forall_impl; [|exact Ht]. intros p. apply infix_cons.
Qed.

Lemma Split_pieces_infix s sep p : In p (Split s sep) -> infix p s.
Proof.
  unfold Split. destruct (SplitFrom_pieces sep s 0 []) as (h & tl & r & E & Hs & Ht).
  rewrite E. simpl in *. intros [<-|Hp].
  - rewrite Hs. apply infix_prefix.
  - rewrite Forall_forall in Ht. auto.
Qed.

Lemma Split_nth_infix s sep n : infix (nth n (Split s sep) []) s.
Proof.
  destruct (nth_in_or_default n (Split s sep) []) as [H | ->].
  - now apply Split_pieces_infix with sep.
  - apply infix_nil.
Qed.

Lemma SplitFrom_nonempty sep s : forall skip cur, SplitFrom sep skip cur s <> [].
Proof.
  intros skip cur.
  destruct (SplitFrom_pieces sep s skip cur) as (h & tl & r & E & _).
  now rewrite E.
Qed.

(** [strings.Split(s, sep)[1]] exists whenever [sep] occurs in [s]. *)
Lemma Split_index_1 s sep :
  sep <> [] -> Contains s sep = true -> (1 < length (Split s sep))%nat.
Proof.
  intros Hne. unfold Split. generalize (@nil ascii) as cur.
  induction s as [|c s IH]; intros cur H.
  - now rewrite (Contains_nil_l sep Hne) in H.
  - cbn [SplitFrom Contains] in *. destruct (HasPrefix (c :: s) sep) eqn:E.
    + pose proof (SplitFrom_nonempty sep s (length sep - 1) []) as Hn.
      destruct (SplitFrom sep (length sep - 1) [] s); [easy|simpl; lia].
    + simpl in H. auto.
Qed.

End StringLemmas.

(* ===================================================================== *)
(** * CommandBuilder: properties *)
(* ===================================================================== *)

Module CommandBuilder.

(** The remote-login command, word by word. *)
Lemma sshCmd_words debugMode tunnel :
  sshCmd debugMode tunnel =
  str "ssh" ++ space :: str "-o" ++ space :: str "StrictHostKeyChecking=no"
  ++ keyOption tunnel ++ (if debugMode then space :: str "-vvv" else []).
Proof.
  unfold sshCmd, keyOption.
  destruct debugMode, (Contains (ExtraArgs tunnel) (str "-i "));
    simpl; rewrite ?app_nil_r, <- ?app_assoc; reflexivity.
Qed.

(** The tunnel command, word by word: the words are joined by single
    spaces, an at sign or the quotes of [--ssh-cmd]. *)
Lemma buildCommand_words debugMode tunnel :
  buildCommand debugMode tunnel =
  str "sshuttle" ++ (if debugMode then space :: str "-v" else [])
  ++ space :: str "-r" ++ space :: User tunnel ++ at_sign :: Host tunnel
  ++ space :: Subnets tunnel
  ++ (if debugMode then [] else space :: str "--daemon")
  ++ space :: str "--ssh-cmd=" ++ dquote :: sshCmd debugMode tunnel
  ++ dquote :: passThrough tunnel.
Proof.
  unfold buildCommand.
  generalize (sshCmd debugMode tunnel) (passThrough tunnel).
  intros ssh extra.
  destruct debugMode; repeat (simpl; rewrite <- ?app_assoc); reflexivity.
Qed.


Lemma keyPath_infix tunnel : infix (keyPath tunnel) (ExtraArgs tunnel).
Proof.
  unfold keyPath. eapply infix_trans; [apply TrimSpace_infix|].
  apply Split_nth_infix.
Qed.

(** No part of the extra arguments follows [--ssh-cmd] when they hold the
    key flag. *)
Lemma passThrough_key tunnel :
  Contains (ExtraArgs tunnel) (str "-i ") = true -> passThrough tunnel = [].
Proof.
  intros H. unfold passThrough. rewrite H, andb_false_r. reflexivity.
Qed.


(** C1, at the example of the specification: for the extra arguments
    [-i ~/.ssh/k.pem --dns] the builder does not stop the key at the next
    space.  The key option of [--ssh-cmd] is [~/.ssh/k.pem --dns], so
    [--dns] lands inside the quotes of [--ssh-cmd], and nothing follows the
    closing quote: the command has no pass-through part.  The connectivity
    test of [validateSSHConnection] reads the same extra arguments and does
    stop at the space: its key is [~/.ssh/k.pem]. *)
Theorem key_then_dns_command :
  keyPath Examples.awsVpc = str "~/.ssh/k.pem --dns"
  /\ passThrough Examples.awsVpc = []
  /\ buildCommand false Examples.awsVpc =
     str "sshuttle -r ec2-user@bastion.example.com 172.16.0.0/12 --daemon"
     ++ str " --ssh-cmd=" ++ [dquote]
     ++ str "ssh -o StrictHostKeyChecking=no -i ~/.ssh/k.pem --dns"
     ++ [dquote]
  /\ buildCommand true Examples.awsVpc =
     str "sshuttle -v -r ec2-user@bastion.example.com 172.16.0.0/12"
     ++ str " --ssh-cmd=" ++ [dquote]
     ++ str "ssh -o StrictHostKeyChecking=no -i ~/.ssh/k.pem --dns -vvv"
     ++ [dquote]
  /\ Contains (passThrough Examples.awsVpc) (str "--dns") = false
  /\ sshTestArgs (User Examples.awsVpc) (Host Examples.awsVpc)
       (ExtraArgs Examples.awsVpc) =
     [str "-o"; str "ConnectTimeout=10"; str "-o"; str "BatchMode=yes";
      str "-o"; str "StrictHostKeyChecking=no"; str "-i"; str "~/.ssh/k.pem";
      str "ec2-user@bastion.example.com"; str "exit"].
Proof. repeat split; vm_compute; reflexivity. Qed.

(** The part of C1 that holds for every definition with the key flag:
    the key option sits inside [--ssh-cmd], right after the host-key
    option, and the extra arguments are withheld from the pass-through
    part. *)
Lemma key_option_inside_sshCmd debugMode tunnel :
  Contains (ExtraArgs tunnel) (str "-i ") = true ->
  sshCmd debugMode tunnel =
    str "ssh -o StrictHostKeyChecking=no -i " ++ keyPath tunnel
    ++ (if debugMode then str " -vvv" else [])
  /\ passThrough tunnel = [].
Proof.
  intros H. split; [|now apply passThrough_key].
  unfold sshCmd. rewrite H.
  destruct debugMode; rewrite <- ?app_assoc, ?app_nil_r; reflexivity.
Qed.




End CommandBuilder.

(* ===================================================================== *)
(** * ProcessScanner: properties *)
(* ===================================================================== *)

Module ProcessScanner.

(** The library functions on the inputs they meet in the scan. *)
Example Fields_ps_line :
  Fields (str "root   4242  0.0 sshuttle -r  ubuntu@dev.example.com ") =
  [str "root"; str "4242"; str "0.0"; str "sshuttle"; str "-r";
   str "ubuntu@dev.example.com"].
Proof. reflexivity. Qed.

Example Fields_no_break_space :
  Fields (str "a" ++ [byte 194; byte 160] ++ str "b" ++ [byte 9]) =
  [str "a"; str "b"].
Proof. reflexivity. Qed.

Example Atoi_samples :
  map Atoi [str "4242"; str "+7"; str "-7"; str "007"; [];
            str "-"; str "n/a"; str "1_000"; str "12a";
            str "9223372036854775807"; str "9223372036854775808"] =
  [Some 4242; Some 7; Some (-7); Some 7; None; None; None; None; None;
   Some 9223372036854775807; None]%Z.
Proof. reflexivity. Qed.

Example FindDestination_samples :
  map FindDestination
    [str "root 4242 0.0 sshuttle -r ubuntu@dev.example.com 10.0.0.0/8";
     str "sshuttle -v -r   a@b 0/0 -r c@d";
     str "sshuttle --remote x -r";
     str "ssh -r host sshuttle"] =
  [Some (str "ubuntu@dev.example.com"); Some (str "c@d"); None; None].
Proof. reflexivity. Qed.

Example scanLines_sample :
  scanLines (str "a" ++ [carriageReturn; newline; newline] ++ str "b") =
  [str "a"; []; str "b"].
Proof. reflexivity. Qed.

Lemma takeWhile_all {A} (p : A -> bool) l :
  forallb p l = true -> takeWhile p l = l.
Proof.
  induction l as [|x l IH]; [reflexivity|]. cbn [forallb takeWhile].
  intros H. apply andb_true_iff in H as [-> H]. now rewrite IH.
Qed.

(** A table whose lines all fit the buffer of the scanner is read to its
    end. *)
Lemma scanLines_all output :
  forallb (fun l => (Z.of_nat (length l) <? MaxScanTokenSize)%Z)
          (rawLines [] output) = true ->
  scanLines output = map dropCR (rawLines [] output).
Proof. intros H. unfold scanLines. now rewrite takeWhile_all. Qed.

(** One line adds nothing, or one session that carries the line. *)
Lemma tunnelsOfLine_spec line :
  tunnelsOfLine line =
  if matchesTool line then
    match pidOfLine line with
    | Some pid => [tunnelOf line pid]
    | None => []
    end
  else [].
Proof.
  unfold tunnelsOfLine, scanLine, matchesTool, pidOfLine, tunnelOf,
    destinationOfLine.
  destruct (Contains line (str "sshuttle") && Contains line (str "-r"));
    [|reflexivity].
  destruct (Fields line) as [|f0 [|f1 fs]]; reflexivity.
Qed.

Lemma scanLine_app tunnels line :
  scanLine tunnels line = tunnels ++ tunnelsOfLine line.
Proof.
  unfold tunnelsOfLine, scanLine.
  destruct (Contains line (str "sshuttle") && Contains line (str "-r"));
    [|now rewrite app_nil_r].
  destruct (1 <? length (Fields line))%nat; [|now rewrite app_nil_r].
  destruct (Atoi (nth 1 (Fields line) [])); [reflexivity|].
  now rewrite app_nil_r.
Qed.

(** The loop keeps the order of the lines. *)
Lemma fold_scanLine lines : forall tunnels,
  fold_left scanLine lines tunnels = tunnels ++ flat_map tunnelsOfLine lines.
Proof.
  induction lines as [|line lines IH]; intros tunnels; simpl.
  - now rewrite app_nil_r.
  - now rewrite IH, scanLine_app, <- app_assoc.
Qed.

Lemma getActiveTunnels_ok os past output :
  run os past (str "ps") [str "aux"] = inl output ->
  getActiveTunnels os past =
  ((flat_map tunnelsOfLine (scanLines output), None),
   [EvRun (str "ps") [str "aux"]]).
Proof.
  intros H. unfold getActiveTunnels, bind, execCommand, ret.
  rewrite H, fold_scanLine. reflexivity.
Qed.

Lemma getActiveTunnels_error os past err :
  run os past (str "ps") [str "aux"] = inr err ->
  getActiveTunnels os past =
  (([], Some err), [EvRun (str "ps") [str "aux"]]).
Proof.
  intros H. unfold getActiveTunnels, bind, execCommand, ret.
  now rewrite H.
Qed.

Lemma In_tunnelsOfLine t line :
  In t (tunnelsOfLine line) ->
  matchesTool line = true
  /\ exists pid, pidOfLine line = Some pid /\ t = tunnelOf line pid.
Proof.
  rewrite tunnelsOfLine_spec.
  destruct (matchesTool line); [|intros []].
  destruct (pidOfLine line) as [pid|]; [|intros []].
  intros [<-|[]]. split; [reflexivity|]. now exists pid.
Qed.

(** C9, as the code has it.  When [ps aux] prints [output], the scan
    reports no error and returns, in the order of the lines read, one
    session for each line that names the tool and its remote-spec flag and
    whose second field [strconv.Atoi] accepts -- an optional sign and
    digits within the range of [int], so zero and negative numbers pass.
    A matching line whose second field is missing or is not such a number
    is left out, the sessions of the other lines are still returned, and
    without a matching line the result is empty. *)
Theorem scan_skips_malformed_lines os past output :
  run os past (str "ps") [str "aux"] = inl output ->
  let tunnels := fst (result getActiveTunnels os past) in
  snd (result getActiveTunnels os past) = None
  /\ tunnels = flat_map tunnelsOfLine (scanLines output)
  /\ (forall line,
        In line (scanLines output) -> matchesTool line = true ->
        pidOfLine line = None ->
        forall t, In t tunnels -> Command t <> line)
  /\ (forall line pid,
        In line (scanLines output) -> matchesTool line = true ->
        pidOfLine line = Some pid ->
        In (tunnelOf line pid) tunnels)
  /\ ((forall line, In line (scanLines output) -> matchesTool line = false) ->
      tunnels = []).
Proof.
  intros H. unfold result. rewrite (getActiveTunnels_ok os past output H).
  cbn [fst snd]. split; [reflexivity|]. split; [reflexivity|].
  split; [|split].
  - intros line _ _ Hpid t Ht Hc.
    apply in_flat_map in Ht as (line' & _ & Ht).
    apply In_tunnelsOfLine in Ht as (_ & pid & Hp & ->).
    cbn in Hc. subst line'. congruence.
  - intros line pid Hin Hm Hp. apply in_flat_map. exists line.
    split; [assumption|]. rewrite tunnelsOfLine_spec, Hm, Hp. now left.
  - intros Hno. induction (scanLines output) as [|line lines IH];
      [reflexivity|].
    cbn [flat_map]. rewrite tunnelsOfLine_spec, (Hno line) by now left.
    apply IH. intros l Hl. apply Hno. now right.
Qed.

(** The scan of [mixedTable]: the line with the field [n/a] is left out
    and the two tunnels around it are returned; and the scan of
    [idleTable], which has no matching line. *)
Lemma scan_skips_malformed_lines_witness :
  fst (result getActiveTunnels (osWith (inl mixedTable) [] ConfigMissing) [])
  =
    [ {| PID := 4242;
         Command := str "root 4242 0.0 /usr/bin/python3 /usr/bin/sshuttle -r ubuntu@dev.example.com 10.0.0.0/8 --daemon";
         Destination := str "ubuntu@dev.example.com" |};
      {| PID := 977;
         Command := str "alice 977 0.1 sshuttle -v -r ec2-user@bastion.example.com 172.16.0.0/12";
         Destination := str "ec2-user@bastion.example.com" |} ]
  /\ (forall t,
        In t (fst (result getActiveTunnels
                     (osWith (inl mixedTable) [] ConfigMissing) [])) ->
        Command t <> str "root n/a 0.0 sshuttle -r broken@example.com 0/0")
  /\ fst (result getActiveTunnels (osWith (inl idleTable) [] ConfigMissing)
            []) = [].
Proof.
  pose proof (scan_skips_malformed_lines
                (osWith (inl mixedTable) [] ConfigMissing) [] mixedTable
                eq_refl) as (_ & Hall & Hskip & _ & _).
  pose proof (scan_skips_malformed_lines
                (osWith (inl idleTable) [] ConfigMissing) [] idleTable
                eq_refl) as (_ & _ & _ & _ & Hnone).
  split; [|split].
  - rewrite Hall. vm_compute. reflexivity.
  - apply Hskip; vm_compute; auto.
  - apply Hnone. vm_compute. intros line H.
    repeat (destruct H as [<-|H]; [reflexivity|]). destruct H.
Defined.

(** C9 as stated fails on [negativeTable]: the second field of its
    matching line is [-7], which is not a positive integer, and the line
    is returned as a session of process id [-7]. *)
Lemma scan_accepts_negative_pid :
  matchesTool (str "root -7 0.0 sshuttle -r ubuntu@dev.example.com 10.0.0.0/8")
    = true
  /\ nth_error
       (Fields (str "root -7 0.0 sshuttle -r ubuntu@dev.example.com 10.0.0.0/8"))
       1 = Some (str "-7")
  /\ result getActiveTunnels (osWith (inl negativeTable) [] ConfigMissing)
       [] =
     ([ {| PID := -7;
           Command := str "root -7 0.0 sshuttle -r ubuntu@dev.example.com 10.0.0.0/8";
           Destination := str "ubuntu@dev.example.com" |} ], None).
Proof. repeat split; vm_compute; reflexivity. Qed.

End ProcessScanner.

(* ===================================================================== *)
(** * SessionCatalog: properties *)
(* ===================================================================== *)

Module SessionCatalog.

Lemma loadConfigTunnels_trace debugMode os past :
  trace (loadConfigTunnels debugMode) os past = [].
Proof. reflexivity. Qed.

(** Reading the configuration does not depend on what was done before. *)
Lemma loadConfigTunnels_past debugMode os past past' :
  loadConfigTunnels debugMode os past = loadConfigTunnels debugMode os past'.
Proof. reflexivity. Qed.

(** The configuration decides whether the catalog is built; the scan
    decides only whether it starts with the section of the running
    tunnel. *)
Lemma loadAllItems_result debugMode os past :
  result (loadAllItems debugMode) os past =
  match snd (result (loadConfigTunnels debugMode) os past) with
  | Some err => ([], Some err)
  | None =>
      (catalogOf (fst (result getActiveTunnels os past))
                 (fst (result (loadConfigTunnels debugMode) os past)), None)
  end.
Proof.
  unfold loadAllItems, result, bind, catalogOf, activeSection.
  destruct (getActiveTunnels os past) as [[tunnels err] tr]. cbn [fst snd].
  destruct err as [err|]; cbn [logPrintf ret fst snd];
    match goal with
    | |- context [loadConfigTunnels debugMode os ?h] =>
        rewrite (loadConfigTunnels_past debugMode os h past)
    end;
    destruct (loadConfigTunnels debugMode os past) as [[cis cerr] ctr];
    cbn [fst snd]; destruct cerr; cbn [ret fst snd]; try reflexivity;
    destruct tunnels; cbn [app]; rewrite <- ?app_assoc; reflexivity.
Qed.

Lemma loadAllItems_trace debugMode os past :
  trace (loadAllItems debugMode) os past =
  trace getActiveTunnels os past
  ++ match snd (result getActiveTunnels os past) with
     | Some err => [EvLog (str "Error getting active tunnels: " ++ err)]
     | None => []
     end.
Proof.
  unfold loadAllItems, trace, result, bind.
  destruct (getActiveTunnels os past) as [[tunnels err] tr]. cbn [fst snd].
  destruct err as [err|]; cbn [logPrintf ret fst snd];
    match goal with
    | |- context [loadConfigTunnels debugMode os ?h] =>
        pose proof (loadConfigTunnels_trace debugMode os h) as Ht;
        unfold trace in Ht;
        destruct (loadConfigTunnels debugMode os h) as [[cis cerr] ctr]
    end;
    cbn [snd] in Ht; subst ctr;
    cbn [fst snd]; destruct cerr; cbn [ret fst snd];
    rewrite ?app_nil_r; reflexivity.
Qed.

Lemma loadConfigTunnels_loaded debugMode os past config :
  configYaml os = ConfigLoaded config ->
  result (loadConfigTunnels debugMode) os past =
  (map (configItem debugMode) (Tunnels config), None).
Proof. intros H. unfold result, loadConfigTunnels. now rewrite H. Qed.

(** The rows of the configuration are never rows of a running tunnel. *)
Lemma loadConfigTunnels_no_active debugMode os past :
  filter isActiveRow (fst (result (loadConfigTunnels debugMode) os past))
  = [].
Proof.
  unfold result, loadConfigTunnels. cbn [fst].
  destruct (configYaml os) as [e| |e|e|config]; try reflexivity.
  cbn [fst]. induction (Tunnels config) as [|t ts IH]; [reflexivity|].
  exact IH.
Qed.

Lemma filter_active_catalogOf activeTunnels configItems :
  filter isActiveRow configItems = [] ->
  filter isActiveRow (catalogOf activeTunnels configItems) =
  match activeTunnels with
  | tunnel :: _ => [activeItem tunnel]
  | [] => []
  end.
Proof.
  intros H. unfold catalogOf, activeSection.
  rewrite !filter_app, H.
  destruct activeTunnels; reflexivity.
Qed.

(** C4: with one running tunnel and three definitions in the
    configuration, the catalog is, in this order, the header of the
    current tunnel, the row of the running tunnel, a separator, the header
    of the available tunnels, the three rows of the definitions in the
    order of the configuration, a separator and the row that adds a
    tunnel; the headers and the separators are not selectable and the
    other rows are. *)
Theorem catalog_one_session_three_definitions
  debugMode os past tunnel d1 d2 d3 :
  fst (result getActiveTunnels os past) = [tunnel] ->
  configYaml os = ConfigLoaded {| Tunnels := [d1; d2; d3] |} ->
  let items := fst (result (loadAllItems debugMode) os past) in
  snd (result (loadAllItems debugMode) os past) = None
  /\ items =
     [ sectionItem (str "CURRENT TUNNEL");
       activeItem tunnel;
       sectionItem [];
       sectionItem (str "AVAILABLE TUNNELS");
       configItem debugMode d1;
       configItem debugMode d2;
       configItem debugMode d3;
       sectionItem [];
       addNewItem ]
  /\ map entryOf items =
     [ SectionHeader (str "CURRENT TUNNEL");
       ActiveSessionRow (PID tunnel, Destination tunnel);
       Separator;
       SectionHeader (str "AVAILABLE TUNNELS");
       AvailableTunnelRow (Name d1) (buildCommand debugMode d1);
       AvailableTunnelRow (Name d2) (buildCommand debugMode d2);
       AvailableTunnelRow (Name d3) (buildCommand debugMode d3);
       Separator;
       ActionRowAddNew ]
  /\ map isSelectableItem items =
     [false; true; false; false; true; true; true; false; true].
Proof.
  intros Hscan Hcfg. cbv zeta.
  rewrite loadAllItems_result,
    (loadConfigTunnels_loaded debugMode os past _ Hcfg), Hscan.
  cbn [fst snd]. repeat split.
Qed.

(** The catalog of [oneTunnelTable] and the three entries of the README
    has nine entries, the second for the process 4242. *)
Lemma catalog_one_session_three_definitions_witness :
  map entryOf
    (fst (result (loadAllItems false)
            (osWith (inl oneTunnelTable) [] readmeConfig) [])) =
  [ SectionHeader (str "CURRENT TUNNEL");
    ActiveSessionRow (4242%Z, str "ubuntu@dev.example.com");
    Separator;
    SectionHeader (str "AVAILABLE TUNNELS");
    AvailableTunnelRow (str "Development Server")
      (buildCommand false Examples.devServer);
    AvailableTunnelRow (str "Corporate VPN")
      (buildCommand false Examples.corporateVpn);
    AvailableTunnelRow (str "AWS VPC") (buildCommand false Examples.awsVpc);
    Separator;
    ActionRowAddNew ].
Proof.
  refine (proj1 (proj2 (proj2
    (catalog_one_session_three_definitions false
       (osWith (inl oneTunnelTable) [] readmeConfig) []
       (tunnelOf (str "root 4242 0.0 sshuttle -r ubuntu@dev.example.com 10.0.0.0/8 --daemon") 4242)
       Examples.devServer Examples.corporateVpn Examples.awsVpc _ _)))).
  - vm_compute. reflexivity.
  - reflexivity.
Defined.

Lemma loadConfigTunnels_same_config debugMode os os' past past' :
  configYaml os' = configYaml os ->
  result (loadConfigTunnels debugMode) os' past' =
  result (loadConfigTunnels debugMode) os past.
Proof. intros H. unfold result, loadConfigTunnels. now rewrite H. Qed.

(** C5: whatever the scan returns, the catalog has at most one row of a
    running tunnel; when the scan returns sessions and the catalog is
    built, that row is the row of the first session and the catalog is
    the one of that session alone; when the scan returns none there is no
    such row. *)
Theorem at_most_one_active_row debugMode os past :
  let items := fst (result (loadAllItems debugMode) os past) in
  (length (filter isActiveRow items) <= 1)%nat
  /\ (forall tunnel rest,
        fst (result getActiveTunnels os past) = tunnel :: rest ->
        snd (result (loadAllItems debugMode) os past) = None ->
        filter isActiveRow items = [activeItem tunnel]
        /\ items = catalogOf [tunnel]
                     (fst (result (loadConfigTunnels debugMode) os past)))
  /\ (fst (result getActiveTunnels os past) = [] ->
      filter isActiveRow items = []).
Proof.
  cbv zeta. rewrite loadAllItems_result.
  pose proof (loadConfigTunnels_no_active debugMode os past) as Hno.
  destruct (snd (result (loadConfigTunnels debugMode) os past)) as [e|];
    cbn [fst snd].
  - split; [simpl; lia|]. split; [discriminate|reflexivity].
  - rewrite (filter_active_catalogOf _ _ Hno).
    split; [|split].
    + destruct (fst (result getActiveTunnels os past)); simpl; lia.
    + intros tunnel rest -> _. split; reflexivity.
    + intros ->. reflexivity.
Qed.

(** With the two tunnels of [twoTunnelsTable] running, the only row of a
    running tunnel is the one of the process 4242, the first of the
    table. *)
Lemma at_most_one_active_row_witness :
  map entryOf
    (filter isActiveRow
       (fst (result (loadAllItems false)
               (osWith (inl twoTunnelsTable) [] readmeConfig) []))) =
  [ActiveSessionRow (4242%Z, str "ubuntu@dev.example.com")].
Proof.
  destruct (at_most_one_active_row false
              (osWith (inl twoTunnelsTable) [] readmeConfig) [])
    as (_ & Hfirst & _).
  destruct (Hfirst
    (tunnelOf (str "root 4242 0.0 sshuttle -r ubuntu@dev.example.com 10.0.0.0/8 --daemon") 4242)
    [tunnelOf (str "root 4250 0.0 sshuttle -r employee@vpn.company.com 10.0.0.0/8 --daemon") 4250])
    as [Hrow _].
  - vm_compute. reflexivity.
  - reflexivity.
  - rewrite Hrow. vm_compute. reflexivity.
Defined.

(** C8: when [ps aux] fails, the error is logged and the catalog is built
    as it is for a scan without sessions: it has no section of the
    running tunnel, and it fails only if the configuration cannot be
    loaded, with the error of the configuration. *)
Theorem scan_error_is_no_session debugMode os past err :
  run os past (str "ps") [str "aux"] = inr err ->
  trace (loadAllItems debugMode) os past =
    [EvRun (str "ps") [str "aux"];
     EvLog (str "Error getting active tunnels: " ++ err)]
  /\ (forall os' past',
        configYaml os' = configYaml os ->
        result getActiveTunnels os' past' = ([], None) ->
        result (loadAllItems debugMode) os' past' =
        result (loadAllItems debugMode) os past)
  /\ (forall config,
        configYaml os = ConfigLoaded config ->
        result (loadAllItems debugMode) os past =
        (sectionItem (str "AVAILABLE TUNNELS")
         :: map (configItem debugMode) (Tunnels config)
         ++ [sectionItem []; addNewItem], None))
  /\ (configYaml os = ConfigMissing ->
      result (loadAllItems debugMode) os past =
      ([sectionItem (str "AVAILABLE TUNNELS"); exampleServer;
        sectionItem []; addNewItem], None)).
Proof.
  intros Hps.
  pose proof (ProcessScanner.getActiveTunnels_error os past err Hps) as Hg.
  assert (Hr : result getActiveTunnels os past = ([], Some err))
    by (unfold result; now rewrite Hg).
  split; [|split; [|split]].
  - rewrite loadAllItems_trace, Hr. unfold trace. now rewrite Hg.
  - intros os' past' Hcfg Hscan. rewrite !loadAllItems_result.
    now rewrite
      (loadConfigTunnels_same_config debugMode os os' past past' Hcfg),
      Hscan, Hr.
  - intros config Hcfg. rewrite loadAllItems_result.
    now rewrite (loadConfigTunnels_loaded debugMode os past config Hcfg), Hr.
  - intros Hcfg. rewrite loadAllItems_result, Hr.
    unfold result, loadConfigTunnels. now rewrite Hcfg.
Qed.

(** A failing [ps aux] and the three entries of the README: the catalog
    is the one of an idle table. *)
Lemma scan_error_is_no_session_witness :
  result (loadAllItems false) (osWith (inl idleTable) [] readmeConfig) [] =
  result (loadAllItems false)
    (osWith (inr (str "exit status 1")) [] readmeConfig) []
  /\ map entryOf
       (fst (result (loadAllItems false)
               (osWith (inr (str "exit status 1")) [] readmeConfig) [])) =
     [ SectionHeader (str "AVAILABLE TUNNELS");
       AvailableTunnelRow (str "Development Server")
         (buildCommand false Examples.devServer);
       AvailableTunnelRow (str "Corporate VPN")
         (buildCommand false Examples.corporateVpn);
       AvailableTunnelRow (str "AWS VPC")
         (buildCommand false Examples.awsVpc);
       Separator;
       ActionRowAddNew ].
Proof.
  destruct (scan_error_is_no_session false
              (osWith (inr (str "exit status 1")) [] readmeConfig) []
              (str "exit status 1") eq_refl) as (_ & Hsame & Hloaded & _).
  split.
  - apply Hsame; [reflexivity|]. vm_compute. reflexivity.
  - rewrite (Hloaded _ eq_refl). reflexivity.
Defined.

End SessionCatalog.

(* ===================================================================== *)
(** * SelectionController: properties *)
(* ===================================================================== *)

Module SelectionController.
Local Open Scope Z_scope.

Section Navigation.

Variable items : list item.
Variable l : listModel.

Lemma selectableAt_nat (i : nat) :
  selectableAt items (Z.of_nat i) =
  match nth_error items i with
  | Some it => isSelectableItem it
  | None => false
  end.
Proof.
  unfold selectableAt.
  destruct (Z.ltb_spec (Z.of_nat i) 0) as [H|_]; [lia|].
  now rewrite Nat2Z.id.
Qed.

Lemma selectableAt_outside k :
  Z.of_nat (length items) <= k -> selectableAt items k = false.
Proof.
  intros H. unfold selectableAt. destruct (k <? 0); [reflexivity|].
  assert (Hn : nth_error items (Z.to_nat k) = None)
    by (apply nth_error_None; lia).
  now rewrite Hn.
Qed.

(** The loop of [up] stops at the nearest selectable entry below
    [n], or runs down to the first entry without finding one. *)
Lemma upLoop_spec : forall n : nat,
  (n <= length items)%nat ->
  (exists j : nat,
      (j < n)%nat
      /\ selectableAt items (Z.of_nat j) = true
      /\ (forall k, Z.of_nat j < k < Z.of_nat n -> selectableAt items k = false)
      /\ upLoop items n l = Done (Select l (Z.of_nat j)))
  \/ ((forall k, 0 <= k < Z.of_nat n -> selectableAt items k = false)
      /\ upLoop items n l = Done l).
Proof.
  induction n as [|i IH]; intros Hn.
  - right. split; [intros k Hk; lia|reflexivity].
  - cbn [upLoop].
    destruct (nth_error items i) as [it|] eqn:E.
    2:{ apply nth_error_None in E. lia. }
    pose proof (selectableAt_nat i) as Hi. rewrite E in Hi.
    destruct (isSelectableItem it) eqn:Es.
    + left. exists i.
      split; [lia|]. split; [assumption|].
      split; [intros k Hk; lia|reflexivity].
    + destruct IH as [(j & Hj & Hs & Hbetween & Hr)|(Hnone & Hr)]; [lia| |].
      * left. exists j.
        split; [lia|]. split; [assumption|]. split; [|assumption].
        intros k Hk. destruct (Z.eq_dec k (Z.of_nat i)) as [->|Hne];
          [assumption|apply Hbetween; lia].
      * right. split; [|assumption].
        intros k Hk. destruct (Z.eq_dec k (Z.of_nat i)) as [->|Hne];
          [assumption|apply Hnone; lia].
Qed.

(** The loop of [down] stops at the nearest selectable entry from [i]
    on, or runs to the end of the items without finding one; the fuel
    given by [moveDown] is enough for it. *)
Lemma downLoop_spec : forall (fuel : nat) (i : Z),
  0 <= i ->
  Z.of_nat (length items) - i < Z.of_nat fuel ->
  (exists j,
      i <= j
      /\ selectableAt items j = true
      /\ (forall k, i <= k < j -> selectableAt items k = false)
      /\ downLoop items fuel i l = Done (Select l j))
  \/ ((forall k, i <= k -> selectableAt items k = false)
      /\ downLoop items fuel i l = Done l).
Proof.
  induction fuel as [|fuel IH]; intros i Hi Hfuel.
  - right. split; [|reflexivity].
    intros k Hk. apply selectableAt_outside. lia.
  - cbn [downLoop].
    destruct (Z.ltb_spec i (Z.of_nat (length items))) as [Hlt|Hge].
    + destruct (Z.ltb_spec i 0) as [?|_]; [lia|].
      destruct (nth_error items (Z.to_nat i)) as [it|] eqn:E.
      2:{ apply nth_error_None in E. lia. }
      assert (Hsel : selectableAt items i = isSelectableItem it).
      { unfold selectableAt. destruct (Z.ltb_spec i 0); [lia|]. now rewrite E. }
      destruct (isSelectableItem it) eqn:Es.
      * left. exists i.
        split; [lia|]. split; [assumption|].
        split; [intros k Hk; lia|reflexivity].
      * destruct (IH (i + 1)) as [(j & Hj & Hs & Hbetween & Hr)|(Hnone & Hr)];
          try lia.
        -- left. exists j.
           split; [lia|]. split; [assumption|]. split; [|assumption].
           intros k Hk. destruct (Z.eq_dec k i) as [->|Hne];
             [assumption|apply Hbetween; lia].
        -- right. split; [|assumption].
           intros k Hk. destruct (Z.eq_dec k i) as [->|Hne];
             [assumption|apply Hnone; lia].
    + right. split; [|reflexivity].
      intros k Hk. apply selectableAt_outside. lia.
Qed.

End Navigation.

Lemma withList_same m : withList m (list_ m) = m.
Proof. now destruct m. Qed.

Lemma selectableAt_inside items j :
  selectableAt items j = true -> 0 <= j < Z.of_nat (length items).
Proof.
  intros H. destruct (Z.ltb_spec j 0) as [Hneg|Hpos].
  - unfold selectableAt in H. destruct (Z.ltb_spec j 0); [discriminate|lia].
  - destruct (Z.ltb_spec j (Z.of_nat (length items))) as [?|Hge]; [lia|].
    now rewrite (selectableAt_outside items j Hge) in H.
Qed.



Lemma moveDown_spec m :
  cursorInRange m ->
  (exists j,
      firstSelectableAfter (Items (list_ m)) (Index (list_ m)) j
      /\ moveDown m = Done (cursorAt m j))
  \/ (noSelectableAfter (Items (list_ m)) (Index (list_ m))
      /\ moveDown m = Done m).
Proof.
  intros [Hlo Hhi]. unfold moveDown.
  destruct (downLoop_spec (Items (list_ m)) (list_ m)
              (S (length (Items (list_ m)))) (Index (list_ m) + 1))
    as [(j & Hj & Hs & Hbetween & ->)|(Hnone & ->)]; try lia.
  - left. exists j. split; [|reflexivity].
    split; [lia|]. split; [assumption|].
    intros k Hk. apply Hbetween. lia.
  - right. split; [|now rewrite withList_same].
    intros k Hk. apply Hnone. lia.
Qed.

(** The moves keep the cursor in range, so that they never index outside
    the items. *)
Lemma moveDown_in_range m :
  cursorInRange m ->
  exists m', moveDown m = Done m' /\ cursorInRange m'.
Proof.
  intros Hrange.
  destruct (moveDown_spec m Hrange) as [(j & (_ & Hsel & _) & ->)|(_ & ->)].
  - eexists. split; [reflexivity|].
    apply selectableAt_inside in Hsel.
    unfold cursorInRange, cursorAt, Items, Index in *. cbn. lia.
  - now exists m.
Qed.

Lemma moveUp_spec m :
  cursorInRange m ->
  (exists j,
      lastSelectableBefore (Items (list_ m)) (Index (list_ m)) j
      /\ moveUp m = Done (cursorAt m j))
  \/ (noSelectableBefore (Items (list_ m)) (Index (list_ m))
      /\ moveUp m = Done m).
Proof.
  intros [Hlo Hhi]. unfold moveUp.
  destruct (upLoop_spec (Items (list_ m)) (list_ m)
              (Z.to_nat (Index (list_ m))))
    as [(j & Hj & Hs & Hbetween & ->)|(Hnone & ->)]; try lia.
  - left. exists (Z.of_nat j). split; [|reflexivity].
    split; [lia|]. split; [assumption|].
    intros k Hk. apply Hbetween. lia.
  - right. split; [|now rewrite withList_same].
    intros k Hk. unfold selectableAt.
    destruct (Z.ltb_spec k 0) as [?|Hk0]; [reflexivity|].
    specialize (Hnone k). unfold selectableAt in Hnone.
    destruct (Z.ltb_spec k 0) as [?|_]; [lia|]. apply Hnone. lia.
Qed.

Lemma moveUp_in_range m :
  cursorInRange m ->
  exists m', moveUp m = Done m' /\ cursorInRange m'.
Proof.
  intros Hrange.
  destruct (moveUp_spec m Hrange) as [(j & (_ & Hsel & _) & ->)|(_ & ->)].
  - eexists. split; [reflexivity|].
    apply selectableAt_inside in Hsel.
    unfold cursorInRange, cursorAt, Items, Index in *. cbn. lia.
  - now exists m.
Qed.

Lemma getActiveTunnels_trace os past :
  trace getActiveTunnels os past = [EvRun (str "ps") [str "aux"]].
Proof.
  unfold trace, getActiveTunnels, bind, execCommand.
  destruct (run os past (str "ps") [str "aux"]); reflexivity.
Qed.

Lemma failed_scan_returns_nil os past err :
  snd (result getActiveTunnels os past) = Some err ->
  fst (result getActiveTunnels os past) = [].
Proof.
  unfold result, getActiveTunnels, bind, execCommand, ret.
  destruct (run os past (str "ps") [str "aux"]); [discriminate|reflexivity].
Qed.

(** The loop of [killAllTunnels]: one request for each session, in
    order, whatever the outcome of the requests before. *)
Lemma kill_loop_run os : forall tunnels past,
  forRange tunnels
    (fun tunnel =>
       bind (killTunnel (PID tunnel))
         (fun e =>
            match e with
            | Some err =>
                logPrintf (str "Failed to kill tunnel " ++ Itoa (PID tunnel)
                           ++ str ": " ++ err)
            | None => ret tt
            end)) os past
  = (tt, killTrace os past tunnels).
Proof.
  induction tunnels as [|tunnel rest IH]; intros past; [reflexivity|].
  cbn [forRange killTrace]. unfold bind at 1.
  assert (Hbody :
    bind (killTunnel (PID tunnel))
      (fun e =>
         match e with
         | Some err =>
             logPrintf (str "Failed to kill tunnel " ++ Itoa (PID tunnel)
                        ++ str ": " ++ err)
         | None => ret tt
         end) os past = (tt, killRequest os past tunnel)).
  { unfold killTunnel, bind, execCommand, killRequest.
    destruct (run os past (str "kill") [Itoa (PID tunnel)]); reflexivity. }
  rewrite Hbody, IH. reflexivity.
Qed.

(** [killAllTunnels] scans once and asks every session found to
    terminate, in the order of the scan; a failed request is logged and
    the loop goes on.  A failed scan is returned to the caller. *)
Lemma killAllTunnels_run os past :
  killAllTunnels os past =
  (snd (result getActiveTunnels os past),
   EvRun (str "ps") [str "aux"]
   :: match snd (result getActiveTunnels os past) with
      | Some _ => []
      | None =>
          killTrace os (past ++ [EvRun (str "ps") [str "aux"]])
            (fst (result getActiveTunnels os past))
      end).
Proof.
  pose proof (getActiveTunnels_trace os past) as Ht.
  unfold killAllTunnels, result, trace in *. unfold bind at 1.
  destruct (getActiveTunnels os past) as [[tunnels err] t].
  cbn [fst snd] in *. subst t.
  destruct err as [err|]; [reflexivity|].
  unfold bind at 1. rewrite kill_loop_run. cbn [ret app].
  now rewrite app_nil_r.
Qed.

Lemma killTrace_requests os tunnel : forall tunnels past,
  In tunnel tunnels ->
  In (EvRun (str "kill") [Itoa (PID tunnel)]) (killTrace os past tunnels).
Proof.
  induction tunnels as [|t ts IH]; intros past; [intros []|].
  cbn [killTrace]. rewrite in_app_iff. intros [<-|H].
  - left. now left.
  - right. now apply IH.
Qed.

Lemma killTrace_no_launch os : forall tunnels past,
  existsb isLaunch (killTrace os past tunnels) = false.
Proof.
  induction tunnels as [|t ts IH]; intros past; [reflexivity|].
  cbn [killTrace]. rewrite existsb_app, IH. unfold killRequest.
  destruct (run os past (str "kill") [Itoa (PID t)]); reflexivity.
Qed.

(** The [enter] case on a row of an available tunnel. *)
Lemma confirm_available os past m it :
  SelectedItem (list_ m) = Some it ->
  kind it = ItemAvailableTunnel ->
  confirm m os past =
  (withChoice m (command it),
   EvRun (str "ps") [str "aux"]
   :: match snd (result getActiveTunnels os past) with
      | Some err =>
          [EvLog (str "Warning: Failed to kill existing tunnels: " ++ err)]
      | None =>
          killTrace os (past ++ [EvRun (str "ps") [str "aux"]])
            (fst (result getActiveTunnels os past))
      end).
Proof.
  intros Hsel Hkind. unfold confirm, isSelectableItem.
  rewrite Hsel, Hkind. cbn [itemType_eqb andb]. unfold bind.
  rewrite killAllTunnels_run.
  destruct (snd (result getActiveTunnels os past)) as [err|];
    cbn [logPrintf ret app]; now rewrite ?app_nil_r.
Qed.

Lemma config_rows_run_tool debugMode os past it :
  In it (fst (result (loadConfigTunnels debugMode) os past)) ->
  HasPrefix (command it) (str "sshuttle") = true.
Proof.
  unfold result, loadConfigTunnels. cbn [fst].
  destruct (configYaml os) as [e| |e|e|config]; cbn [fst].
  - intros [].
  - intros [<-|[]]. reflexivity.
  - intros [].
  - intros [].
  - intros H. apply in_map_iff in H as (tunnel & <- & _).
    cbn [command configItem].
    rewrite CommandBuilder.buildCommand_words. apply HasPrefix_self_app.
Qed.

(** The rows of available tunnels of a catalog hold a command of the
    tunnel tool. *)
Lemma catalog_rows_run_tool debugMode os past it :
  In it (fst (result (loadAllItems debugMode) os past)) ->
  kind it = ItemAvailableTunnel ->
  HasPrefix (command it) (str "sshuttle") = true.
Proof.
  rewrite SessionCatalog.loadAllItems_result.
  destruct (snd (result (loadConfigTunnels debugMode) os past));
    cbn [fst]; [intros []|].
  unfold catalogOf, activeSection. rewrite !in_app_iff.
  intros [H|[H|[H|H]]] Hk.
  - destruct (fst (result getActiveTunnels os past)); [destruct H|].
    repeat (destruct H as [<-|H]; try discriminate Hk). destruct H.
  - destruct H as [<-|[]]. discriminate Hk.
  - now apply config_rows_run_tool with debugMode os past.
  - repeat (destruct H as [<-|H]; try discriminate Hk). destruct H.
Qed.

(** The end of [main] runs such a command through the shell. *)
Lemma handleChoice_tool os past m :
  HasPrefix (choice m) (str "sshuttle") = true ->
  exists outcome : gostring + error,
    handleChoice m os past =
    (match outcome with
     | inr _ => Some 1
     | inl _ => None
     end,
     EvPrint (str "Starting tunnel..." ++ [newline])
     :: launchEvent (choice m)
     :: match outcome with
        | inr err =>
            [EvPrint (str "Error executing command: " ++ err ++ [newline])]
        | inl _ => []
        end).
Proof.
  intros H. apply HasPrefix_split in H as [r Hr].
  unfold handleChoice. cbv zeta.
  assert (E1 : gostring_eqb (choice m) [] = false) by now rewrite Hr.
  assert (E2 : gostring_eqb (choice m) (str "add_new_tunnel") = false)
    by now rewrite Hr.
  assert (E3 : HasPrefix (choice m) (str "Tunnel stopped:")
               || HasPrefix (choice m) (str "Failed to stop")
               || HasPrefix (choice m) (str "All tunnels killed")
               || HasPrefix (choice m) (str "Failed to kill") = false)
    by now rewrite Hr.
  rewrite E1, E2, E3. cbn [negb].
  unfold bind, fmtPrint, execCommand, launchEvent.
  match goal with
  | |- context [run os ?h ?n ?a] => exists (run os h n a); destruct (run os h n a)
  end; reflexivity.
Qed.

Section Session.

Variable listUpdate : listModel -> Msg -> listModel * Cmd.

Lemma Update_enter m :
  Update listUpdate m enter =
  bind (confirm m) (fun m' => ret (Done (m', Quit))).
Proof. reflexivity. Qed.

Lemma Update_down m key :
  In key [str "down"; str "j"] ->
  Update listUpdate m (KeyMsg key) =
  match moveDown m with
  | Done m' => ret (Done (m', nilCmd))
  | Panic => ret Panic
  end.
Proof. intros [<-|[<-|[]]]; reflexivity. Qed.

Lemma Update_up m key :
  In key [str "up"; str "k"] ->
  Update listUpdate m (KeyMsg key) =
  match moveUp m with
  | Done m' => ret (Done (m', nilCmd))
  | Panic => ret Panic
  end.
Proof. intros [<-|[<-|[]]]; reflexivity. Qed.


(** The entries that cannot be selected are the section headers and the
    separators. *)
Lemma not_selectable_iff it :
  isSelectableItem it = false <->
  (exists title, entryOf it = SectionHeader title) \/ entryOf it = Separator.
Proof.
  unfold isSelectableItem, entryOf.
  destruct (kind it); cbn [itemType_eqb andb].
  - split; [discriminate|intros [[t H]|H]; discriminate].
  - split; [discriminate|intros [[t H]|H]; discriminate].
  - destruct (gostring_eqb (name it) []) eqn:En.
    + rewrite orb_true_r. split; auto.
    + rewrite orb_false_r.
      destruct (Contains (name it) (str "TUNNEL")).
      * split; eauto.
      * split; [discriminate|].
        destruct (gostring_eqb (command it) (str "add_new"));
          intros [[t H]|H]; discriminate.
Qed.

Lemma confirm_not_selectable os past m :
  (SelectedItem (list_ m) = None
   \/ exists it, SelectedItem (list_ m) = Some it
                 /\ isSelectableItem it = false) ->
  confirm m os past = (m, []).
Proof.
  unfold confirm. intros [->|(it & -> & ->)]; reflexivity.
Qed.

Lemma runSession_enter os past m rest :
  runSession listUpdate m (enter :: rest) os past =
  (Done (fst (confirm m os past)), snd (confirm m os past)).
Proof.
  cbn [runSession]. rewrite Update_enter. unfold bind, ret.
  destruct (confirm m os past) as [m' t]. cbn [fst snd].
  now rewrite !app_nil_r.
Qed.

(** C7: [enter] with the cursor on an entry that cannot be selected -- a
    section header or a separator -- returns the model as it was, does
    nothing to the outside, and hands nothing to the end of [main]: with
    the empty choice of a running session nothing is printed or run.  The
    command returned is [tea.Quit]. *)
Theorem confirm_on_header_or_separator os past m it :
  SelectedItem (list_ m) = Some it ->
  isSelectableItem it = false ->
  ((exists title, entryOf it = SectionHeader title) \/ entryOf it = Separator)
  /\ Update listUpdate m enter os past = (Done (m, Quit), [])
  /\ (choice m = [] ->
      runAndHandle listUpdate m [enter] os past = (None, [])).
Proof.
  intros Hsel Hno.
  assert (Hc : confirm m os past = (m, []))
    by (apply confirm_not_selectable; right; eauto).
  split; [now apply not_selectable_iff|]. split.
  - rewrite Update_enter. unfold bind, ret. now rewrite Hc.
  - intros Hchoice. unfold runAndHandle, bind.
    rewrite runSession_enter, Hc. cbn [fst snd].
    unfold handleChoice. now rewrite Hchoice.
Qed.

(** C10: [enter] always returns [tea.Quit], whatever the items and the
    cursor, so the session ends there: the messages after the first
    [enter] that reaches [Update] are not processed. *)
Theorem enter_ends_session os past m :
  (exists m', result (Update listUpdate m enter) os past = Done (m', Quit))
  /\ (forall rest,
        runSession listUpdate m (enter :: rest) os past =
        runSession listUpdate m [enter] os past)
  /\ (forall before rest,
        runSession listUpdate m (before ++ enter :: rest) os past =
        runSession listUpdate m (before ++ [enter]) os past).
Proof.
  split; [|split].
  - exists (fst (confirm m os past)). rewrite Update_enter.
    unfold result, bind, ret. now destruct (confirm m os past).
  - intros rest. now rewrite !runSession_enter.
  - intros before rest. revert m past.
    induction before as [|msg before IH]; intros m past.
    + cbn [app]. now rewrite !runSession_enter.
    + cbn [app runSession]. unfold bind.
      destruct (Update listUpdate m msg os past) as [[[m' cmd]|] t];
        [|reflexivity].
      destruct cmd; try reflexivity; now rewrite IH.
Qed.

(** C3: [enter] on a row of an available tunnel of a catalog scans the
    process table again and asks every session it finds to terminate, one
    after the other, a failed request being logged and the loop going on;
    a failed scan is logged as a warning.  The model returned holds the
    command of the row as its choice, with [tea.Quit]; the end of [main]
    then runs that command through the shell.  In the trace of the whole,
    every termination request comes before the launch, which is the only
    one. *)
Theorem confirm_kills_before_launch debugMode os0 past0 os past m it :
  In it (fst (result (loadAllItems debugMode) os0 past0)) ->
  SelectedItem (list_ m) = Some it ->
  kind it = ItemAvailableTunnel ->
  let sessions := fst (result getActiveTunnels os past) in
  let requests := trace (Update listUpdate m enter) os past in
  result (Update listUpdate m enter) os past
    = Done (withChoice m (command it), Quit)
  /\ requests =
     EvRun (str "ps") [str "aux"]
     :: match snd (result getActiveTunnels os past) with
        | Some err =>
            [EvLog (str "Warning: Failed to kill existing tunnels: " ++ err)]
        | None =>
            killTrace os (past ++ [EvRun (str "ps") [str "aux"]]) sessions
        end
  /\ (forall tunnel,
        In tunnel sessions ->
        In (EvRun (str "kill") [Itoa (PID tunnel)]) requests)
  /\ existsb isLaunch requests = false
  /\ exists after,
       trace (runAndHandle listUpdate m [enter]) os past =
       requests
       ++ EvPrint (str "Starting tunnel..." ++ [newline])
       :: launchEvent (command it) :: after
       /\ existsb isLaunch after = false.
Proof.
  intros Hcat Hsel Hkind. cbv zeta.
  pose proof (confirm_available os past m it Hsel Hkind) as Hc.
  pose proof (catalog_rows_run_tool debugMode os0 past0 it Hcat Hkind)
    as Htool.
  assert (Hu : Update listUpdate m enter os past =
               (Done (withChoice m (command it), Quit),
                snd (confirm m os past))).
  { rewrite Update_enter. unfold bind, ret. rewrite Hc. cbn [snd].
    now rewrite app_nil_r. }
  assert (Ht : trace (Update listUpdate m enter) os past
               = snd (confirm m os past))
    by (unfold trace; now rewrite Hu).
  assert (Hr : result (Update listUpdate m enter) os past =
               Done (withChoice m (command it), Quit))
    by (unfold result; now rewrite Hu).
  rewrite Hr, Ht, Hc. cbn [snd].
  split; [reflexivity|]. split; [reflexivity|]. split; [|split].
  - intros tunnel Hin. right.
    destruct (snd (result getActiveTunnels os past)) as [err|] eqn:E.
    + rewrite (failed_scan_returns_nil os past err E) in Hin. destruct Hin.
    + now apply killTrace_requests.
  - change (existsb isLaunch (EvRun (str "ps") [str "aux"] :: ?l))
      with (existsb isLaunch l).
    destruct (snd (result getActiveTunnels os past)); [reflexivity|].
    apply killTrace_no_launch.
  - unfold runAndHandle, trace, bind.
    rewrite runSession_enter, Hc. cbn [fst snd].
    match goal with
    | |- context [handleChoice ?m' os ?h] =>
        destruct (handleChoice_tool os h m' Htool) as [outcome ->]
    end.
    cbn [choice withChoice snd].
    eexists. split; [reflexivity|].
    destruct outcome; reflexivity.
Qed.

End Session.

(** The catalog of [busyOS], the cursor on the row of the corporate VPN:
    [enter] asks the process 4242 to terminate, logs the failure of the
    request, and the command of the row is launched after that. *)
Lemma confirm_kills_before_launch_witness :
  exists after,
    trace (runAndHandle idleWidget (modelAt false busyOS 5) [enter])
      busyOS [] =
    [ EvRun (str "ps") [str "aux"];
      EvRun (str "kill") [str "4242"];
      EvLog (str "Failed to kill tunnel 4242: exit status 1");
      EvPrint (str "Starting tunnel..." ++ [newline]);
      launchEvent (buildCommand false Examples.corporateVpn) ] ++ after
    /\ existsb isLaunch after = false.
Proof.
  destruct (confirm_kills_before_launch idleWidget false busyOS [] busyOS []
              (modelAt false busyOS 5)
              (configItem false Examples.corporateVpn))
    as (_ & Hreq & _ & _ & after & Htrace & Hafter).
  - vm_compute. do 5 right. left. reflexivity.
  - vm_compute. reflexivity.
  - reflexivity.
  - exists after. split; [|exact Hafter].
    rewrite Htrace, Hreq. vm_compute. reflexivity.
Defined.


(** The catalog of [busyOS], the cursor on the header of the available
    tunnels: [enter] changes nothing and nothing is run. *)
Lemma confirm_on_header_or_separator_witness :
  Update idleWidget (modelAt false busyOS 3) enter busyOS []
    = (Done (modelAt false busyOS 3, Quit), [])
  /\ runAndHandle idleWidget (modelAt false busyOS 3) [enter] busyOS []
     = (None, []).
Proof.
  destruct (confirm_on_header_or_separator idleWidget busyOS []
              (modelAt false busyOS 3)
              (sectionItem (str "AVAILABLE TUNNELS")))
    as (_ & Hupdate & Hrun).
  - vm_compute. reflexivity.
  - reflexivity.
  - split; [exact Hupdate|]. apply Hrun. reflexivity.
Defined.

(** A whole run of [main] over the catalog of [busyOS]: the cursor starts
    on the running tunnel, goes down past the separator and the header to
    the first definition, and [enter] replaces the tunnel. *)
Example main_replaces_tunnel :
  main idleWidget false [KeyMsg (str "down"); enter; KeyMsg (str "down")]
    busyOS [] =
  (None,
   [ EvRun (str "ps") [str "aux"];
     EvRun (str "ps") [str "aux"];
     EvRun (str "kill") [str "4242"];
     EvLog (str "Failed to kill tunnel 4242: exit status 1");
     EvPrint (str "Starting tunnel..." ++ [newline]);
     launchEvent (buildCommand false Examples.devServer) ]).
Proof. vm_compute. reflexivity. Qed.

End SelectionController.

(* ===================================================================== *)
(** * ProcessScanner: what the sessions carry *)
(* ===================================================================== *)

Module ScanFacts.

Lemma span_app p s : s = fst (span p s) ++ snd (span p s).
Proof.
  induction s as [|c s IH]; [reflexivity|]. cbn [span].
  destruct (p c); [|reflexivity].
  destruct (span p s) as [a b]. cbn [fst snd] in *. now rewrite IH at 1.
Qed.

Lemma span_all p s : forallb p (fst (span p s)) = true.
Proof.
  induction s as [|c s IH]; [reflexivity|]. cbn [span].
  destruct (p c) eqn:E; [|reflexivity].
  destruct (span p s) as [a b]. cbn [fst forallb] in *. now rewrite E.
Qed.

Lemma skipn_infix n (s : gostring) : infix (skipn n s) s.
Proof.
  rewrite <- (firstn_skipn n s) at 2. apply infix_suffix.
Qed.

Lemma matchTail_token s d : matchTail s = Some d -> token d s.
Proof.
  unfold matchTail. destruct (HasPrefix s (str "-r")); [|discriminate].
  pose proof (span_app isReSpace (skipn 2 s)) as Hws.
  destruct (span isReSpace (skipn 2 s)) as [ws rest]. cbn [fst snd] in Hws.
  destruct ws as [|w ws]; [discriminate|].
  pose proof (span_app (fun c => negb (isReSpace c)) rest) as Hd.
  pose proof (span_all (fun c => negb (isReSpace c)) rest) as Hall.
  destruct (fst (span (fun c => negb (isReSpace c)) rest)) as [|c dest] eqn:E;
    [discriminate|].
  intros [= <-]. split; [discriminate|]. split; [exact Hall|].
  apply infix_trans with (skipn 2 s); [|apply skipn_infix].
  rewrite Hws, Hd. exists (w :: ws), (snd (span (fun c => negb (isReSpace c)) rest)).
  reflexivity.
Qed.

Lemma matchDotStar_token s : forall d, matchDotStar s = Some d -> token d s.
Proof.
  induction s as [|c s IH]; intros d; cbn [matchDotStar].
  - apply matchTail_token.
  - destruct (Ascii.eqb c newline); [apply matchTail_token|].
    destruct (matchDotStar s) as [d'|].
    + intros [= <-]. destruct (IH d' eq_refl) as (Hne & Hall & Hin).
      repeat split; auto. now apply infix_cons.
    + apply matchTail_token.
Qed.

Lemma matchHere_token s d :
  (if HasPrefix s (str "sshuttle") then matchDotStar (skipn 8 s) else None)
  = Some d ->
  token d s.
Proof.
  destruct (HasPrefix s (str "sshuttle")); [|discriminate].
  intros E. apply matchDotStar_token in E as (Hne & Hall & Hin).
  repeat split; auto.
  eapply infix_trans; [exact Hin|apply skipn_infix].
Qed.

Lemma FindDestination_token s : forall d,
  FindDestination s = Some d -> token d s.
Proof.
  induction s as [|c s IH]; intros d; cbn [FindDestination].
  - pose proof (matchHere_token [] d) as Hhere.
    destruct (if HasPrefix [] (str "sshuttle")
              then matchDotStar (skipn 8 []) else None) as [d'|];
      [|discriminate].
    intros [= <-]. now apply Hhere.
  - pose proof (matchHere_token (c :: s)) as Hhere.
    destruct (if HasPrefix (c :: s) (str "sshuttle")
              then matchDotStar (skipn 8 (c :: s)) else None) as [d'|].
    + intros [= <-]. now apply Hhere.
    + intros H. destruct (IH d H) as (Hne & Hall & Hin).
      repeat split; auto. now apply infix_cons.
Qed.

(** Every session comes from a line of the table. *)
Lemma In_sessions os past t :
  In t (fst (result getActiveTunnels os past)) ->
  exists line pid,
    matchesTool line = true /\ pidOfLine line = Some pid
    /\ t = tunnelOf line pid.
Proof.
  unfold result, getActiveTunnels, bind, execCommand, ret.
  destruct (run os past (str "ps") [str "aux"]) as [output|err];
    cbn [fst]; [|intros []].
  rewrite ProcessScanner.fold_scanLine. cbn [app]. intros H.
  apply in_flat_map in H as (line & _ & H).
  apply ProcessScanner.In_tunnelsOfLine in H as (Hm & pid & Hp & ->).
  now exists line, pid.
Qed.

(** X1: The destination of a session is never empty: it is the word
    [unknown], or a piece of the command line of the process, one or more
    bytes long and without a blank of the class [\s]. *)
Theorem destination_is_a_token os past t :
  In t (fst (result getActiveTunnels os past)) ->
  Destination t <> []
  /\ (Destination t = str "unknown" \/ token (Destination t) (Command t)).
Proof.
  intros H. apply In_sessions in H as (line & pid & _ & _ & ->).
  cbn [Destination Command tunnelOf]. unfold destinationOfLine.
  destruct (FindDestination line) as [d|] eqn:E.
  - apply FindDestination_token in E. split; [apply E|now right].
  - split; [discriminate|now left].
Qed.

(** The first tunnel of [mixedTable]. *)
Lemma destination_is_a_token_witness :
  Destination
    (tunnelOf (str "root 4242 0.0 /usr/bin/python3 /usr/bin/sshuttle -r ubuntu@dev.example.com 10.0.0.0/8 --daemon") 4242)
  <> [].
Proof.
  refine (proj1 (destination_is_a_token
                   (osWith (inl mixedTable) [] ConfigMissing) [] _ _)).
  vm_compute. left. reflexivity.
Defined.

Local Open Scope Z_scope.

Ltac digit_step :=
  match goal with
  | |- context [digitVal ?c] =>
      let v := eval vm_compute in (digitVal c) in
      replace (digitVal c) with v by (vm_compute; reflexivity)
  end.

(** The digits of a decimal number, as [Itoa] writes them. *)
Lemma parseDigits_acc d : forall acc : positive,
  parseDigits (Z.pos acc) (str (NilEmpty.string_of_uint d))
  = Some (Z.pos (Pos.of_uint_acc d acc)).
Proof.
  induction d; intros acc; cbn [NilEmpty.string_of_uint Pos.of_uint_acc];
    [reflexivity|..];
    change (str (String ?c ?r)) with (c :: str r);
    cbn [parseDigits]; digit_step;
    match goal with
    | |- parseDigits ?z _ = Some (Z.pos (Pos.of_uint_acc _ ?q)) =>
        replace z with (Z.pos q) by lia
    end; apply IHd.
Qed.

Lemma parseDigits_uint d :
  parseDigits 0 (str (NilEmpty.string_of_uint d))
  = Some (Z.of_N (Pos.of_uint d)).
Proof.
  induction d; cbn [NilEmpty.string_of_uint Pos.of_uint];
    [reflexivity|..];
    change (str (String ?c ?r)) with (c :: str r);
    cbn [parseDigits]; digit_step; cbn [Z.mul Z.add];
    try exact IHd; apply parseDigits_acc.
Qed.

Lemma Itoa_pos p : Itoa (Z.pos p) = str (NilEmpty.string_of_uint (Pos.to_uint p)).
Proof.
  unfold Itoa. cbn [Z.to_int NilZero.string_of_int].
  pose proof (DecimalPos.Unsigned.to_uint_nonnil p) as H.
  now destruct (Pos.to_uint p).
Qed.

Lemma digits_head d :
  d <> Decimal.Nil ->
  exists c r, str (NilEmpty.string_of_uint d) = c :: r
              /\ Ascii.eqb c "-" = false /\ Ascii.eqb c "+" = false.
Proof.
  destruct d; [easy|..]; intros _;
    cbn [NilEmpty.string_of_uint];
    change (str (String ?c ?r)) with (c :: str r);
    eexists; eexists; repeat split.
Qed.

(** [Atoi] reads back what [Itoa] writes, for every [int]. *)
Lemma Atoi_Itoa n : minInt <= n <= maxInt -> Atoi (Itoa n) = Some n.
Proof.
  intros Hn.
  assert (Hrange : (minInt <=? n) && (n <=? maxInt) = true).
  { apply andb_true_iff. split; now apply Z.leb_le. }
  destruct n as [|p|p].
  - reflexivity.
  - rewrite Itoa_pos.
    destruct (digits_head (Pos.to_uint p)
                (DecimalPos.Unsigned.to_uint_nonnil p))
      as (c & r & E & Hm & Hp).
    pose proof (parseDigits_uint (Pos.to_uint p)) as Hd.
    rewrite DecimalPos.Unsigned.of_to in Hd. rewrite E in *.
    unfold Atoi. rewrite Hm, Hp, Hd. cbn [Z.of_N]. now rewrite Hrange.
  - assert (E : Itoa (Z.neg p)
                = "-"%char :: str (NilEmpty.string_of_uint (Pos.to_uint p))).
    { unfold Itoa. cbn [Z.to_int NilZero.string_of_int].
      pose proof (DecimalPos.Unsigned.to_uint_nonnil p) as H.
      now destruct (Pos.to_uint p). }
    rewrite E.
    destruct (digits_head (Pos.to_uint p)
                (DecimalPos.Unsigned.to_uint_nonnil p))
      as (c & r & E' & _ & _).
    pose proof (parseDigits_uint (Pos.to_uint p)) as Hd.
    rewrite DecimalPos.Unsigned.of_to in Hd. rewrite E' in *.
    unfold Atoi. cbn [Ascii.eqb Bool.eqb]. rewrite Hd. cbn [Z.of_N Z.opp].
    now rewrite Hrange.
Qed.

Lemma Atoi_range s n : Atoi s = Some n -> minInt <= n <= maxInt.
Proof.
  unfold Atoi.
  destruct (match s with
            | [] => (false, [])
            | c :: r =>
                if Ascii.eqb c "-" then (true, r)
                else if Ascii.eqb c "+" then (false, r) else (false, s)
            end) as [neg digits].
  destruct digits; [discriminate|].
  destruct (parseDigits 0 (a :: digits)) as [v|]; [|discriminate].
  destruct ((minInt <=? (if neg then - v else v))
            && ((if neg then - v else v) <=? maxInt)) eqn:E; [|discriminate].
  intros [= <-]. apply andb_true_iff in E as [H1 H2].
  apply Z.leb_le in H1, H2. lia.
Qed.

(** X2: The request to terminate a session of the scan names its process:
    the argument given to [kill] reads back, as [strconv.Atoi] reads the
    table, as the process id of the session, which fits an [int]. *)
Theorem kill_names_the_scanned_process os past os' past' t :
  In t (fst (result getActiveTunnels os past)) ->
  minInt <= PID t <= maxInt
  /\ exists arg,
       trace (killTunnel (PID t)) os' past' = [EvRun (str "kill") [arg]]
       /\ Atoi arg = Some (PID t).
Proof.
  intros H. apply In_sessions in H as (line & pid & _ & Hp & ->).
  cbn [PID tunnelOf].
  assert (Hr : minInt <= pid <= maxInt).
  { unfold pidOfLine in Hp. destruct (nth_error (Fields line) 1);
      [|discriminate]. now apply Atoi_range in Hp. }
  split; [exact Hr|]. exists (Itoa pid). split; [|now apply Atoi_Itoa].
  unfold trace, killTunnel, bind, execCommand.
  destruct (run os' past' (str "kill") [Itoa pid]); reflexivity.
Qed.

(** The second tunnel of [mixedTable] and its request. *)
Lemma kill_names_the_scanned_process_witness :
  exists arg,
    trace (killTunnel 977) busyOS [] = [EvRun (str "kill") [arg]]
    /\ Atoi arg = Some 977.
Proof.
  refine (proj2 (kill_names_the_scanned_process
                   (osWith (inl mixedTable) [] ConfigMissing) [] busyOS []
                   (tunnelOf (str "alice 977 0.1 sshuttle -v -r ec2-user@bastion.example.com 172.16.0.0/12") 977)
                   _)).
  vm_compute. right. left. reflexivity.
Defined.

End ScanFacts.

(* ===================================================================== *)
(** * The add command: properties *)
(* ===================================================================== *)

Module AddCommand.

Lemma gostring_eqb_nil s : gostring_eqb s [] = false <-> s <> [].
Proof. destruct s; simpl; split; congruence. Qed.

Lemma classic_valid env name host user subnets :
  validArguments env name host user subnets
  \/ ~ validArguments env name host user subnets.
Proof.
  unfold validArguments.
  destruct name, host, user, subnets;
    try (right; intros (H1 & H2 & H3 & H4 & _); congruence).
  destruct (validateSubnets env (a2 :: subnets)) eqn:E.
  - right. intros (_ & _ & _ & _ & H). discriminate H.
  - left. repeat split; discriminate.
Qed.

Lemma writes_app t1 t2 : writes (t1 ++ t2) = writes t1 ++ writes t2.
Proof. unfold writes. apply flat_map_app. Qed.

Lemma In_writes c t : In (EvWriteFile c) t <-> In c (writes t).
Proof.
  unfold writes. rewrite in_flat_map. split.
  - intros H. exists (EvWriteFile c). split; [assumption|now left].
  - intros (e & He & Hc).
    destruct e as [e| | | |c']; cbn in Hc; try contradiction.
    destruct Hc as [<-|[]]. assumption.
Qed.

Section Arguments.

Variable env : AddEnv.
Variable past : list event.
Variables name host user subnets extraArgs : gostring.

Let r := handleAddCommand env past name host user subnets extraArgs.
Let tunnel := newTunnel name host user subnets extraArgs.

(** Arguments that fail a check end the command at once. *)
Lemma invalid_arguments_end :
  ~ validArguments env name host user subnets ->
  fst r <> None /\ snd r = [].
Proof.
  intros Hinv. subst r. unfold handleAddCommand.
  destruct (gostring_eqb name []) eqn:En; [split; [discriminate|reflexivity]|].
  destruct (gostring_eqb host []) eqn:Eh; [split; [discriminate|reflexivity]|].
  destruct (gostring_eqb user []) eqn:Eu; [split; [discriminate|reflexivity]|].
  destruct (gostring_eqb subnets []) eqn:Es;
    [split; [discriminate|reflexivity]|].
  destruct (validateSubnets env subnets) eqn:Ev;
    [split; [discriminate|reflexivity]|].
  exfalso. apply Hinv. apply gostring_eqb_nil in En, Eh, Eu, Es.
  now repeat split.
Qed.

(** With valid arguments the command makes the test connection, asks
    when it fails, and goes on to the configuration unless the answer is
    not a yes. *)
Lemma valid_arguments_run :
  validArguments env name host user subnets ->
  r =
  match sshOutcome env past user host extraArgs with
  | Some err =>
      if accepts (Scanln env) then
        (fst (addToConfig env name host user subnets extraArgs),
         sshTest user host extraArgs :: promptEvents err
         ++ snd (addToConfig env name host user subnets extraArgs))
      else
        (Some (str "operation cancelled"),
         sshTest user host extraArgs :: promptEvents err)
  | None =>
      (fst (addToConfig env name host user subnets extraArgs),
       sshTest user host extraArgs
       :: snd (addToConfig env name host user subnets extraArgs))
  end.
Proof.
  intros (Hn & Hh & Hu & Hs & Hv). subst r. unfold handleAddCommand.
  apply gostring_eqb_nil in Hn, Hh, Hu, Hs. rewrite Hn, Hh, Hu, Hs, Hv.
  unfold sshOutcome, validateSSHConnection, accepts, sshTest, promptEvents.
  cbn [fst snd].
  destruct (run (addOS env) past (str "ssh") (sshTestArgs user host extraArgs))
    as [out|err].
  - destruct (addToConfig env name host user subnets extraArgs).
    reflexivity.
  - rewrite <- negb_orb.
    destruct (gostring_eqb (ToLower (Scanln env)) (str "y")
              || gostring_eqb (ToLower (Scanln env)) (str "yes"));
      cbn [negb]; [|reflexivity].
    destruct (addToConfig env name host user subnets extraArgs).
    reflexivity.
Qed.

(** What the part on the configuration writes, and when it succeeds. *)
Lemma addToConfig_writes :
  let a := addToConfig env name host user subnets extraArgs in
  let old := fst (fst (loadOrCreateConfig env)) in
  let new := {| Tunnels := Tunnels old ++ [tunnel] |} in
  (writes (snd a) = [] \/ writes (snd a) = [new])
  /\ (writes (snd a) = [new] ->
      snd (fst (loadOrCreateConfig env)) = None
      /\ existsb (fun t => gostring_eqb (Name t) name) (Tunnels old) = false)
  /\ (fst a = None <-> writes (snd a) = [new] /\ saving env new = Saved).
Proof.
  cbv zeta. unfold addToConfig.
  assert (Hload : writes (snd (loadOrCreateConfig env)) = []).
  { unfold loadOrCreateConfig.
    destruct (configYaml (addOS env)), (MkdirAll env); reflexivity. }
  destruct (loadOrCreateConfig env) as [[old lerr] t1]. cbn [fst snd] in *.
  destruct lerr as [lerr|]; cbn [fst snd].
  { rewrite Hload. split; [now left|]. split; [discriminate|].
    split; [discriminate|intros [H _]; discriminate]. }
  destruct (existsb (fun t => gostring_eqb (Name t) name) (Tunnels old))
    eqn:Etaken; cbn [fst snd].
  { rewrite Hload. split; [now left|]. split; [discriminate|].
    split; [discriminate|intros [H _]; discriminate]. }
  unfold saveConfig. fold tunnel.
  destruct (saving env {| Tunnels := Tunnels old ++ [tunnel] |}) eqn:Esave;
    cbn [fst snd]; rewrite ?writes_app, ?Hload, ?app_nil_r; cbn [writes flat_map app].
  - split; [now left|]. split; [discriminate|].
    split; [discriminate|intros [H _]; discriminate].
  - split; [now left|]. split; [discriminate|].
    split; [discriminate|intros [H _]; discriminate].
  - split; [now right|]. split; [now split|].
    split; [discriminate|intros [_ H]; discriminate].
  - split; [now right|]. split; [now split|].
    split; [now split|reflexivity].
Qed.

End Arguments.

(** X5: The add command checks its arguments before it touches anything:
    with an empty name, host, user or subnet list, or a subnet list that
    does not parse, it fails without a connection, a question or a file
    access, and the error is the one of the first check that fails, in the
    order name, host, user, subnets; with arguments that pass, the first
    thing it does is the test connection. *)
Theorem checks_come_first env past name host user subnets extraArgs :
  let r := handleAddCommand env past name host user subnets extraArgs in
  (~ validArguments env name host user subnets ->
   fst r <> None /\ snd r = [])
  /\ (validArguments env name host user subnets ->
      exists rest, snd r = sshTest user host extraArgs :: rest)
  /\ (name = [] -> fst r = Some (str "tunnel name is required (use -name)"))
  /\ (name <> [] -> host = [] ->
      fst r = Some (str "SSH hostname is required (use -host)"))
  /\ (name <> [] -> host <> [] -> user = [] ->
      fst r = Some (str "SSH username is required (use -user)"))
  /\ (name <> [] -> host <> [] -> user <> [] -> subnets = [] ->
      fst r = Some (str "subnets are required (use -subnets)")).
Proof.
  cbv zeta. split; [apply invalid_arguments_end|]. split.
  - intros Hv. rewrite (valid_arguments_run _ _ _ _ _ _ _ Hv).
    destruct (sshOutcome env past user host extraArgs);
      [destruct (accepts (Scanln env))|]; eexists; reflexivity.
  - unfold handleAddCommand. repeat split.
    + intros ->. reflexivity.
    + intros Hn ->. apply gostring_eqb_nil in Hn. now rewrite Hn.
    + intros Hn Hh ->. apply gostring_eqb_nil in Hn, Hh. now rewrite Hn, Hh.
    + intros Hn Hh Hu ->. apply gostring_eqb_nil in Hn, Hh, Hu.
      now rewrite Hn, Hh, Hu.
Qed.

(** An empty host stops the command before the subnets are looked at,
    and valid arguments lead to the test connection. *)
Lemma checks_come_first_witness :
  handleAddCommand (addEnvWith readmeConfig false []) []
    (str "Staging") [] (str "deploy") (str "not a subnet") []
  = (Some (str "SSH hostname is required (use -host)"), [])
  /\ exists rest,
       snd (addStaging (addEnvWith readmeConfig false [])) =
       sshTest (str "deploy") (str "staging.example.com") (str "--dns")
       :: rest.
Proof.
  destruct (checks_come_first (addEnvWith readmeConfig false []) []
              (str "Staging") [] (str "deploy") (str "not a subnet") [])
    as (Hinv & _ & _ & Hhost & _).
  destruct (checks_come_first (addEnvWith readmeConfig false []) []
              (str "Staging") (str "staging.example.com") (str "deploy")
              (str "10.2.0.0/16, 10.3.0.0/16") (str "--dns"))
    as (_ & Hvalid & _).
  split.
  - destruct Hinv as [_ Hnone].
    + intros (_ & Hh & _). now apply Hh.
    + apply injective_projections; [|exact Hnone].
      apply Hhost; [discriminate|reflexivity].
  - apply Hvalid. repeat split; discriminate.
Defined.

Lemma validateSubnetsLoop_spec parse pieces :
  (validateSubnetsLoop parse pieces = None <->
   Forall (fun p => parse (TrimSpace p) = None) pieces)
  /\ (forall e,
        validateSubnetsLoop parse pieces = Some e ->
        exists before p after err,
          pieces = before ++ p :: after
          /\ Forall (fun q => parse (TrimSpace q) = None) before
          /\ parse (TrimSpace p) = Some err
          /\ e = str "invalid CIDR '" ++ TrimSpace p ++ str "': " ++ err).
Proof.
  induction pieces as [|p pieces [IH1 IH2]]; cbn [validateSubnetsLoop].
  - split; [split; auto|discriminate].
  - destruct (parse (TrimSpace p)) as [err|] eqn:E.
    + split.
      * split; [discriminate|]. intros H. inversion H; congruence.
      * intros e [= <-]. exists [], p, pieces, err. repeat split; auto.
    + split.
      * rewrite IH1. split; [now constructor|].
        intros H. now inversion H.
      * intros e He. destruct (IH2 e He) as (b & q & a & err & -> & Hb & Hq & ->).
        exists (p :: b), q, a, err. repeat split; auto.
Qed.

(** The last piece of a text that ends with the separator is empty. *)
Lemma Split_trailing c s : forall cur,
  In [] (SplitFrom [c] 0 cur (s ++ [c])).
Proof.
  induction s as [|x s IH]; intros cur.
  - cbn. rewrite Ascii.eqb_refl. cbn. right. now left.
  - change ((x :: s) ++ [c]) with (x :: (s ++ [c])). cbn [SplitFrom].
    destruct (HasPrefix (x :: s ++ [c]) [c]).
    + right. apply IH.
    + apply IH.
Qed.

(** X6: [validateSubnets] accepts a list exactly when every piece between
    commas parses once the white space around it is trimmed; otherwise the
    error quotes the first piece that does not parse, trimmed.  Empty
    pieces are pieces too: after a trailing comma the empty text is put to
    the parser. *)
Theorem subnets_are_checked_piecewise env subnets :
  (validateSubnets env subnets = None <->
   Forall (fun p => ParseCIDR env (TrimSpace p) = None)
          (Split subnets (str ",")))
  /\ (forall e,
        validateSubnets env subnets = Some e ->
        exists before p after err,
          Split subnets (str ",") = before ++ p :: after
          /\ Forall (fun q => ParseCIDR env (TrimSpace q) = None) before
          /\ ParseCIDR env (TrimSpace p) = Some err
          /\ e = str "invalid CIDR '" ++ TrimSpace p ++ str "': " ++ err)
  /\ (validateSubnets env (subnets ++ str ",") = None ->
      ParseCIDR env [] = None).
Proof.
  unfold validateSubnets.
  destruct (validateSubnetsLoop_spec (ParseCIDR env)
              (Split subnets (str ","))) as [H1 H2].
  split; [exact H1|]. split; [exact H2|].
  intros H.
  apply (validateSubnetsLoop_spec (ParseCIDR env)) in H.
  rewrite Forall_forall in H.
  apply (H [] (Split_trailing ","%char subnets [])).
Qed.

(** A list with a space after the comma passes, and a trailing comma is
    caught by a parser that refuses the empty text. *)
Lemma subnets_are_checked_piecewise_witness :
  validateSubnets (addEnvWith readmeConfig false [])
    (str "10.2.0.0/16, 10.3.0.0/16") = None
  /\ validateSubnets (addEnvWith readmeConfig false []) (str "10.2.0.0/16,")
     <> None.
Proof.
  destruct (subnets_are_checked_piecewise (addEnvWith readmeConfig false [])
              (str "10.2.0.0/16, 10.3.0.0/16")) as (Hall & _ & _).
  destruct (subnets_are_checked_piecewise (addEnvWith readmeConfig false [])
              (str "10.2.0.0/16")) as (_ & _ & Hcomma).
  split.
  - apply Hall. vm_compute. repeat constructor.
  - intros H. apply Hcomma in H. discriminate H.
Defined.

Lemma nameTaken_In name tunnels :
  existsb (fun t => gostring_eqb (Name t) name) tunnels = false ->
  ~ In name (map Name tunnels).
Proof.
  intros H Hin. apply in_map_iff in Hin as (t & <- & Ht).
  assert (E : existsb (fun t' => gostring_eqb (Name t') (Name t)) tunnels
              = true).
  { apply existsb_exists. exists t. split; [assumption|].
    apply gostring_eqb_refl. }
  congruence.
Qed.

Lemma writes_handleAddCommand env past name host user subnets extraArgs :
  let r := handleAddCommand env past name host user subnets extraArgs in
  let a := addToConfig env name host user subnets extraArgs in
  writes (snd r) = [] \/
  (validArguments env name host user subnets
   /\ writes (snd r) = writes (snd a) /\ fst r = fst a).
Proof.
  cbv zeta.
  destruct (gostring_eqb name []) eqn:En.
  { left. unfold handleAddCommand. now rewrite En. }
  destruct (gostring_eqb host []) eqn:Eh.
  { left. unfold handleAddCommand. now rewrite En, Eh. }
  destruct (gostring_eqb user []) eqn:Eu.
  { left. unfold handleAddCommand. now rewrite En, Eh, Eu. }
  destruct (gostring_eqb subnets []) eqn:Es.
  { left. unfold handleAddCommand. now rewrite En, Eh, Eu, Es. }
  destruct (validateSubnets env subnets) eqn:Ev.
  { left. unfold handleAddCommand. now rewrite En, Eh, Eu, Es, Ev. }
  assert (Hv : validArguments env name host user subnets).
  { apply gostring_eqb_nil in En, Eh, Eu, Es. now repeat split. }
  rewrite (valid_arguments_run _ _ _ _ _ _ _ Hv).
  destruct (sshOutcome env past user host extraArgs) as [err|].
  - destruct (accepts (Scanln env)).
    + right. split; [assumption|]. cbn [fst snd]. split; [|reflexivity].
      change (sshTest user host extraArgs :: promptEvents err ++ ?t)
        with ((sshTest user host extraArgs :: promptEvents err) ++ t).
      now rewrite writes_app.
    + left. reflexivity.
  - right. split; [assumption|]. split; reflexivity.
Qed.

(** X8: Whatever the add command writes is the configuration it loaded with
    the new tunnel appended at the end, after arguments that passed the
    checks, and under a name no tunnel of the file has: names that are
    distinct in the file stay distinct.  The file is written at most
    once. *)
Theorem written_config_extends env past name host user subnets extraArgs c :
  In (EvWriteFile c)
     (snd (handleAddCommand env past name host user subnets extraArgs)) ->
  let old := fst (fst (loadOrCreateConfig env)) in
  validArguments env name host user subnets
  /\ snd (fst (loadOrCreateConfig env)) = None
  /\ Tunnels c
     = Tunnels old ++ [newTunnel name host user subnets extraArgs]
  /\ ~ In name (namesOf old)
  /\ (NoDup (namesOf old) -> NoDup (namesOf c))
  /\ writes (snd (handleAddCommand env past name host user subnets extraArgs))
     = [c].
Proof.
  intros Hin. cbv zeta. apply In_writes in Hin.
  destruct (writes_handleAddCommand env past name host user subnets extraArgs)
    as [Hnone|(Hv & Hw & _)]; [rewrite Hnone in Hin; destruct Hin|].
  rewrite Hw in *.
  destruct (addToConfig_writes env name host user subnets extraArgs)
    as ([Hnone|Hnew] & Hfresh & _); [rewrite Hnone in Hin; destruct Hin|].
  rewrite Hnew in *. destruct Hin as [<-|[]].
  destruct (Hfresh eq_refl) as [Hload Htaken].
  apply nameTaken_In in Htaken.
  split; [exact Hv|]. split; [exact Hload|]. split; [reflexivity|].
  split; [exact Htaken|]. split; [|reflexivity].
  intros Hnd. unfold namesOf in *. cbn [Tunnels].
  rewrite map_app. cbn [map Name newTunnel].
  apply NoDup_app; [assumption|constructor; [intros []|constructor]|].
  intros x Hx [<-|[]]. contradiction.
Qed.

(** The three entries of the README and the staging tunnel. *)
Lemma written_config_extends_witness :
  namesOf {| Tunnels := [Examples.devServer; Examples.corporateVpn;
                         Examples.awsVpc; stagingTunnel] |}
  = [str "Development Server"; str "Corporate VPN"; str "AWS VPC";
     str "Staging"]
  /\ writes (snd (addStaging (addEnvWith readmeConfig false [])))
     = [ {| Tunnels := [Examples.devServer; Examples.corporateVpn;
                        Examples.awsVpc; stagingTunnel] |} ].
Proof.
  destruct (written_config_extends (addEnvWith readmeConfig false []) []
              (str "Staging") (str "staging.example.com") (str "deploy")
              (str "10.2.0.0/16, 10.3.0.0/16") (str "--dns")
              {| Tunnels := [Examples.devServer; Examples.corporateVpn;
                             Examples.awsVpc; stagingTunnel] |})
    as (_ & _ & _ & _ & _ & Hw).
  - vm_compute. do 3 right. left. reflexivity.
  - split; [reflexivity|exact Hw].
Defined.

(** X10: The exit code of the add command is 0 exactly when the
    configuration was written, with the new tunnel, and the writing
    succeeded; it is 1 in every other case. *)
Theorem exit_code_tells_the_file_was_written
  env past name host user subnets extraArgs :
  let r := handleAddCommand env past name host user subnets extraArgs in
  let new :=
    {| Tunnels := Tunnels (fst (fst (loadOrCreateConfig env)))
                  ++ [newTunnel name host user subnets extraArgs] |} in
  let code := fst (mainAdd env past name host user subnets extraArgs) in
  (code = 0%Z <-> writes (snd r) = [new] /\ saving env new = Saved)
  /\ (code = 0%Z \/ code = 1%Z).
Proof.
  cbv zeta.
  assert (Hcode :
    fst (mainAdd env past name host user subnets extraArgs) =
    match fst (handleAddCommand env past name host user subnets extraArgs)
    with Some _ => 1%Z | None => 0%Z end).
  { unfold mainAdd.
    destruct (handleAddCommand env past name host user subnets extraArgs)
      as [[e|] t]; reflexivity. }
  rewrite Hcode. split.
  2:{ destruct (fst (handleAddCommand env past name host user subnets
                       extraArgs)); auto. }
  destruct (addToConfig_writes env name host user subnets extraArgs)
    as (_ & _ & Hok).
  destruct (writes_handleAddCommand env past name host user subnets extraArgs)
    as [Hnone|(Hv & Hw & Hr)].
  - rewrite Hnone. split; [|intros [H _]; discriminate].
    destruct (fst (handleAddCommand env past name host user subnets
                     extraArgs)) eqn:E; [discriminate|]. intros _.
    exfalso.
    destruct (classic_valid env name host user subnets) as [Hv|Hinv].
    + pose proof (valid_arguments_run env past name host user subnets
                    extraArgs Hv) as Hrun.
      rewrite Hrun in E, Hnone.
      destruct (sshOutcome env past user host extraArgs) as [err|].
      * destruct (accepts (Scanln env)); [|discriminate E].
        cbn [fst snd] in *. apply Hok in E as [Hw _].
        change (sshTest user host extraArgs :: promptEvents err ++ ?t)
          with ((sshTest user host extraArgs :: promptEvents err) ++ t)
          in Hnone.
        rewrite writes_app, Hw in Hnone. discriminate Hnone.
      * cbn [fst snd] in *. apply Hok in E as [Hw _].
        change (sshTest user host extraArgs :: ?t)
          with ([sshTest user host extraArgs] ++ t) in Hnone.
        rewrite writes_app, Hw in Hnone. discriminate Hnone.
    + apply (invalid_arguments_end env past name host user subnets extraArgs)
        in Hinv as [Hne _]. congruence.
  - rewrite Hw, Hr. rewrite <- Hok.
    destruct (fst (addToConfig env name host user subnets extraArgs));
      split; congruence.
Qed.

(** The add of the staging tunnel to the entries of the README ends
    with the code 0. *)
Lemma exit_code_tells_the_file_was_written_witness :
  fst (mainAdd (addEnvWith readmeConfig false []) []
         (str "Staging") (str "staging.example.com") (str "deploy")
         (str "10.2.0.0/16, 10.3.0.0/16") (str "--dns")) = 0%Z.
Proof.
  apply (proj1 (exit_code_tells_the_file_was_written
                  (addEnvWith readmeConfig false []) []
                  (str "Staging") (str "staging.example.com") (str "deploy")
                  (str "10.2.0.0/16, 10.3.0.0/16") (str "--dns"))).
  split; vm_compute; reflexivity.
Defined.

(** Lowering a byte gives one of the letters of the answer only from the
    letter itself or its capital. *)
Lemma lower_byte_eqb (k : ascii) c :
  In k ["y"; "e"; "s"]%char ->
  Ascii.eqb (ascii_of_nat
               (if (65 <=? nat_of_ascii c)%nat && (nat_of_ascii c <=? 90)%nat
                then nat_of_ascii c + 32 else nat_of_ascii c)) k
  = Ascii.eqb c k
    || Ascii.eqb c (ascii_of_nat (nat_of_ascii k - 32)).
Proof.
  intros [<-|[<-|[<-|[]]]];
    destruct c as [[] [] [] [] [] [] [] []]; vm_compute; reflexivity.
Qed.

Lemma ToLower_cons c s :
  ToLower (c :: s) =
  ascii_of_nat (if (65 <=? nat_of_ascii c)%nat && (nat_of_ascii c <=? 90)%nat
                then nat_of_ascii c + 32 else nat_of_ascii c)
  :: ToLower s.
Proof.
  unfold ToLower. cbn [map]. f_equal.
  destruct ((65 <=? nat_of_ascii c)%nat && (nat_of_ascii c <=? 90)%nat);
    [reflexivity|]. now rewrite ascii_nat_embedding.
Qed.

(** The answers that let the command go on: [y] and [yes], in small or
    capital letters. *)
Lemma accepts_spec response :
  accepts response =
  existsb (gostring_eqb response)
    [str "y"; str "Y"; str "yes"; str "yeS"; str "yEs"; str "yES";
     str "Yes"; str "YeS"; str "YEs"; str "YES"].
Proof.
  unfold accepts.
  destruct response as [|a [|b [|c [|d r]]]].
  - reflexivity.
  - rewrite !ToLower_cons. cbn [ToLower map gostring_eqb str
      list_ascii_of_string existsb].
    rewrite (lower_byte_eqb "y" a) by (now left).
    rewrite !andb_true_r, !andb_false_r, !orb_false_r. reflexivity.
  - rewrite !ToLower_cons. cbn [ToLower map gostring_eqb str
      list_ascii_of_string existsb].
    now rewrite !andb_false_r.
  - rewrite !ToLower_cons. cbn [ToLower map gostring_eqb str
      list_ascii_of_string existsb].
    rewrite (lower_byte_eqb "y" a) by (now left).
    rewrite (lower_byte_eqb "e" b) by (right; now left).
    rewrite (lower_byte_eqb "s" c) by (right; right; now left).
    change (ascii_of_nat (nat_of_ascii "y" - 32)) with "Y"%char.
    change (ascii_of_nat (nat_of_ascii "e" - 32)) with "E"%char.
    change (ascii_of_nat (nat_of_ascii "s" - 32)) with "S"%char.
    rewrite !andb_true_r, !andb_false_r, !orb_false_r.
    destruct (Ascii.eqb a "y"), (Ascii.eqb a "Y"), (Ascii.eqb b "e"),
      (Ascii.eqb b "E"), (Ascii.eqb c "s"), (Ascii.eqb c "S"); reflexivity.
  - rewrite !ToLower_cons. cbn [ToLower map gostring_eqb str
      list_ascii_of_string existsb].
    now rewrite !andb_false_r.
Qed.

(** X7: When the test connection fails, the command warns and asks.  An
    answer other than [y] or [yes], in small or capital letters -- the
    empty answer too -- cancels: nothing is read and nothing is written.
    After a yes the command does to the configuration what it does when
    the connection works. *)
Theorem failed_connection_asks env past name host user subnets extraArgs err :
  validArguments env name host user subnets ->
  sshOutcome env past user host extraArgs = Some err ->
  let r := handleAddCommand env past name host user subnets extraArgs in
  let yes := [str "y"; str "Y"; str "yes"; str "yeS"; str "yEs"; str "yES";
              str "Yes"; str "YeS"; str "YEs"; str "YES"] in
  (~ In (Scanln env) yes ->
   r = (Some (str "operation cancelled"),
        sshTest user host extraArgs :: promptEvents err))
  /\ (In (Scanln env) yes ->
      r = (fst (addToConfig env name host user subnets extraArgs),
           sshTest user host extraArgs :: promptEvents err
           ++ snd (addToConfig env name host user subnets extraArgs))).
Proof.
  intros Hv Hssh. cbv zeta.
  rewrite (valid_arguments_run _ _ _ _ _ _ _ Hv), Hssh, accepts_spec.
  split; intros Hans.
  - destruct (existsb _ _) eqn:E; [|reflexivity].
    apply existsb_exists in E as (y & Hy & E).
    apply gostring_eqb_eq in E. subst y. contradiction.
  - assert (E : existsb (gostring_eqb (Scanln env))
                  [str "y"; str "Y"; str "yes"; str "yeS"; str "yEs";
                   str "yES"; str "Yes"; str "YeS"; str "YEs"; str "YES"]
                = true).
    { apply existsb_exists. exists (Scanln env). split; [assumption|].
      apply gostring_eqb_refl. }
    now rewrite E.
Qed.

(** Offline, the empty answer cancels the add of the staging tunnel and
    the answer [YeS] lets it through. *)
Lemma failed_connection_asks_witness :
  addStaging (addEnvWith readmeConfig true [])
  = (Some (str "operation cancelled"),
     sshTest (str "deploy") (str "staging.example.com") (str "--dns")
     :: promptEvents (str "exit status 255"))
  /\ fst (addStaging (addEnvWith readmeConfig true (str "YeS"))) = None.
Proof.
  assert (Hv : forall answer,
            validArguments (addEnvWith readmeConfig true answer)
              (str "Staging") (str "staging.example.com") (str "deploy")
              (str "10.2.0.0/16, 10.3.0.0/16")).
  { intros answer. repeat split; discriminate. }
  destruct (failed_connection_asks (addEnvWith readmeConfig true []) []
              (str "Staging") (str "staging.example.com") (str "deploy")
              (str "10.2.0.0/16, 10.3.0.0/16") (str "--dns")
              (str "exit status 255") (Hv []) eq_refl) as [Hno _].
  destruct (failed_connection_asks
              (addEnvWith readmeConfig true (str "YeS")) []
              (str "Staging") (str "staging.example.com") (str "deploy")
              (str "10.2.0.0/16, 10.3.0.0/16") (str "--dns")
              (str "exit status 255") (Hv (str "YeS")) eq_refl) as [_ Hyes].
  split.
  - apply Hno. cbn. intuition discriminate.
  - unfold addStaging. rewrite Hyes; [reflexivity|].
    cbn. do 7 right. left. reflexivity.
Defined.



Lemma nameTaken_iff name tunnels :
  existsb (fun t => gostring_eqb (Name t) name) tunnels = false <->
  ~ In name (map Name tunnels).
Proof.
  split; [apply nameTaken_In|]. intros Hfresh.
  destruct (existsb (fun t => gostring_eqb (Name t) name) tunnels) eqn:E;
    [|reflexivity].
  apply existsb_exists in E as (t & Ht & E). apply gostring_eqb_eq in E.
  exfalso. apply Hfresh. rewrite <- E. now apply in_map.
Qed.

Lemma addToConfig_written_iff env name host user subnets extraArgs :
  let a := addToConfig env name host user subnets extraArgs in
  let old := fst (fst (loadOrCreateConfig env)) in
  let new :=
    {| Tunnels := Tunnels old ++ [newTunnel name host user subnets extraArgs] |}
  in
  writes (snd a) <> [] <->
  snd (fst (loadOrCreateConfig env)) = None
  /\ ~ In name (namesOf old)
  /\ (saving env new = Saved \/ exists err, saving env new = WriteFileError err).
Proof.
  cbv zeta. unfold addToConfig, namesOf.
  assert (Hload : writes (snd (loadOrCreateConfig env)) = []).
  { unfold loadOrCreateConfig.
    destruct (configYaml (addOS env)), (MkdirAll env); reflexivity. }
  destruct (loadOrCreateConfig env) as [[old lerr] t1]. cbn [fst snd] in *.
  destruct lerr as [lerr|]; cbn [fst snd].
  { rewrite Hload. split; [congruence|intros [H _]; discriminate]. }
  destruct (existsb (fun t => gostring_eqb (Name t) name) (Tunnels old))
    eqn:Etaken; cbn [fst snd].
  { rewrite Hload. split; [congruence|]. intros (_ & Hfresh & _).
    apply nameTaken_iff in Hfresh. congruence. }
  apply nameTaken_iff in Etaken. unfold saveConfig.
  destruct (saving env
              {| Tunnels := Tunnels old
                            ++ [newTunnel name host user subnets extraArgs] |})
    eqn:Esave; cbn [fst snd];
    rewrite ?writes_app, ?Hload, ?app_nil_r; cbn [writes flat_map app].
  - split; [congruence|]. intros (_ & _ & [H|[e H]]); discriminate.
  - split; [congruence|]. intros (_ & _ & [H|[e H]]); discriminate.
  - split; [|discriminate]. intros _. split; [reflexivity|].
    split; [assumption|]. right. eexists. reflexivity.
  - split; [|discriminate]. intros _. split; [reflexivity|].
    split; [assumption|]. now left.
Qed.

(** X9: The add command hands a configuration to [os.WriteFile] exactly when
    the arguments pass the checks, the test connection works or its
    failure is answered with a yes, the configuration can be loaded, no
    tunnel of it has the name -- compared byte by byte -- and, for
    saving, the home directory is found and the configuration with the
    new tunnel can be marshalled. *)
Theorem file_is_written_exactly_when env past name host user subnets extraArgs :
  let r := handleAddCommand env past name host user subnets extraArgs in
  let old := fst (fst (loadOrCreateConfig env)) in
  let new :=
    {| Tunnels := Tunnels old ++ [newTunnel name host user subnets extraArgs] |}
  in
  writes (snd r) <> [] <->
  validArguments env name host user subnets
  /\ (sshOutcome env past user host extraArgs = None
      \/ accepts (Scanln env) = true)
  /\ snd (fst (loadOrCreateConfig env)) = None
  /\ ~ In name (namesOf old)
  /\ (saving env new = Saved \/ exists err, saving env new = WriteFileError err).
Proof.
  cbv zeta.
  pose proof (addToConfig_written_iff env name host user subnets extraArgs)
    as Ha. cbv zeta in Ha.
  destruct (classic_valid env name host user subnets) as [Hv|Hinv].
  2:{ destruct (invalid_arguments_end env past name host user subnets
                  extraArgs Hinv) as [_ ->].
      split; [intros H; now contradiction H|]. intros [Hv _]. contradiction. }
  rewrite (valid_arguments_run env past name host user subnets extraArgs Hv).
  destruct (sshOutcome env past user host extraArgs) as [err|].
  - destruct (accepts (Scanln env)); cbn [snd].
    + change (sshTest user host extraArgs :: promptEvents err ++ ?t)
        with ((sshTest user host extraArgs :: promptEvents err) ++ t).
      rewrite writes_app. cbn [writes flat_map sshTest promptEvents app].
      rewrite Ha. split.
      * intros H. split; [assumption|]. split; [now right|assumption].
      * intros (_ & _ & H). exact H.
    + cbn [writes flat_map sshTest promptEvents app].
      split; [intros H; now contradiction H|].
      intros (_ & [H|H] & _); discriminate.
  - cbn [snd].
    change (sshTest user host extraArgs :: ?t)
      with ([sshTest user host extraArgs] ++ t).
    rewrite writes_app. cbn [writes flat_map sshTest app].
    rewrite Ha. split.
    + intros H. split; [assumption|]. split; [now left|assumption].
    + intros (_ & _ & H). exact H.
Qed.

(** A name that differs from a name of the file only by the case of a
    letter is taken for a new one. *)
Lemma file_is_written_exactly_when_witness :
  writes (snd (handleAddCommand (addEnvWith readmeConfig false []) []
                 (str "corporate vpn") (str "vpn.company.com") (str "employee")
                 (str "10.0.0.0/8") [])) <> [].
Proof.
  apply (proj2 (file_is_written_exactly_when
                  (addEnvWith readmeConfig false []) []
                  (str "corporate vpn") (str "vpn.company.com")
                  (str "employee") (str "10.0.0.0/8") [])).
  split; [repeat split; discriminate|].
  split; [now left|]. split; [reflexivity|].
  split; [|now left].
  cbn. intuition discriminate.
Defined.

Lemma SplitFrom_head c s : forall cur,
  exists p rest,
    hd [] (SplitFrom [c] 0 cur s) = cur ++ p
    /\ s = p ++ rest
    /\ ~ In c p
    /\ (rest = [] \/ exists r, rest = c :: r).
Proof.
  induction s as [|x s IH]; intros cur.
  - exists [], []. cbn. rewrite app_nil_r. auto.
  - cbn [SplitFrom HasPrefix]. rewrite HasPrefix_nil.
    destruct (Ascii.eqb_spec x c) as [->|Hne]; cbn [andb].
    + exists [], (c :: s). cbn [hd]. rewrite app_nil_r.
      split; [reflexivity|]. split; [reflexivity|]. split; [intros []|].
      right. now exists s.
    + destruct (IH (cur ++ [x])) as (p & rest & Hhd & -> & Hfree & Hrest).
      exists (x :: p), rest. rewrite Hhd, <- app_assoc.
      split; [reflexivity|]. split; [reflexivity|]. split; [|assumption].
      intros [H|H]; [now apply Hne|contradiction].
Qed.

Lemma nth_0_hd (l : list gostring) : nth 0 l [] = hd [] l.
Proof. now destruct l. Qed.

(** X12: The test connection made when a tunnel is added and the command
    launched for it later read the key from the extra arguments in two
    ways.  After the first [-i ] the launch passes all that follows to
    [ssh], trimmed; the test passes its first word only, cut at the first
    space.  Without [-i ] the test names no key. *)
Theorem test_connection_key_is_first_word tunnel :
  let args := sshTestArgs (User tunnel) (Host tunnel) (ExtraArgs tunnel) in
  let target := User tunnel ++ str "@" ++ Host tunnel in
  (Contains (ExtraArgs tunnel) (str "-i ") = false ->
   args = sshTestOptions ++ [target; str "exit"])
  /\ (Contains (ExtraArgs tunnel) (str "-i ") = true ->
      exists key rest,
        args = sshTestOptions ++ [str "-i"; key; target; str "exit"]
        /\ keyPath tunnel = key ++ rest
        /\ ~ In " "%char key
        /\ (rest = [] \/ exists r, rest = " "%char :: r)).
Proof.
  cbv zeta. unfold sshTestArgs, sshTestOptions. split; intros ->.
  - reflexivity.
  - fold (keyPath tunnel). unfold Split at 1. rewrite nth_0_hd.
    destruct (SplitFrom_head " "%char (keyPath tunnel) [])
      as (p & rest & Hhd & Hkey & Hfree & Hrest).
    change (str " ") with [" "%char]. rewrite Hhd. cbn [app].
    exists p, rest. split; [reflexivity|]. auto.
Qed.

(** A key followed by another option: the test uses the path, the
    launch what follows [-i ] to the end. *)
Lemma test_connection_key_is_first_word_witness :
  exists rest,
    sshTestArgs (str "ec2-user") (str "bastion.example.com")
      (str "-i ~/.ssh/aws-key.pem --dns")
    = sshTestOptions
      ++ [str "-i"; str "~/.ssh/aws-key.pem";
          str "ec2-user@bastion.example.com"; str "exit"]
    /\ keyPath (newTunnel (str "AWS") (str "bastion.example.com")
                  (str "ec2-user") (str "172.16.0.0/12")
                  (str "-i ~/.ssh/aws-key.pem --dns"))
       = str "~/.ssh/aws-key.pem" ++ rest
    /\ rest = str " --dns".
Proof.
  destruct (test_connection_key_is_first_word
              (newTunnel (str "AWS") (str "bastion.example.com")
                 (str "ec2-user") (str "172.16.0.0/12")
                 (str "-i ~/.ssh/aws-key.pem --dns"))) as [_ Hkey].
  destruct (Hkey eq_refl) as (key & rest & Hargs & Hpath & _ & _).
  assert (Hk : key = str "~/.ssh/aws-key.pem").
  { vm_compute in Hargs. now injection Hargs as <-. }
  subst key. exists rest. split; [exact Hargs|]. split; [exact Hpath|].
  vm_compute in Hpath. now injection Hpath as <-.
Defined.

End AddCommand.

(* ===================================================================== *)
(** * SelectionController: whole sessions *)
(* ===================================================================== *)

Module SessionFacts.
Local Open Scope Z_scope.

(** The rows of the configuration are rows of available tunnels. *)
Lemma config_rows_available debugMode os past it :
  In it (fst (result (loadConfigTunnels debugMode) os past)) ->
  kind it = ItemAvailableTunnel.
Proof.
  unfold result, loadConfigTunnels. cbn [fst].
  destruct (configYaml os) as [e| |e|e|config]; cbn [fst In];
    try contradiction.
  - intros [<-|[]]. reflexivity.
  - intros H. apply in_map_iff in H as (t & <- & _). reflexivity.
Qed.

Lemma available_selectable it :
  kind it = ItemAvailableTunnel -> isSelectableItem it = true.
Proof. unfold isSelectableItem. now intros ->. Qed.

Lemma loaded_catalog debugMode os past :
  snd (result (loadAllItems debugMode) os past) = None ->
  fst (result (loadAllItems debugMode) os past)
  = catalogOf (fst (result getActiveTunnels os past))
              (fst (result (loadConfigTunnels debugMode) os past)).
Proof.
  rewrite SessionCatalog.loadAllItems_result.
  destruct (snd (result (loadConfigTunnels debugMode) os past));
    [discriminate|reflexivity].
Qed.

Lemma initialModel_items items : Items (list_ (initialModel items)) = items.
Proof.
  unfold initialModel. now destruct (firstSelectable items 0).
Qed.

(** X13: [main] starts every session with the cursor on the first entry of
    the catalog that can be selected: the row of the running tunnel when
    there is one, else the first available tunnel, else the action that
    adds a tunnel.  It is the second entry, or the third when nothing runs
    and the configuration is empty. *)
Theorem session_starts_on_first_selectable debugMode os past :
  snd (result (loadAllItems debugMode) os past) = None ->
  let items := fst (result (loadAllItems debugMode) os past) in
  let m := initialModel items in
  onSelectable m
  /\ noSelectableBefore items (Index (list_ m))
  /\ Index (list_ m) =
       match fst (result getActiveTunnels os past),
             fst (result (loadConfigTunnels debugMode) os past) with
       | [], [] => 2
       | _, _ => 1
       end.
Proof.
  intros Hok. cbv zeta. unfold onSelectable.
  rewrite initialModel_items, (loaded_catalog debugMode os past Hok).
  pose proof (config_rows_available debugMode os past) as Hrows.
  destruct (fst (result getActiveTunnels os past)) as [|t ts].
  - destruct (fst (result (loadConfigTunnels debugMode) os past))
      as [|c cs].
    + split; [reflexivity|]. split; [|reflexivity].
      intros k Hk. change (k < 2) in Hk.
      destruct (Z.ltb_spec k 0) as [Hneg|Hpos].
      * unfold selectableAt.
        destruct (Z.ltb_spec k 0) as [_|?]; [reflexivity|lia].
      * assert (Hc : k = 0 \/ k = 1) by lia.
        destruct Hc as [-> | ->]; reflexivity.
    + pose proof (available_selectable c (Hrows c (or_introl eq_refl)))
        as Hsel.
      assert (Hi : Index (list_ (initialModel (catalogOf [] (c :: cs)))) = 1).
      { unfold initialModel, catalogOf, activeSection.
        cbn [app firstSelectable].
        change (isSelectableItem (sectionItem (str "AVAILABLE TUNNELS")))
          with false. cbn iota. now rewrite Hsel. }
      rewrite Hi. split; [|split; [|reflexivity]].
      * unfold selectableAt, catalogOf, activeSection.
        cbn. exact Hsel.
      * intros k Hk.
        destruct (Z.ltb_spec k 0) as [Hneg|Hpos].
        -- unfold selectableAt.
           destruct (Z.ltb_spec k 0) as [_|?]; [reflexivity|lia].
        -- assert (k = 0) as -> by lia. reflexivity.
  - assert (Hi : forall cs,
               Index (list_ (initialModel (catalogOf (t :: ts) cs))) = 1)
      by reflexivity.
    rewrite Hi.
    assert (Hgoal : selectableAt
                      (catalogOf (t :: ts)
                         (fst (result (loadConfigTunnels debugMode)
                                 os past))) 1 = true
                    /\ noSelectableBefore
                         (catalogOf (t :: ts)
                            (fst (result (loadConfigTunnels debugMode)
                                    os past))) 1).
    { split; [reflexivity|].
      intros k Hk.
      destruct (Z.ltb_spec k 0) as [Hneg|Hpos].
      - unfold selectableAt.
        destruct (Z.ltb_spec k 0) as [_|?]; [reflexivity|lia].
      - assert (k = 0) as -> by lia. reflexivity. }
    destruct Hgoal as [H1 H2]. split; [exact H1|]. split; [exact H2|].
    destruct (fst (result (loadConfigTunnels debugMode) os past));
      reflexivity.
Qed.

(** On [busyOS] the session starts on the row of the running tunnel; on
    an idle system with an empty configuration, on the action. *)
Lemma session_starts_on_first_selectable_witness :
  Index (list_ (initialModel (fst (result (loadAllItems false) busyOS []))))
  = 1
  /\ Index (list_ (initialModel
              (fst (result (loadAllItems false)
                      (osWith (inl idleTable) []
                         (ConfigLoaded {| Tunnels := [] |})) []))))
     = 2.
Proof.
  destruct (session_starts_on_first_selectable false busyOS [] eq_refl)
    as (_ & _ & Hbusy).
  destruct (session_starts_on_first_selectable false
              (osWith (inl idleTable) [] (ConfigLoaded {| Tunnels := [] |}))
              [] eq_refl) as (_ & _ & Hidle).
  split; [exact Hbusy|exact Hidle].
Defined.

Section Browsing.

Variable listUpdate : listModel -> Msg -> listModel * Cmd.

Lemma keyIn_In keypress keys :
  keyIn keypress keys = true -> In keypress (map str keys).
Proof.
  unfold keyIn. intros H. apply existsb_exists in H as (k & Hk & E).
  apply gostring_eqb_eq in E. subst keypress. now apply in_map.
Qed.

(** One message that only browses: the items, the choice and the flag
    stay, the cursor stays in range and, when it moves, it moves to a
    selectable entry; nothing is done to the outside. *)
Lemma browse_step m msg :
  cursorInRange m ->
  isBrowsing msg = true ->
  exists m',
    (forall os past,
        Update listUpdate m msg os past = (Done (m', nilCmd), []))
    /\ Items (list_ m') = Items (list_ m)
    /\ choice m' = choice m
    /\ quitting m' = quitting m
    /\ cursorInRange m'
    /\ (onSelectable m -> onSelectable m').
Proof.
  intros Hrange Hmsg. destruct msg as [w h|key|tag]; [| |discriminate].
  - exists (withList m (SetWidth (list_ m) w)).
    split; [reflexivity|]. repeat split; try reflexivity; try apply Hrange.
    auto.
  - cbn [isBrowsing] in Hmsg. apply keyIn_In in Hmsg.
    assert (Hkey : In key [str "up"; str "k"] \/ In key [str "down"; str "j"]).
    { cbn [map In] in Hmsg. cbn [In]. tauto. }
    destruct Hkey as [Hup|Hdown].
    + destruct (SelectionController.moveUp_spec m Hrange)
        as [(j & (Hj & Hsel & _) & Hmove)|(_ & Hmove)].
      * exists (cursorAt m j). split.
        { intros os past.
          rewrite (SelectionController.Update_up listUpdate m key Hup).
          now rewrite Hmove. }
        pose proof (SelectionController.selectableAt_inside _ _ Hsel) as Hin.
        split; [reflexivity|]. split; [reflexivity|].
        split; [reflexivity|]. split.
        { unfold cursorInRange, cursorAt, Items, Index in *. cbn. lia. }
        intros _. exact Hsel.
      * exists m. split.
        { intros os past.
          rewrite (SelectionController.Update_up listUpdate m key Hup).
          now rewrite Hmove. }
        repeat split; auto; apply Hrange.
    + destruct (SelectionController.moveDown_spec m Hrange)
        as [(j & (Hj & Hsel & _) & Hmove)|(_ & Hmove)].
      * exists (cursorAt m j). split.
        { intros os past.
          rewrite (SelectionController.Update_down listUpdate m key Hdown).
          now rewrite Hmove. }
        pose proof (SelectionController.selectableAt_inside _ _ Hsel) as Hin.
        split; [reflexivity|]. split; [reflexivity|].
        split; [reflexivity|]. split.
        { unfold cursorInRange, cursorAt, Items, Index in *. cbn. lia. }
        intros _. exact Hsel.
      * exists m. split.
        { intros os past.
          rewrite (SelectionController.Update_down listUpdate m key Hdown).
          now rewrite Hmove. }
        repeat split; auto; apply Hrange.
Qed.

(** A run of messages that only browse, before the messages [rest]. *)
Lemma browse_run msgs : forall m,
  cursorInRange m ->
  forallb isBrowsing msgs = true ->
  exists m',
    (forall rest os past,
        runSession listUpdate m (msgs ++ rest) os past
        = runSession listUpdate m' rest os past)
    /\ Items (list_ m') = Items (list_ m)
    /\ choice m' = choice m
    /\ quitting m' = quitting m
    /\ cursorInRange m'
    /\ (onSelectable m -> onSelectable m').
Proof.
  induction msgs as [|msg msgs IH]; intros m Hrange Hall.
  - exists m. repeat split; auto; apply Hrange.
  - cbn [forallb] in Hall. apply andb_prop in Hall as [Hmsg Hall].
    destruct (browse_step m msg Hrange Hmsg)
      as (m1 & Hstep & Hitems & Hchoice & Hquit & Hrange1 & Hsel1).
    destruct (IH m1 Hrange1 Hall)
      as (m' & Hrun & Hitems' & Hchoice' & Hquit' & Hrange' & Hsel').
    exists m'. split.
    { intros rest os past. cbn [app runSession]. unfold bind.
      rewrite Hstep, app_nil_r. rewrite Hrun.
      now destruct (runSession listUpdate m' rest os past). }
    split; [congruence|]. split; [congruence|]. split; [congruence|].
    split; [assumption|]. auto.
Qed.

(** X14: However long the user moves up and down and resizes the window from
    a cursor in range, [Update] never indexes outside the items, nothing
    is done to the outside, the items, the choice and the flag stay as
    they were, and a cursor that was on a selectable entry is on one at
    the end. *)
Theorem browsing_keeps_cursor_on_selectable os past m msgs :
  cursorInRange m ->
  forallb isBrowsing msgs = true ->
  exists m',
    runSession listUpdate m msgs os past = (Done m', [])
    /\ Items (list_ m') = Items (list_ m)
    /\ choice m' = choice m
    /\ quitting m' = quitting m
    /\ cursorInRange m'
    /\ (onSelectable m -> onSelectable m').
Proof.
  intros Hrange Hall.
  destruct (browse_run msgs m Hrange Hall) as (m' & Hrun & Hrest).
  exists m'. split; [|exact Hrest].
  specialize (Hrun [] os past). now rewrite app_nil_r in Hrun.
Qed.


End Browsing.

(** On [busyOS]: down, down, up, a resize and [k] leave the cursor on a
    selectable row, and after [q] only the first scan was made. *)
Lemma browsing_keeps_cursor_on_selectable_witness :
  exists m',
    runSession idleWidget (modelAt false busyOS 1)
      [KeyMsg (str "down"); KeyMsg (str "j"); KeyMsg (str "up");
       WindowSizeMsg 120 40; KeyMsg (str "k")] busyOS []
    = (Done m', [])
    /\ onSelectable m'.
Proof.
  destruct (browsing_keeps_cursor_on_selectable idleWidget busyOS []
              (modelAt false busyOS 1)
              [KeyMsg (str "down"); KeyMsg (str "j"); KeyMsg (str "up");
               WindowSizeMsg 120 40; KeyMsg (str "k")])
    as (m' & Hrun & _ & _ & _ & _ & Hsel).
  - unfold cursorInRange. vm_compute. split; discriminate.
  - reflexivity.
  - exists m'. split; [exact Hrun|]. apply Hsel. reflexivity.
Defined.


Lemma cursorAt_back m j : cursorAt (cursorAt m j) (Index (list_ m)) = m.
Proof. destruct m as [[items cur w] c q]. reflexivity. Qed.

Lemma cursorAt_moved m j : cursorAt m j <> m -> j <> Index (list_ m).
Proof.
  intros Hne ->. apply Hne. destruct m as [[items cur w] c q]. reflexivity.
Qed.

Lemma cursorAt_in_range m j :
  selectableAt (Items (list_ m)) j = true -> cursorInRange (cursorAt m j).
Proof.
  intros Hsel. apply SelectionController.selectableAt_inside in Hsel.
  unfold cursorInRange, cursorAt, Items, Index in *. cbn. lia.
Qed.

(** From a selectable entry, a step down that moved the cursor is undone
    by a step up. *)
Lemma moveUp_after_moveDown m m1 :
  cursorInRange m -> onSelectable m ->
  moveDown m = Done m1 -> m1 <> m -> moveUp m1 = Done m.
Proof.
  intros Hrange Hon Hdown Hne.
  destruct (SelectionController.moveDown_spec m Hrange)
    as [(j & (Hlt & Hsel & Hbetween) & Hmove)|(_ & Hmove)];
    rewrite Hmove in Hdown; injection Hdown as <-; [|contradiction].
  destruct (SelectionController.moveUp_spec (cursorAt m j)
              (cursorAt_in_range m j Hsel))
    as [(i & (Hi & Hseli & Hbetween') & ->)|(Hnone & _)].
  - change (Items (list_ (cursorAt m j))) with (Items (list_ m)) in *.
    change (Index (list_ (cursorAt m j))) with j in *.
    assert (i = Index (list_ m)) as ->.
    { destruct (Z.lt_trichotomy i (Index (list_ m))) as [H|[H|H]];
        [|exact H|].
      - specialize (Hbetween' (Index (list_ m)) ltac:(lia)).
        unfold onSelectable in Hon. congruence.
      - specialize (Hbetween i ltac:(lia)). congruence. }
    f_equal. destruct m as [[items cur w] c q]. reflexivity.
  - change (Items (list_ (cursorAt m j))) with (Items (list_ m)) in *.
    change (Index (list_ (cursorAt m j))) with j in *.
    specialize (Hnone (Index (list_ m)) Hlt).
    unfold onSelectable in Hon. congruence.
Qed.

Lemma moveDown_after_moveUp m m1 :
  cursorInRange m -> onSelectable m ->
  moveUp m = Done m1 -> m1 <> m -> moveDown m1 = Done m.
Proof.
  intros Hrange Hon Hup Hne.
  destruct (SelectionController.moveUp_spec m Hrange)
    as [(j & (Hlt & Hsel & Hbetween) & Hmove)|(_ & Hmove)];
    rewrite Hmove in Hup; injection Hup as <-; [|contradiction].
  destruct (SelectionController.moveDown_spec (cursorAt m j)
              (cursorAt_in_range m j Hsel))
    as [(i & (Hi & Hseli & Hbetween') & ->)|(Hnone & _)].
  - change (Items (list_ (cursorAt m j))) with (Items (list_ m)) in *.
    change (Index (list_ (cursorAt m j))) with j in *.
    assert (i = Index (list_ m)) as ->.
    { destruct (Z.lt_trichotomy i (Index (list_ m))) as [H|[H|H]];
        [|exact H|].
      - specialize (Hbetween i ltac:(lia)). congruence.
      - specialize (Hbetween' (Index (list_ m)) ltac:(lia)).
        unfold onSelectable in Hon. congruence. }
    f_equal. destruct m as [[items cur w] c q]. reflexivity.
  - change (Items (list_ (cursorAt m j))) with (Items (list_ m)) in *.
    change (Index (list_ (cursorAt m j))) with j in *.
    specialize (Hnone (Index (list_ m)) ltac:(lia)).
    unfold onSelectable in Hon. congruence.
Qed.

Section Keys.

Variable listUpdate : listModel -> Msg -> listModel * Cmd.

Lemma Update_key_result m key os past (move : model -> outcome model) m1 :
  Update listUpdate m (KeyMsg key) =
    match move m with
    | Done m' => ret (Done (m', nilCmd))
    | Panic => ret Panic
    end ->
  result (Update listUpdate m (KeyMsg key)) os past = Done (m1, nilCmd) ->
  move m = Done m1.
Proof.
  intros -> H. unfold result in H.
  destruct (move m) as [m'|]; cbn in H; congruence.
Qed.

(** X15: With the cursor on a selectable entry, the two directions undo each
    other: when a step down moved the cursor, a step up brings the model
    back, and the other way round, with either key of each direction. *)
Theorem up_and_down_undo_each_other os past os' past' m m1 down up :
  cursorInRange m -> onSelectable m ->
  In down [str "down"; str "j"] -> In up [str "up"; str "k"] ->
  m1 <> m ->
  (result (Update listUpdate m (KeyMsg down)) os past = Done (m1, nilCmd) ->
   Update listUpdate m1 (KeyMsg up) os' past' = (Done (m, nilCmd), []))
  /\ (result (Update listUpdate m (KeyMsg up)) os past = Done (m1, nilCmd) ->
      Update listUpdate m1 (KeyMsg down) os' past' = (Done (m, nilCmd), [])).
Proof.
  intros Hrange Hon Hdown Hup Hne. split; intros Hstep.
  - apply (Update_key_result m down os past moveDown m1
             (SelectionController.Update_down listUpdate m down Hdown))
      in Hstep.
    rewrite (SelectionController.Update_up listUpdate m1 up Hup).
    now rewrite (moveUp_after_moveDown m m1 Hrange Hon Hstep Hne).
  - apply (Update_key_result m up os past moveUp m1
             (SelectionController.Update_up listUpdate m up Hup))
      in Hstep.
    rewrite (SelectionController.Update_down listUpdate m1 down Hdown).
    now rewrite (moveDown_after_moveUp m m1 Hrange Hon Hstep Hne).
Qed.






End Keys.

(** On [busyOS], down from the row of the running tunnel goes to the
    first available tunnel, and [k] from there comes back. *)
Lemma up_and_down_undo_each_other_witness :
  Update idleWidget (modelAt false busyOS 4) (KeyMsg (str "k")) busyOS []
  = (Done (modelAt false busyOS 1, nilCmd), []).
Proof.
  destruct (up_and_down_undo_each_other idleWidget busyOS [] busyOS []
              (modelAt false busyOS 1) (modelAt false busyOS 4)
              (str "down") (str "k")) as [Hback _].
  - unfold cursorInRange. vm_compute. split; discriminate.
  - reflexivity.
  - now left.
  - right. now left.
  - discriminate.
  - apply Hback. reflexivity.
Defined.



Section Launches.

Variable listUpdate : listModel -> Msg -> listModel * Cmd.

Lemma launches_app t1 t2 : launches (t1 ++ t2) = (launches t1 + launches t2)%nat.
Proof. unfold launches. now rewrite filter_app, length_app. Qed.

Lemma launches_none t : existsb isLaunch t = false -> launches t = 0%nat.
Proof.
  unfold launches. induction t as [|e t IH]; [reflexivity|].
  cbn [existsb filter]. destruct (isLaunch e); [discriminate|exact IH].
Qed.

Lemma launches_killAllTunnels os past : launches (snd (killAllTunnels os past)) = 0%nat.
Proof.
  rewrite SelectionController.killAllTunnels_run. cbn [snd].
  apply launches_none.
  change (existsb isLaunch (EvRun (str "ps") [str "aux"] :: ?l))
    with (existsb isLaunch l).
  destruct (snd (result getActiveTunnels os past)); [reflexivity|].
  apply SelectionController.killTrace_no_launch.
Qed.

Lemma launches_confirm m os past : launches (snd (confirm m os past)) = 0%nat.
Proof.
  unfold confirm.
  destruct (SelectedItem (list_ m)) as [it|]; [|reflexivity].
  destruct (isSelectableItem it); [|reflexivity].
  destruct (kind it).
  - unfold killTunnel, bind, execCommand.
    destruct (run os past (str "kill") [Itoa (pid it)]); reflexivity.
  - unfold bind.
    pose proof (launches_killAllTunnels os past) as Hk.
    destruct (killAllTunnels os past) as [[err|] t]; cbn [snd] in *;
      cbn [logPrintf ret fst snd]; rewrite !launches_app, Hk; reflexivity.
  - destruct (gostring_eqb (command it) (str "add_new")); reflexivity.
Qed.

Lemma launches_Update m msg os past :
  launches (snd (Update listUpdate m msg os past)) = 0%nat.
Proof.
  destruct msg as [w h|key|tag]; cbn [Update].
  - reflexivity.
  - destruct (keyIn key ["ctrl+c"; "q"]%string); [reflexivity|].
    destruct (keyIn key ["up"; "k"]%string).
    { destruct (moveUp m); reflexivity. }
    destruct (keyIn key ["down"; "j"]%string).
    { destruct (moveDown m); reflexivity. }
    destruct (keyIn key ["enter"]%string).
    + unfold bind. pose proof (launches_confirm m os past) as Hc.
      destruct (confirm m os past) as [m' t]. cbn [snd ret] in *.
      now rewrite app_nil_r.
    + unfold widgetUpdate. destruct (listUpdate (list_ m) (KeyMsg key)).
      reflexivity.
  - unfold widgetUpdate. destruct (listUpdate (list_ m) (OtherMsg tag)).
    reflexivity.
Qed.

Lemma launches_runSession msgs : forall m os past,
  launches (snd (runSession listUpdate m msgs os past)) = 0%nat.
Proof.
  induction msgs as [|msg msgs IH]; intros m os past; [reflexivity|].
  cbn [runSession]. unfold bind.
  pose proof (launches_Update m msg os past) as Hu.
  destruct (Update listUpdate m msg os past) as [[[m' cmd]|] t];
    cbn [snd] in Hu.
  - destruct cmd; cbn [ret snd];
      try (specialize (IH m' os (past ++ t));
           destruct (runSession listUpdate m' msgs os (past ++ t)) as [r t'];
           cbn [snd] in *; rewrite launches_app, Hu, IH; reflexivity).
    now rewrite app_nil_r.
  - cbn [ret snd]. now rewrite app_nil_r.
Qed.

Lemma launches_handleChoice m os past :
  (launches (snd (handleChoice m os past)) <= 1)%nat.
Proof.
  unfold handleChoice.
  destruct (negb (gostring_eqb (choice m) [])); [|cbn; lia].
  destruct (gostring_eqb (choice m) (str "add_new_tunnel")); [cbn; lia|].
  destruct (HasPrefix (choice m) (str "Tunnel stopped:")
            || HasPrefix (choice m) (str "Failed to stop")
            || HasPrefix (choice m) (str "All tunnels killed")
            || HasPrefix (choice m) (str "Failed to kill")); [cbn; lia|].
  unfold bind, fmtPrint, execCommand.
  destruct (run os _ (str "sh") [str "-c"; choice m]); cbn; lia.
Qed.

(** X19: Whatever messages arrive and whatever the list widget does with the
    ones left to it, the session itself launches nothing, and a run of
    [main] launches a command through the shell at most once. *)
Theorem main_launches_at_most_once debugMode msgs os past :
  (forall m, launches (trace (runSession listUpdate m msgs) os past) = 0%nat)
  /\ (launches (trace (main listUpdate debugMode msgs) os past) <= 1)%nat.
Proof.
  split; [intros m; apply launches_runSession|].
  unfold trace, main, bind.
  pose proof (SessionCatalog.loadAllItems_trace debugMode os past) as Hl.
  rewrite SelectionController.getActiveTunnels_trace in Hl. unfold trace in Hl.
  destruct (loadAllItems debugMode os past) as [[items err] t].
  cbn [fst snd] in *.
  assert (Ht : launches t = 0%nat).
  { rewrite Hl. destruct (snd (result getActiveTunnels os past)); reflexivity. }
  destruct err as [err|].
  - cbn [logPrintf ret fst snd]. rewrite launches_app, Ht. cbn. lia.
  - unfold runAndHandle, bind.
    pose proof (launches_runSession msgs (initialModel items) os (past ++ t))
      as Hs.
    destruct (runSession listUpdate (initialModel items) msgs os (past ++ t))
      as [[m'|] ts]; cbn [snd] in Hs.
    + pose proof (launches_handleChoice m' os ((past ++ t) ++ ts)) as Hh.
      destruct (handleChoice m' os ((past ++ t) ++ ts)) as [code th].
      cbn [snd] in *. rewrite !launches_app, Ht, Hs. lia.
    + cbn [ret snd]. rewrite !launches_app, Ht, Hs. cbn. lia.
Qed.

(** X20: When the configuration cannot be read -- no home directory, a file
    that cannot be read or parsed -- [main] scans, logs the error and
    that the configuration failed to load, and exits with the code 1: no
    session runs, whatever messages wait, and nothing is terminated or
    launched. *)
Theorem unreadable_configuration_ends_main debugMode msgs os past err :
  unreadable os err ->
  main listUpdate debugMode msgs os past
  = (Some 1,
     trace (loadAllItems debugMode) os past
     ++ [EvLog (str "Error loading items: " ++ err);
         EvLog (str "Failed to load configuration")]).
Proof.
  intros Hbad.
  assert (Hcfg : result (loadConfigTunnels debugMode) os past = ([], Some err)).
  { unfold result, loadConfigTunnels.
    destruct Hbad as [-> |[-> | ->]]; reflexivity. }
  pose proof (SessionCatalog.loadAllItems_result debugMode os past) as Hr.
  rewrite Hcfg in Hr. cbn [snd] in Hr.
  unfold main, bind, trace. unfold result in Hr.
  destruct (loadAllItems debugMode os past) as [[items e] t].
  cbn [fst snd] in *. injection Hr as -> ->. reflexivity.
Qed.

End Launches.

(** On a system whose configuration does not parse, while a tunnel
    runs. *)
Lemma unreadable_configuration_ends_main_witness :
  main idleWidget false [enter] brokenOS []
  = (Some 1,
     [EvRun (str "ps") [str "aux"];
      EvLog (str "Error loading items: yaml: line 2");
      EvLog (str "Failed to load configuration")]).
Proof.
  rewrite (unreadable_configuration_ends_main idleWidget false [enter]
             brokenOS [] (str "yaml: line 2")).
  - reflexivity.
  - right. right. reflexivity.
Defined.

End SessionFacts.

(* ===================================================================== *)
(** * Rendering: what is drawn for a row *)
(* ===================================================================== *)

Module Rendering.
Local Open Scope Z_scope.

(** What [Render] writes for an item with a name: a text and a style of
    its own, which do not depend on the list, or the text with the mark in
    the style of the selection. *)
Lemma Render_named m index i :
  name i <> [] ->
  exists content style,
    style <> selectedItemStyle
    /\ (forall m' index',
          Render m' index' i =
          if (index' =? Index m') && isSelectableItem i
          then Some (selectedItemStyle, str "> " ++ content)
          else Some (style, content))
    /\ Render m index i =
       if (index =? Index m) && isSelectableItem i
       then Some (selectedItemStyle, str "> " ++ content)
       else Some (style, content).
Proof.
  intros Hname. apply AddCommand.gostring_eqb_nil in Hname.
  destruct (kind i) eqn:Hkind;
    [| |destruct (Contains (name i) (str "CURRENT TUNNEL")) eqn:E1;
        [|destruct (Contains (name i) (str "AVAILABLE TUNNELS")) eqn:E2;
          [|destruct (Contains (name i) (str "Add New")) eqn:E3]]];
    [exists (name i), activeItemStyle
    |exists (str "  " ++ name i), availableItemStyle
    |exists (str "CURRENT TUNNEL"), sectionStyle
    |exists (str "AVAILABLE TUNNELS"), sectionStyle
    |exists (str "+ Add New Tunnel"), actionItemStyle
    |exists (name i), sectionStyle];
    (split; [discriminate|]);
    match goal with
    | |- (forall m' index', ?l m' index' = ?r m' index') /\ _ =>
        assert (H : forall m' index', l m' index' = r m' index')
    | |- (forall m' index', @?P m' index') /\ _ =>
        assert (H : forall m' index', P m' index')
    end;
    try (intros m' index'; unfold Render;
         rewrite Hname, Hkind, ?E1, ?E2, ?E3; cbn [negb];
         rewrite andb_true_r;
         destruct (index' =? Index m'), (isSelectableItem i); reflexivity);
    (split; [exact H|apply H]).
Qed.

(** X21: [Render] writes nothing exactly for an item without a name.  It
    draws the mark of the selection exactly on the row under the cursor
    when that row can be selected and has a name: a header under the
    cursor is drawn as any header.  Away from the cursor what is drawn
    does not depend on the list. *)
Theorem highlight_marks_the_selectable_row_under_the_cursor m index i :
  (Render m index i = None <-> name i = [])
  /\ (highlighted m index i <->
      index = Index m /\ isSelectableItem i = true /\ name i <> [])
  /\ (forall m' index',
        index <> Index m -> index' <> Index m' ->
        Render m index i = Render m' index' i).
Proof.
  destruct (gostring_eqb (name i) []) eqn:En.
  - apply gostring_eqb_eq in En.
    assert (Hnone : forall m' index', Render m' index' i = None).
    { intros m' index'. unfold Render. now rewrite En. }
    split; [split; auto|]. split.
    + unfold highlighted. rewrite Hnone. split.
      * intros [text H]. discriminate.
      * intros (_ & _ & H). contradiction.
    + intros m' index' _ _. now rewrite !Hnone.
  - apply AddCommand.gostring_eqb_nil in En.
    destruct (Render_named m index i En)
      as (content & style & Hstyle & Hall & Hr).
    split; [|split].
    + split; [|contradiction]. rewrite Hr.
      destruct ((index =? Index m) && isSelectableItem i); discriminate.
    + unfold highlighted. rewrite Hr. split.
      * intros [text H].
        destruct (Z.eqb_spec index (Index m)) as [->|Hne],
                 (isSelectableItem i); cbn [andb] in H;
          try (injection H as Hs _; congruence).
        auto.
      * intros (-> & -> & _). rewrite Z.eqb_refl. cbn [andb].
        eexists. reflexivity.
    + intros m' index' Hne Hne'. rewrite Hr, (Hall m' index').
      apply Z.eqb_neq in Hne, Hne'. now rewrite Hne, Hne'.
Qed.

(** The rows of the catalog of [busyOS] under a cursor on the header of
    the available tunnels and on the first tunnel. *)
Lemma highlight_marks_the_selectable_row_under_the_cursor_witness :
  ~ highlighted (list_ (modelAt false busyOS 3)) 3
      (sectionItem (str "AVAILABLE TUNNELS"))
  /\ highlighted (list_ (modelAt false busyOS 4)) 4
       (configItem false Examples.devServer).
Proof.
  destruct (highlight_marks_the_selectable_row_under_the_cursor
              (list_ (modelAt false busyOS 3)) 3
              (sectionItem (str "AVAILABLE TUNNELS"))) as (_ & Hheader & _).
  destruct (highlight_marks_the_selectable_row_under_the_cursor
              (list_ (modelAt false busyOS 4)) 4
              (configItem false Examples.devServer)) as (_ & Hrow & _).
  split.
  - intros H. apply Hheader in H as (_ & H & _). discriminate H.
  - apply Hrow. repeat split; discriminate.
Defined.

Lemma Render_row m index it :
  (kind it = ItemAction ->
   Contains (name it) (str "CURRENT TUNNEL") = false ->
   Contains (name it) (str "AVAILABLE TUNNELS") = false ->
   Contains (name it) (str "Add New") = true ->
   name it = str "+ Add New Tunnel") ->
  (kind it = ItemAction ->
   Contains (name it) (str "CURRENT TUNNEL") = true ->
   name it = str "CURRENT TUNNEL") ->
  (kind it = ItemAction ->
   Contains (name it) (str "CURRENT TUNNEL") = false ->
   Contains (name it) (str "AVAILABLE TUNNELS") = true ->
   name it = str "AVAILABLE TUNNELS") ->
  option_map snd (Render m index it) =
  if gostring_eqb (name it) [] then None
  else Some (rowText ((index =? Index m) && isSelectableItem it) it).
Proof.
  intros Hadd Hcur Havail. unfold Render, rowText.
  destruct (gostring_eqb (name it) []) eqn:En; [reflexivity|].
  cbn [negb]. rewrite andb_true_r.
  destruct (kind it) eqn:Hkind.
  - destruct ((index =? Index m)), (isSelectableItem it); reflexivity.
  - destruct ((index =? Index m)), (isSelectableItem it); reflexivity.
  - destruct (Contains (name it) (str "CURRENT TUNNEL")) eqn:E1.
    { rewrite <- (Hcur eq_refl eq_refl).
      destruct ((index =? Index m)), (isSelectableItem it); reflexivity. }
    destruct (Contains (name it) (str "AVAILABLE TUNNELS")) eqn:E2.
    { rewrite <- (Havail eq_refl eq_refl eq_refl).
      destruct ((index =? Index m)), (isSelectableItem it); reflexivity. }
    destruct (Contains (name it) (str "Add New")) eqn:E3.
    { rewrite <- (Hadd eq_refl eq_refl eq_refl eq_refl).
      destruct ((index =? Index m)), (isSelectableItem it); reflexivity. }
    destruct ((index =? Index m)), (isSelectableItem it); reflexivity.
Qed.

(** X22: Every row of a catalog is drawn with the name of its item: the
    texts [Render] substitutes for the headers and for the action are the
    names [loadAllItems] gave them.  A row with a name shows the mark when
    it is under the cursor and can be selected, two blanks when it is an
    available tunnel, and the name; a row without a name -- a separator,
    or a tunnel the configuration leaves unnamed -- is not drawn. *)
Theorem catalog_rows_show_their_names debugMode os past m index it :
  In it (fst (result (loadAllItems debugMode) os past)) ->
  option_map snd (Render m index it) =
  if gostring_eqb (name it) [] then None
  else Some (rowText ((index =? Index m) && isSelectableItem it) it).
Proof.
  intros Hin. rewrite SessionCatalog.loadAllItems_result in Hin.
  destruct (snd (result (loadConfigTunnels debugMode) os past));
    [destruct Hin|].
  cbn [fst] in Hin. unfold catalogOf in Hin.
  assert (Hfixed : forall title,
            In title [str "CURRENT TUNNEL"; str "AVAILABLE TUNNELS"; []] ->
            option_map snd (Render m index (sectionItem title)) =
            if gostring_eqb (name (sectionItem title)) [] then None
            else Some (rowText ((index =? Index m)
                                && isSelectableItem (sectionItem title))
                         (sectionItem title))).
  { intros title [<-|[<-|[<-|[]]]]; apply Render_row; intros _; cbn;
      try discriminate; reflexivity. }
  apply in_app_or in Hin as [Hin|Hin].
  - unfold activeSection in Hin.
    destruct (fst (result getActiveTunnels os past)) as [|t ts];
      [destruct Hin|].
    destruct Hin as [<-|[<-|[<-|[]]]].
    + apply Hfixed. now left.
    + apply Render_row; discriminate.
    + apply Hfixed. right. right. now left.
  - apply in_app_or in Hin as [[<-|[]]|Hin].
    { apply Hfixed. right. now left. }
    apply in_app_or in Hin as [Hin|[<-|[<-|[]]]].
    + apply SessionFacts.config_rows_available in Hin.
      apply Render_row; congruence.
    + apply Hfixed. right. right. now left.
    + apply Render_row; intros _; cbn; try discriminate; reflexivity.
Qed.

(** The row of the development server of the README under the cursor,
    and the header above it. *)
Lemma catalog_rows_show_their_names_witness :
  option_map snd (Render (list_ (modelAt false busyOS 4)) 4
                    (configItem false Examples.devServer))
  = Some (str ">   Development Server")
  /\ option_map snd (Render (list_ (modelAt false busyOS 4)) 3
                       (sectionItem (str "AVAILABLE TUNNELS")))
     = Some (str "AVAILABLE TUNNELS").
Proof.
  split.
  - rewrite (catalog_rows_show_their_names false busyOS []
               (list_ (modelAt false busyOS 4)) 4
               (configItem false Examples.devServer)).
    + reflexivity.
    + vm_compute. do 4 right. left. reflexivity.
  - rewrite (catalog_rows_show_their_names false busyOS []
               (list_ (modelAt false busyOS 4)) 3
               (sectionItem (str "AVAILABLE TUNNELS"))).
    + reflexivity.
    + vm_compute. do 3 right. left. reflexivity.
Defined.

End Rendering.

(* ===================================================================== *)
(** * From the command that is launched to the session that is found *)
(* ===================================================================== *)

Module RoundTrip.

Lemma FindDestination_eq s :
  FindDestination s =
  match (if HasPrefix s (str "sshuttle") then matchDotStar (skipn 8 s)
         else None) with
  | Some dest => Some dest
  | None =>
      match s with
      | [] => None
      | _ :: s' => FindDestination s'
      end
  end.
Proof. destruct s; reflexivity. Qed.

(** Where the flag does not occur, the rest of the expression does not
    match. *)
Lemma no_flag_no_match s :
  Contains s (str "-r") = false -> matchDotStar s = None.
Proof.
  induction s as [|c s IH]; intros H.
  - reflexivity.
  - change (Contains (c :: s) (str "-r"))
      with (HasPrefix (c :: s) (str "-r") || Contains s (str "-r")) in H.
    apply orb_false_elim in H as [Hp Hc].
    cbn [matchDotStar]. rewrite (IH Hc).
    unfold matchTail. rewrite Hp. now destruct (Ascii.eqb c newline).
Qed.

(** The greedy star runs to the last place where the flag matches. *)
Lemma matchDotStar_last u t d :
  ~ In newline u ->
  matchTail ("-"%char :: t) = Some d ->
  matchDotStar t = None ->
  matchDotStar (u ++ "-"%char :: t) = Some d.
Proof.
  intros Hu Htail Hlast. induction u as [|x u IH].
  - cbn [app matchDotStar]. rewrite Hlast.
    change (Ascii.eqb "-" newline) with false. exact Htail.
  - cbn [app matchDotStar].
    destruct (Ascii.eqb_spec x newline) as [->|_].
    + exfalso. apply Hu. now left.
    + rewrite IH; [reflexivity|]. intros H. apply Hu. now right.
Qed.

Lemma In_skipn {A} (x : A) n l : In x (skipn n l) -> In x l.
Proof.
  intros H. rewrite <- (firstn_skipn n l). apply in_or_app. now right.
Qed.

(** The expression matches from the first place where the name of the
    tool stands, and the star reaches the flag from there. *)
Lemma FindDestination_first t d mid : forall a,
  ~ In newline (a ++ str "sshuttle" ++ mid) ->
  (forall u, ~ In newline u -> matchDotStar (u ++ t) = Some d) ->
  FindDestination (a ++ str "sshuttle" ++ mid ++ t) = Some d.
Proof.
  intros a Hnl Hstar. induction a as [|x a IH].
  - rewrite FindDestination_eq. cbn [app].
    rewrite (HasPrefix_self_app (str "sshuttle") (mid ++ t)).
    change (skipn 8 (str "sshuttle" ++ mid ++ t)) with (mid ++ t).
    rewrite Hstar; [reflexivity|].
    intros H. apply Hnl. cbn [app]. apply in_or_app. now right.
  - rewrite FindDestination_eq.
    replace ((x :: a) ++ str "sshuttle" ++ mid ++ t)
      with (((x :: a) ++ str "sshuttle" ++ mid) ++ t)
      by (now rewrite <- !app_assoc).
    destruct (HasPrefix (((x :: a) ++ str "sshuttle" ++ mid) ++ t)
                (str "sshuttle")).
    + rewrite skipn_app.
      replace (8 - length ((x :: a) ++ str "sshuttle" ++ mid))%nat
        with 0%nat.
      2:{ rewrite length_app. cbn [length app].
          rewrite length_app. cbn [length str list_ascii_of_string]. lia. }
      change (skipn 0 t) with t. rewrite Hstar; [reflexivity|].
      intros H. apply Hnl. exact (In_skipn newline 8 _ H).
    + cbn [app]. rewrite <- !app_assoc. apply IH.
      intros H. apply Hnl. now right.
Qed.

Lemma span_stop p d c r :
  forallb p d = true -> p c = false -> span p (d ++ c :: r) = (d, c :: r).
Proof.
  intros Hd Hc. induction d as [|x d IH].
  - cbn [app span]. now rewrite Hc.
  - cbn [forallb] in Hd. apply andb_prop in Hd as [Hx Hd].
    cbn [app span]. now rewrite Hx, (IH Hd).
Qed.

Lemma span_end p d : forallb p d = true -> span p d = (d, []).
Proof.
  intros Hd. induction d as [|x d IH]; [reflexivity|].
  cbn [forallb] in Hd. apply andb_prop in Hd as [Hx Hd].
  cbn [span]. now rewrite Hx, (IH Hd).
Qed.

(** The flag followed by blanks and a word that ends the line or is
    followed by a blank. *)
Lemma matchTail_flag blanks word rest :
  blanks <> [] -> forallb isReSpace blanks = true ->
  word <> [] -> forallb (fun c => negb (isReSpace c)) word = true ->
  (rest = [] \/ exists c r, rest = c :: r /\ isReSpace c = true) ->
  matchTail (str "-r" ++ blanks ++ word ++ rest) = Some word.
Proof.
  intros Hb Hblanks Hw Hword Hrest. unfold matchTail.
  rewrite (HasPrefix_self_app (str "-r") (blanks ++ word ++ rest)).
  change (skipn 2 (str "-r" ++ blanks ++ word ++ rest))
    with (blanks ++ word ++ rest).
  cbn iota.
  assert (Hspan : span isReSpace (blanks ++ word ++ rest)
                  = (blanks, word ++ rest)).
  { destruct word as [|x word]; [contradiction|].
    cbn [forallb] in Hword. apply andb_prop in Hword as [Hx _].
    apply negb_true_iff in Hx.
    apply (span_stop isReSpace blanks x (word ++ rest) Hblanks Hx). }
  rewrite Hspan.
  destruct blanks as [|b blanks]; [contradiction|].
  assert (Hspan' : fst (span (fun c => negb (isReSpace c)) (word ++ rest))
                   = word).
  { destruct Hrest as [->|(c & r & -> & Hc)].
    - rewrite app_nil_r, span_end by assumption. reflexivity.
    - rewrite span_stop; [reflexivity|assumption|now rewrite Hc]. }
  rewrite Hspan'. destruct word; [contradiction|reflexivity].
Qed.

(** The expression finds the word after the last flag of the line. *)
Lemma FindDestination_last_flag before mid blanks word rest :
  ~ In newline (before ++ mid) ->
  blanks <> [] -> forallb isReSpace blanks = true ->
  word <> [] -> forallb (fun c => negb (isReSpace c)) word = true ->
  (rest = [] \/ exists c r, rest = c :: r /\ isReSpace c = true) ->
  Contains (blanks ++ word ++ rest) (str "-r") = false ->
  FindDestination
    (before ++ str "sshuttle" ++ mid ++ str "-r" ++ blanks ++ word ++ rest)
  = Some word.
Proof.
  intros Hnl Hb Hblanks Hw Hword Hrest Hlast.
  apply FindDestination_first.
  - intros H. apply Hnl. apply in_app_or in H as [H|H];
      [apply in_or_app; now left|].
    apply in_app_or in H as [H|H]; [|apply in_or_app; now right].
    cbn in H. intuition discriminate.
  - intros u Hu.
    change (str "-r" ++ blanks ++ word ++ rest)
      with ("-"%char :: str "r" ++ blanks ++ word ++ rest).
    apply matchDotStar_last; [assumption| |].
    + now apply (matchTail_flag blanks word rest).
    + apply no_flag_no_match.
      change (Contains (str "r" ++ blanks ++ word ++ rest) (str "-r"))
        with (false || Contains (blanks ++ word ++ rest) (str "-r")).
      exact Hlast.
Qed.



(** The command, cut after the remote flag and after the remote. *)
Lemma buildCommand_after debugMode tunnel :
  buildCommand debugMode tunnel =
  str "sshuttle"
  ++ ((if debugMode then space :: str "-v" else []) ++ [space])
  ++ str "-r" ++ space :: (User tunnel ++ str "@" ++ Host tunnel)
  ++ space :: Subnets tunnel
  ++ (if debugMode then [] else space :: str "--daemon")
  ++ space :: str "--ssh-cmd=" ++ dquote :: sshCmd debugMode tunnel
  ++ dquote :: passThrough tunnel.
Proof.
  rewrite CommandBuilder.buildCommand_words.
  destruct debugMode; cbn [app str list_ascii_of_string];
    rewrite <- ?app_assoc; reflexivity.
Qed.

(** With no flag in the fields of the definition, there is none in the
    command after the one the builder writes. *)
Lemma no_second_flag (debugMode : bool) tunnel :
  fieldsFree tunnel (str "-r") ->
  Contains (str "r" ++ space :: User tunnel ++ at_sign :: Host tunnel
            ++ space :: Subnets tunnel
            ++ (if debugMode then [] else space :: str "--daemon")
            ++ space :: str "--ssh-cmd=" ++ dquote :: sshCmd debugMode tunnel
            ++ dquote :: passThrough tunnel) (str "-r") = false.
Proof.
  intros (Hu & Hh & Hs & He).
  pose proof (Contains_infix_false _ _ (str "-r")
                (CommandBuilder.keyPath_infix tunnel) He) as Hk.
  assert (Hne : str "-r" <> []) by discriminate.
  assert (Hsp : ~ In space (str "-r")) by (cbn; intuition discriminate).
  assert (Hat : ~ In at_sign (str "-r")) by (cbn; intuition discriminate).
  assert (Hdq : ~ In dquote (str "-r")) by (cbn; intuition discriminate).
  rewrite CommandBuilder.sshCmd_words.
  unfold keyOption, passThrough.
  change (str " " ++ ExtraArgs tunnel) with (space :: ExtraArgs tunnel).
  destruct debugMode, (Contains (ExtraArgs tunnel) (str "-i ")),
    (gostring_eqb (ExtraArgs tunnel) []);
    cbn [app negb andb];
    rewrite ?app_nil_r;
    repeat (rewrite Contains_app_sep by assumption);
    rewrite ?(Contains_cons_sep space (ExtraArgs tunnel) (str "-r"))
      by assumption;
    rewrite ?(Contains_nil_l (str "-r") Hne), ?Hu, ?Hh, ?Hs, ?He, ?Hk;
    reflexivity.
Qed.

(** X4: A line of the process table that ends with the text of a command
    the builder made is scanned as a session towards the remote of the
    definition: the row of the running tunnel names the destination the
    row of the definition names.  The fields of the definition are to hold
    no [-r] of their own and the remote no white space; the text before the
    command, with the process id, is that of any line of the table. *)
Theorem launched_tunnel_is_scanned_back debugMode tunnel pre pid sessions :
  fieldsFree tunnel (str "-r") ->
  forallb (fun c => negb (isReSpace c))
    (User tunnel ++ str "@" ++ Host tunnel) = true ->
  ~ In newline pre ->
  pidOfLine (pre ++ buildCommand debugMode tunnel) = Some pid ->
  let line := pre ++ buildCommand debugMode tunnel in
  let session :=
    {| PID := pid; Command := line;
       Destination := User tunnel ++ str "@" ++ Host tunnel |} in
  scanLine sessions line = sessions ++ [session]
  /\ destination (activeItem session)
     = destination (configItem debugMode tunnel).
Proof.
  intros Hfree Hremote Hpre Hpid. cbv zeta. split; [|reflexivity].
  rewrite ProcessScanner.scanLine_app, ProcessScanner.tunnelsOfLine_spec, Hpid.
  assert (Htool : matchesTool (pre ++ buildCommand debugMode tunnel) = true).
  { unfold matchesTool. apply andb_true_intro. split.
    - apply Contains_app_l. rewrite buildCommand_after.
      apply Contains_prefix, HasPrefix_self_app.
    - apply Contains_app_l. rewrite buildCommand_after.
      apply Contains_app_l, Contains_app_l.
      apply Contains_prefix, HasPrefix_self_app. }
  rewrite Htool. do 2 f_equal. unfold tunnelOf. f_equal.
  unfold destinationOfLine. rewrite buildCommand_after.
  change (space :: (User tunnel ++ str "@" ++ Host tunnel) ++ ?x)
    with ([space] ++ (User tunnel ++ str "@" ++ Host tunnel) ++ x).
  change (space :: Subnets tunnel ++ ?x)
    with ((space :: Subnets tunnel ++ x)).
  rewrite (FindDestination_last_flag pre
             ((if debugMode then space :: str "-v" else []) ++ [space])
             [space] (User tunnel ++ str "@" ++ Host tunnel)).
  - reflexivity.
  - intros H. apply in_app_or in H as [H|H]; [now apply Hpre|].
    destruct debugMode; cbn in H; intuition discriminate.
  - discriminate.
  - reflexivity.
  - destruct (User tunnel); discriminate.
  - assumption.
  - right. eexists _, _. split; reflexivity.
  - pose proof (no_second_flag debugMode tunnel Hfree) as H.
    change (str "r" ++ space :: ?x) with ("r"%char :: [space] ++ x) in H.
    change (Contains ("r"%char :: ?x) (str "-r"))
      with (false || Contains x (str "-r")) in H.
    cbn [orb] in H. etransitivity; [|exact H]. f_equal.
    rewrite <- !app_assoc. reflexivity.
Qed.

(** The development server of the README, launched and listed by [ps]
    under the process id 4242. *)
Lemma launched_tunnel_is_scanned_back_witness :
  scanLine []
    (str "root 4242 0.0 /usr/bin/python3 /usr/bin/"
     ++ buildCommand false Examples.devServer)
  = [ {| PID := 4242;
         Command := str "root 4242 0.0 /usr/bin/python3 /usr/bin/"
                    ++ buildCommand false Examples.devServer;
         Destination := str "ubuntu@dev.example.com" |} ].
Proof.
  destruct (launched_tunnel_is_scanned_back false Examples.devServer
              (str "root 4242 0.0 /usr/bin/python3 /usr/bin/") 4242%Z [])
    as [Hscan _].
  - repeat split; reflexivity.
  - reflexivity.
  - cbn. intuition discriminate.
  - vm_compute. reflexivity.
  - exact Hscan.
Defined.

End RoundTrip.
